(** * Revit Parameter Explorer: merge engine, readiness poller, lazy
    navigation tree and identifier encoding

  A shallow embedding of the TypeScript sources
  - [app/api/modelDerivate/[region]/[version_id]/views/[view_guid]/allProperties/route.ts]
    (the server-side handler [GET] with its [propertiesMap] and
    [attachProperties]),
  - [app/page.tsx] ([handleModelViewSelect], the poll loop, and the
    content area of the page that renders its outcome),
  - [app/components/projectSidebar.tsx] ([toggleNode], [updateNode],
    [findNode], [sortNodesByName]),
  together with the properties the specification states about them. *)

From Stdlib Require Import ZArith Ascii String List Bool Lia DecimalString Sorted.
From Stdlib Require OrderedTypeEx.
From stdpp Require Import base option list gmap strings.

Local Open Scope string_scope.
Set Warnings "-register-all".

(** ** JavaScript string helpers *)

Module JsString.

(** [s.slice(n)] on a string of bytes. *)
Fixpoint slice (n : nat) (s : string) : string :=
  match n, s with
  | O, _ => s
  | S n', String _ s' => slice n' s'
  | S _, EmptyString => EmptyString
  end.

(** [s.startsWith(pat)]. *)
Fixpoint startsWith (s pat : string) {struct pat} : bool :=
  match pat, s with
  | EmptyString, _ => true
  | String p pat', String c s' => Ascii.eqb p c && startsWith s' pat'
  | String _ _, EmptyString => false
  end.

(** [s.replace(pat, rep)] with a string pattern: only the first
    occurrence of [pat], scanning from the left, is replaced.  The
    replacement strings of this program contain no [$] pattern. *)
Fixpoint replace (s pat rep : string) : string :=
  if startsWith s pat then rep ++ slice (String.length pat) s
  else match s with
       | EmptyString => EmptyString
       | String c s' => String c (replace s' pat rep)
       end.

(** [s.includes(pat)]. *)
Fixpoint includes (s pat : string) : bool :=
  startsWith s pat ||
  match s with
  | EmptyString => false
  | String _ s' => includes s' pat
  end.

(** The characters of a string. *)
Fixpoint chars (s : string) : list ascii :=
  match s with
  | EmptyString => []
  | String c s' => c :: chars s'
  end.

(** [s.split(sep)] for a one-character separator. *)
Fixpoint split_acc (sep : ascii) (cur : string) (s : string) : list string :=
  match s with
  | EmptyString => [cur]
  | String c s' =>
      if Ascii.eqb c sep then cur :: split_acc sep EmptyString s'
      else split_acc sep (cur ++ String c EmptyString) s'
  end.

Definition split (s : string) (sep : ascii) : list string :=
  split_acc sep EmptyString s.

(** The base64 alphabet of [btoa]. *)
Definition alphabet : string :=
  "ABCDEFGHIJKLMNOPQRSTUVWXYZabcdefghijklmnopqrstuvwxyz0123456789+/".

Definition digit (n : nat) : ascii := nth n (chars alphabet) "="%char.

(** [btoa(s)]: three bytes give four digits, the last group is padded
    with ["="].  A string here holds bytes only, the characters on which
    [btoa] does not throw. *)
Fixpoint btoa (s : string) : string :=
  match s with
  | EmptyString => EmptyString
  | String a EmptyString =>
      let x := nat_of_ascii a in
      String (digit (x / 4)) (String (digit (x mod 4 * 16)) "==")
  | String a (String b EmptyString) =>
      let x := nat_of_ascii a in
      let y := nat_of_ascii b in
      String (digit (x / 4)) (String (digit (x mod 4 * 16 + y / 16))
        (String (digit (y mod 16 * 4)) "="))
  | String a (String b (String c rest)) =>
      let x := nat_of_ascii a in
      let y := nat_of_ascii b in
      let z := nat_of_ascii c in
      String (digit (x / 4)) (String (digit (x mod 4 * 16 + y / 16))
        (String (digit (y mod 16 * 4 + z / 64)) (String (digit (z mod 64)) (btoa rest))))
  end.

End JsString.

(** ** Identifier encoding

  The client escapes the first ["/"] of a version identifier before it
  puts it in a request path; the route handlers undo it. *)

Module Encoding.
Import JsString.

(** [itemUrn.replace("/", "%2F")] in [handleModelViewSelect]; the same
    call follows [btoa(version)] in [toggleNode]. *)
Definition encode (urn : string) : string := replace urn "/" "%2F".

(** [version_id.replace("%2F", "/")] in the route handlers. *)
Definition decode (version_id : string) : string := replace version_id "%2F" "/".

(** The part of a string before its first ["/"] (all of it when there
    is none). *)
Fixpoint beforeSlash (s : string) : string :=
  match s with
  | EmptyString => EmptyString
  | String c s' => if Ascii.eqb c "/"%char then EmptyString else String c (beforeSlash s')
  end.

(** A pattern made of characters other than ["/"] and ["%"]. *)
Definition plain (pat : string) : Prop :=
  Forall (fun c => c <> "/"%char /\ c <> "%"%char) (chars pat).

End Encoding.

(** ** Tree/property merge engine: the [allProperties] route handler *)

Module Merge.

(** The value of [properties]: category name to (property name to value). *)
Abbreviation Properties := (gmap string (gmap string string)).

(** [PropertiesDataCollection] of the model-derivative SDK, one record of
    the flat collection. *)
Record PropertiesDataCollection := mkProps {
  p_objectid : Z;
  p_name : string;
  p_externalId : string;
  p_properties : Properties
}.

(** [ObjectTreeData]: an SDK tree node ([objectid], [name], optional
    [objects]) extended with the optional [properties] field. *)
Inductive ObjectTreeData := mkObject {
  objectid : Z;
  name : string;
  objects : option (list ObjectTreeData);
  properties : option Properties
}.

(** [propertiesMap]: [new Map()] followed by a [set] per record, in
    iteration order of the collection. *)
Definition propertiesMap (props : list PropertiesDataCollection)
  : gmap Z PropertiesDataCollection :=
  foldl (fun m prop => <[p_objectid prop := prop]> m) ∅ props.

(** The body of the [forEach] callback of [attachProperties]: set
    [object.properties] when the map has the node's id, then descend
    into [object.objects] when it is there. *)
Fixpoint attachNode (pm : gmap Z PropertiesDataCollection) (object : ObjectTreeData)
  : ObjectTreeData :=
  {| objectid := objectid object;
     name := name object;
     objects := match objects object with
                | Some os => Some (map (attachNode pm) os)
                | None => None
                end;
     properties := match pm !! objectid object with
                   | Some property => Some (p_properties property)
                   | None => properties object
                   end |}.

Definition attachProperties (pm : gmap Z PropertiesDataCollection)
  (objects : list ObjectTreeData) : list ObjectTreeData :=
  map (attachNode pm) objects.

(** The merge as the handler performs it on a ready collection. *)
Definition merge (tree : list ObjectTreeData) (props : list PropertiesDataCollection)
  : list ObjectTreeData :=
  attachProperties (propertiesMap props) tree.

(** All nodes of a tree, parents before children, siblings in order. *)
Fixpoint nodesOf (object : ObjectTreeData) : list ObjectTreeData :=
  object :: match objects object with
            | Some os => flat_map nodesOf os
            | None => []
            end.

Definition allNodes (tree : list ObjectTreeData) : list ObjectTreeData :=
  flat_map nodesOf tree.

(** A tree as [getObjectTree] returns it: no node has [properties]. *)
Definition bare (tree : list ObjectTreeData) : Prop :=
  Forall (fun n => properties n = None) (allNodes tree).

(** How a node [n'] of the result stands to the node [n] of the tree
    at the same place, for a map [pm]. *)
Definition attached (pm : gmap Z PropertiesDataCollection) (n n' : ObjectTreeData) : Prop :=
  objectid n' = objectid n /\ name n' = name n /\
  option_map (@length ObjectTreeData) (objects n')
    = option_map (@length ObjectTreeData) (objects n) /\
  properties n' = match pm !! objectid n with
                  | Some property => Some (p_properties property)
                  | None => properties n
                  end.

(** The tree and the collection of the example of the specification:
    a wall with a door below it, and the record of the door. *)
Definition wallTree : list ObjectTreeData :=
  [mkObject 1 "Wall" (Some [mkObject 2 "Door" None None]) None].

Definition doorRecord : PropertiesDataCollection :=
  mkProps 2 "Door" "" {[ "Dims" := {[ "Width" := "36" ]} ]}.

(** Two records with one [objectid]. *)
Definition recordA : PropertiesDataCollection :=
  mkProps 5 "Pipe" "a" {[ "Source" := {[ "Record" := "A" ]} ]}.

Definition recordB : PropertiesDataCollection :=
  mkProps 5 "Pipe" "b" {[ "Source" := {[ "Record" := "B" ]} ]}.

(** *** The route handler

    The collaborators of the handler ([lib/server/auth], [lib/services/aps])
    are taken as they answer during one request. *)

Record Tokens := mkTokens { internalToken_access_token : string }.

(** What awaiting a promise gives: its value, or the error it rejects
    with. *)
Inductive Awaited (A : Type) : Type :=
| Resolved (a : A)
| Rejected (error : string).
Arguments Resolved {A} a.
Arguments Rejected {A} error.

(** The value [getAllProperties] resolves with. *)
Record AllProperties := mkAllProperties {
  ap_properties : list PropertiesDataCollection;
  ap_isProcessing : bool
}.

(** [getAuthTokens] is awaited before the [try] of the handler: it
    resolves with the tokens or with [null], or it rejects (it throws
    when a token cookie is missing). *)
Record Gateway := mkGateway {
  getAuthTokens : Awaited (option Tokens);
  getAllProperties : string -> string -> string -> string -> Awaited AllProperties;
  getObjectTree : string -> string -> string -> string -> Awaited (list ObjectTreeData)
}.

(** The calls a request makes on its collaborators, oldest first. *)
Inductive Call :=
| CallGetAuthTokens
| CallGetAllProperties (versionUrn modelGuid region accessToken : string)
| CallGetObjectTree (versionUrn modelGuid region accessToken : string).

(** The [res] object of the handler. *)
Record Res := mkRes {
  isProcessing : bool;
  res_properties : list PropertiesDataCollection;
  objectTreeWithProperties : list ObjectTreeData
}.

(** How a request to the handler ends: with [Response.json] of [res]
    or of an error, or, when what it awaits outside its [try] rejects,
    with the handler itself rejecting and no response made. *)
Inductive Response :=
| JsonRes (res : Res)
| JsonError (error : string) (status : nat)
| HandlerRejects (error : string).

Definition isGetObjectTree (c : Call) : bool :=
  match c with CallGetObjectTree _ _ _ _ => true | _ => false end.

(** [GET]: the response together with the calls made to produce it.
    The older handler for [views/[view_guid]/allProperties] is the same
    function without the [region] argument. *)
Definition GET (gw : Gateway) (region version_id view_guid : string)
  : Response * list Call :=
  match getAuthTokens gw with
  | Rejected error => (HandlerRejects error, [CallGetAuthTokens])
  | Resolved None => (JsonError "Unauthorized" 401, [CallGetAuthTokens])
  | Resolved (Some tokens) =>
      let decodedVersionId := Encoding.decode version_id in
      let token := internalToken_access_token tokens in
      let calls1 := [CallGetAuthTokens;
                     CallGetAllProperties decodedVersionId view_guid region token] in
      match getAllProperties gw decodedVersionId view_guid region token with
      | Rejected _ => (JsonError "Failed to fetch all properties" 500, calls1)
      | Resolved allProperties =>
          if negb (ap_isProcessing allProperties) then
            let pm := propertiesMap (ap_properties allProperties) in
            let calls2 := (calls1 ++ [CallGetObjectTree decodedVersionId view_guid region token])%list in
            match getObjectTree gw decodedVersionId view_guid region token with
            | Rejected _ => (JsonError "Failed to fetch all properties" 500, calls2)
            | Resolved objectTree =>
                (JsonRes {| isProcessing := false;
                            res_properties := ap_properties allProperties;
                            objectTreeWithProperties := attachProperties pm objectTree |},
                 calls2)
            end
          else
            (JsonRes {| isProcessing := true;
                        res_properties := [];
                        objectTreeWithProperties := [] |},
             calls1)
      end
  end.

End Merge.

(** ** Readiness poller: [handleModelViewSelect] of the page *)

Module Poller.
Import Merge.

(** The state hooks of [Home] that the poll reads or writes. *)
Record HomeState := mkHome {
  region : string;
  isLoading : bool;
  selectedVersionId : option string;
  properties : list PropertiesDataCollection;
  objectTree : list ObjectTreeData;
  error : option string
}.

Definition setLoading (b : bool) (h : HomeState) : HomeState :=
  mkHome (region h) b (selectedVersionId h) (properties h) (objectTree h) (error h).
Definition setError (e : option string) (h : HomeState) : HomeState :=
  mkHome (region h) (isLoading h) (selectedVersionId h) (properties h) (objectTree h) e.
Definition setSelectedVersionId (v : option string) (h : HomeState) : HomeState :=
  mkHome (region h) (isLoading h) v (properties h) (objectTree h) (error h).
Definition setProperties (p : list PropertiesDataCollection) (h : HomeState) : HomeState :=
  mkHome (region h) (isLoading h) (selectedVersionId h) p (objectTree h) (error h).
Definition setObjectTree (t : list ObjectTreeData) (h : HomeState) : HomeState :=
  mkHome (region h) (isLoading h) (selectedVersionId h) (properties h) t (error h).

(** The initial values of the hooks. *)
Definition initialHome : HomeState :=
  mkHome "US" false None [] [] None.

(** What [fetch] resolves with, as far as the poll looks at it; [json]
    is what [res.json()] resolves with. *)
Record FetchResponse := mkFetchResponse {
  ok : bool;
  status : nat;
  statusText : string;
  json : Res
}.

(** A value that is thrown, or that a promise rejects with: an [Error]
    with its message, or a value that is no [Error]. *)
Inductive Thrown :=
| ErrorOf (message : string)
| NotAnError.

(** How the two awaits of one turn of the loop go.  [fetch] rejects; or
    it resolves with [res] and [res.json()], when the loop comes to
    call it, resolves with [json res]; or it resolves with [res] and
    [res.json()] rejects, or gives a value such as [null] on which
    reading [isProcessing] throws (the [json] of that [res] is then
    not looked at). *)
Inductive Fetched :=
| FetchRejects (reason : Thrown)
| Answers (res : FetchResponse)
| BodyRejects (res : FetchResponse) (reason : Thrown).

(** An asynchronous function body: state updates, and the two places
    where it is suspended, with what it does once resumed. *)
Inductive Proc : Type :=
| Done
| OutOfFuel
| SetState (f : HomeState -> HomeState) (k : Proc)
| Fetch (url : string) (k : Fetched -> Proc)
| Sleep (ms : Z) (k : Proc).

Definition maxAttempts : nat := 150.

Definition timeoutMessage : string :=
  "Timeout: Model data is taking too long to load. Please try again later.".

Definition showStatus (n : nat) : string :=
  DecimalString.NilZero.string_of_uint (Nat.to_uint n).

Definition failedMessage (res : FetchResponse) : string :=
  "Failed to load model data (" ++ showStatus (status res) ++ ": " ++ statusText res ++ ")".

(** [error instanceof Error ? error.message : "An unexpected error
    occurred"]. *)
Definition errorMessage (error : Thrown) : string :=
  match error with
  | ErrorOf message => message
  | NotAnError => "An unexpected error occurred"
  end.

(** The [catch] block, entered with what was thrown. *)
Definition catchBlock (error : Thrown) : Proc :=
  SetState (setError (Some (errorMessage error))) (SetState (setLoading false) Done).

(** The [while (attempts < maxAttempts)] loop followed by the timeout
    [throw].  [fuel] bounds the unfolding of the loop; the function runs
    it with more than [maxAttempts]. *)
Fixpoint pollLoop (url : string) (fuel attempts : nat) : Proc :=
  match fuel with
  | O => OutOfFuel
  | S fuel' =>
      if (attempts <? maxAttempts)%nat then
        Fetch url (fun fetched =>
          match fetched with
          | FetchRejects reason => catchBlock reason
          | Answers res =>
              if negb (ok res) then catchBlock (ErrorOf (failedMessage res))
              else
                let data := json res in
                if negb (isProcessing data) then
                  SetState (setProperties (res_properties data))
                    (SetState (setObjectTree (objectTreeWithProperties data))
                       (SetState (setLoading false) Done))
                else
                  Sleep 1000 (pollLoop url fuel' (S attempts))
          | BodyRejects res reason =>
              if negb (ok res) then catchBlock (ErrorOf (failedMessage res))
              else catchBlock reason
          end)
      else catchBlock (ErrorOf timeoutMessage)
  end.

Definition pollUrl (region encodedUrn viewGuid : string) : string :=
  "/api/modelDerivate/" ++ region ++ "/" ++ encodedUrn ++ "/views/" ++ viewGuid
  ++ "/allProperties".

(** [handleModelViewSelect], in a render whose [region] hook holds
    [region]. *)
Definition handleModelViewSelect (region type viewGuid itemUrn : string) : Proc :=
  SetState (setLoading true)
    (SetState (setError None)
       (let encodedUrn := Encoding.encode itemUrn in
        SetState (setSelectedVersionId (Some encodedUrn))
          (pollLoop (pollUrl region encodedUrn viewGuid) (S maxAttempts) 0))).

(** *** One poll on its own *)

Inductive Effect :=
| EFetch (url : string)
| ESleep (ms : Z).

Record Run := mkRun {
  final : HomeState;
  trace : list Effect;
  finished : bool
}.

Definition after (e : Effect) (r : Run) : Run :=
  mkRun (final r) (e :: trace r) (finished r).

(** Runs a body to its end when the [n]-th request (counted from 0)
    goes as [server n] says. *)
Fixpoint run (p : Proc) (server : nat -> Fetched) (n : nat) (h : HomeState) : Run :=
  match p with
  | Done => mkRun h [] true
  | OutOfFuel => mkRun h [] false
  | SetState f k => run k server n (f h)
  | Fetch url k => after (EFetch url) (run (k (server n)) server (S n) h)
  | Sleep ms k => after (ESleep ms) (run k server n h)
  end.

Definition isFetch (e : Effect) : bool :=
  match e with EFetch _ => true | ESleep _ => false end.

Definition requests (r : Run) : nat := length (List.filter isFetch (trace r)).

(** What the content area of the page shows for a state. *)
Inductive Content :=
| Spinner
| ErrorPanel (message : string)
| DataView.

Definition render (h : HomeState) : Content :=
  if isLoading h then Spinner
  else match error h with
       | Some message => if String.eqb message "" then DataView else ErrorPanel message
       | None => DataView
       end.

(** The [onClick] of the Dismiss button of the error panel. *)
Definition dismiss (h : HomeState) : HomeState := setError None h.

(** A response that says the job is still processing, and one that
    carries the data of a finished job. *)
Definition processing (res : FetchResponse) : Prop :=
  ok res = true /\ isProcessing (json res) = true.

Definition ready (res : FetchResponse) : Prop :=
  ok res = true /\ isProcessing (json res) = false.

(** A server every request to which is answered, with a body that can
    be read. *)
Definition answering (server : nat -> FetchResponse) : nat -> Fetched :=
  fun n => Answers (server n).

(** A turn after which the loop goes on: an answer that says the job
    is still processing. *)
Definition continues (fetched : Fetched) : Prop :=
  exists res, fetched = Answers res /\ processing res.

Definition stillProcessing : FetchResponse :=
  mkFetchResponse true 200 "OK" (mkRes true [] []).

Definition complete (props : list PropertiesDataCollection) (tree : list ObjectTreeData)
  : FetchResponse :=
  mkFetchResponse true 200 "OK" (mkRes false props tree).

(** [k] rounds of request and wait. *)
Definition rounds (url : string) (k : nat) : list Effect :=
  concat (repeat [EFetch url; ESleep 1000] k).

(** *** Several selections in one session *)

Record Session := mkSession {
  home : HomeState;
  polls : list Proc
}.

(** [Respond]: the request of poll [i] is answered and the body read;
    [FetchFails]: its [fetch] rejects; [BodyFails]: the answer comes
    and [res.json()] rejects. *)
Inductive Event :=
| Select (type viewGuid itemUrn : string)
| Respond (i : nat) (res : FetchResponse)
| TimerFired (i : nat)
| FetchFails (i : nat) (reason : Thrown)
| BodyFails (i : nat) (res : FetchResponse) (reason : Thrown).

(** Runs a body up to its next suspension. *)
Fixpoint advance (p : Proc) (h : HomeState) : HomeState * Proc :=
  match p with
  | SetState f k => advance k (f h)
  | _ => (h, p)
  end.

Definition resume (s : Session) (i : nat) (k : Proc) : Session :=
  let '(h, p) := advance k (home s) in
  mkSession h (<[i := p]> (polls s)).

(** One turn of the event loop.  The [i]-th selection of the session is
    poll [i]; an event for a poll that is not waiting for it changes
    nothing. *)
Definition step (s : Session) (e : Event) : Session :=
  match e with
  | Select type viewGuid itemUrn =>
      let '(h, p) := advance (handleModelViewSelect (region (home s)) type viewGuid itemUrn) (home s) in
      mkSession h (polls s ++ [p])%list
  | Respond i res =>
      match polls s !! i with
      | Some (Fetch _ k) => resume s i (k (Answers res))
      | _ => s
      end
  | TimerFired i =>
      match polls s !! i with
      | Some (Sleep _ k) => resume s i k
      | _ => s
      end
  | FetchFails i reason =>
      match polls s !! i with
      | Some (Fetch _ k) => resume s i (k (FetchRejects reason))
      | _ => s
      end
  | BodyFails i res reason =>
      match polls s !! i with
      | Some (Fetch _ k) => resume s i (k (BodyRejects res reason))
      | _ => s
      end
  end.

Definition steps (s : Session) (es : list Event) : Session := foldl step s es.




(** A server that is done from its third answer on, and one that never
    is. *)
Definition doneAfterTwo : nat -> FetchResponse :=
  fun n => if (n <? 2)%nat then stillProcessing
           else complete [doorRecord] (merge wallTree [doorRecord]).

Definition neverDone : nat -> FetchResponse := fun _ => stillProcessing.




Definition serverError : FetchResponse :=
  mkFetchResponse false 500 "Internal Server Error" (mkRes true [] []).

End Poller.

(** ** Lazy navigation tree: the [Sidebar] component *)

Module Sidebar.
Import JsString.

(** The [type] of a [TreeNode]. *)
Inductive NodeType := THub | TProject | TFolder | TItem | TVersion | TView | TError.

(** [interface TreeNode]; a field marked [?] is an [option]. *)
Inductive TreeNode := mkNode {
  id : string;
  name : string;
  type : NodeType;
  children : option (list TreeNode);
  isOpen : option bool;
  isLoading : option bool;
  parent : option string
}.

(** One key of a [Partial<TreeNode>]: absent, or present with a value. *)
Inductive Key (A : Type) : Type :=
| Absent
| Present (a : A).
Arguments Absent {A}.
Arguments Present {A} a.

Definition override {A : Type} (old : A) (k : Key A) : A :=
  match k with
  | Absent => old
  | Present a => a
  end.

Record Updates := mkUpdates {
  u_id : Key string;
  u_name : Key string;
  u_type : Key NodeType;
  u_children : Key (option (list TreeNode));
  u_isOpen : Key (option bool);
  u_isLoading : Key (option bool);
  u_parent : Key (option string)
}.

Definition noUpdates : Updates :=
  mkUpdates Absent Absent Absent Absent Absent Absent Absent.

(** [{ ...node, ...updates }]. *)
Definition spread (node : TreeNode) (updates : Updates) : TreeNode :=
  {| id := override (id node) (u_id updates);
     name := override (name node) (u_name updates);
     type := override (type node) (u_type updates);
     children := override (children node) (u_children updates);
     isOpen := override (isOpen node) (u_isOpen updates);
     isLoading := override (isLoading node) (u_isLoading updates);
     parent := override (parent node) (u_parent updates) |}.

(** [{ ...node, children: cs }]. *)
Definition withChildren (node : TreeNode) (cs : list TreeNode) : TreeNode :=
  {| id := id node; name := name node; type := type node;
     children := Some cs;
     isOpen := isOpen node; isLoading := isLoading node; parent := parent node |}.

(** The callback of [nodes.map] in [updateNode]. *)
Fixpoint updateIn (target : string) (updates : Updates) (node : TreeNode) : TreeNode :=
  if String.eqb (id node) target then spread node updates
  else match children node with
       | Some cs => withChildren node (map (updateIn target updates) cs)
       | None => node
       end.

Definition updateNode (nodes : list TreeNode) (target : string) (updates : Updates)
  : list TreeNode :=
  map (updateIn target updates) nodes.

(** The [for ... of] loop of [findNode], over the search in one node. *)
Section FirstFound.
Context {A B : Type} (f : A -> option B).
Fixpoint firstFound (l : list A) : option B :=
  match l with
  | [] => None
  | x :: rest =>
      match f x with
      | Some found => Some found
      | None => firstFound rest
      end
  end.
End FirstFound.

Fixpoint findIn (target : string) (node : TreeNode) : option TreeNode :=
  if String.eqb (id node) target then Some node
  else match children node with
       | Some cs => firstFound (findIn target) cs
       | None => None
       end.

Definition findNode (nodes : list TreeNode) (target : string) : option TreeNode :=
  firstFound (findIn target) nodes.

(** All nodes of a forest, parents before children, siblings in order. *)
Fixpoint nodesOf (node : TreeNode) : list TreeNode :=
  node :: match children node with
          | Some cs => flat_map nodesOf cs
          | None => []
          end.

Definition allNodes (nodes : list TreeNode) : list TreeNode := flat_map nodesOf nodes.

Definition uniqueIds (nodes : list TreeNode) : Prop := NoDup (map id (allNodes nodes)).

(** The children of a node as a forest, empty when it has none. *)
Definition kids (node : TreeNode) : list TreeNode :=
  match children node with
  | Some cs => cs
  | None => []
  end.

(** The node at a path of child positions, counted from 0. *)
Fixpoint nodeAt (nodes : list TreeNode) (path : list nat) : option TreeNode :=
  match path with
  | [] => None
  | i :: rest =>
      match nth_error nodes i with
      | None => None
      | Some node =>
          match rest with
          | [] => Some node
          | _ :: _ =>
              match children node with
              | Some cs => nodeAt cs rest
              | None => None
              end
          end
      end
  end.

(** The fields of a node other than the subtree below it: the scalar
    fields, whether [children] is there, and how many it holds. *)
Definition own (node : TreeNode) :=
  (id node, name node, type node, isOpen node, isLoading node, parent node,
   option_map (@length TreeNode) (children node)).

(** *** Records of the API routes *)

Record Project := mkProject { project_id : string; project_name : string }.
Record FolderContent := mkFolderContent {
  content_id : string; content_name : string; content_folder : bool }.
Record Version := mkVersion { version_id : string; version_name : string }.
Record View := mkView {
  view_urn : string; view_guid : string; view_name : string; view_role : string }.

(** What [fetch] resolves with: [res.ok], [res.status], and the value of
    [res.json()] at the type the caller reads it at. *)
Record Resp (A : Type) := mkResp { ok : bool; status : nat; json : A }.
Arguments mkResp {A} ok status json.
Arguments ok {A} r.
Arguments status {A} r.
Arguments json {A} r.

(** The body of [toggleNode]: [setTree] calls, and the one [await fetch]
    of each branch with what follows it. *)
Inductive Proc : Type :=
| Done
| SetTree (tree : list TreeNode) (k : Proc)
| FetchProjects (url : string) (k : Resp (list Project) -> Proc)
| FetchContents (url : string) (k : Resp (list FolderContent) -> Proc)
| FetchVersions (url : string) (k : Resp (list Version) -> Proc)
| FetchViews (url : string) (k : Resp (list View) -> Proc).

(** [node.isOpen] as a condition. *)
Definition truthy (b : option bool) : bool :=
  match b with Some true => true | _ => false end.

(** [!node.children || node.children.length === 0]. *)
Definition noChildren (node : TreeNode) : bool :=
  match children node with
  | None => true
  | Some [] => true
  | Some (_ :: _) => false
  end.

(** The ids for which the [switch] of [toggleNode] has a fetch. *)
Definition fetchable (nodeId : string) : bool :=
  let nodeType := nth 0 (split nodeId "|") "undefined" in
  String.eqb nodeType "hub" || String.eqb nodeType "project"
  || String.eqb nodeType "folder" || String.eqb nodeType "item"
  || String.eqb nodeType "version".

(** [parts[i]] inside a template literal. *)
Definition part (parts : list string) (i : nat) : string := nth i parts "undefined".

Definition onlyIsOpen (b : bool) : Updates :=
  mkUpdates Absent Absent Absent Absent (Present (Some b)) Absent Absent.
Definition onlyIsLoading (b : bool) : Updates :=
  mkUpdates Absent Absent Absent Absent Absent (Present (Some b)) Absent.
Definition loaded (cs : list TreeNode) : Updates :=
  mkUpdates Absent Absent Absent (Present (Some cs)) (Present (Some true))
    (Present (Some false)) Absent.

Definition contentNode (hubId projectId : string) (content : FolderContent) : TreeNode :=
  {| id := if content_folder content
           then "folder|" ++ hubId ++ "|" ++ projectId ++ "|" ++ content_id content
           else "item|" ++ hubId ++ "|" ++ projectId ++ "|" ++ content_id content;
     name := content_name content;
     type := if content_folder content then TFolder else TItem;
     children := Some [];
     isOpen := Some false;
     isLoading := None;
     parent := None |}.

Definition errorNode : TreeNode :=
  {| id := ""; name := "Error: No views found"; type := TError;
     children := None; isOpen := Some false; isLoading := None; parent := None |}.

(** A forest to try things on: an open hub with two projects, and a
    hub that has not been opened. *)
Definition closedNode (nodeId label : string) (ty : NodeType) : TreeNode :=
  mkNode nodeId label ty (Some []) (Some false) None None.

Definition sampleForest : list TreeNode :=
  [ mkNode "hub|h1" "Alpha" THub
      (Some [closedNode "project|h1|p1" "Bridge" TProject;
             closedNode "project|h1|p2" "Tower" TProject])
      (Some true) (Some false) None;
    closedNode "hub|h2" "Beta" THub ].

Section Component.

(** The environment of one render: the [region] prop and the
    comparison [a.localeCompare(b)] of the runtime's locale. *)
Variable region : string.
Variable localeCompare : string -> string -> comparison.

Fixpoint insertByName (node : TreeNode) (sorted : list TreeNode) : list TreeNode :=
  match sorted with
  | [] => [node]
  | x :: rest =>
      match localeCompare (name node) (name x) with
      | Gt => x :: insertByName node rest
      | _ => node :: sorted
      end
  end.

(** [sortNodesByName]: a stable sort of a copy by [localeCompare] of
    the names. *)
Definition sortNodesByName (nodes : list TreeNode) : list TreeNode :=
  fold_right insertByName [] nodes.

(** [toggleNode], in a render whose [tree] hook holds [tree]. *)
Definition toggleNode (tree : list TreeNode) (nodeId : string) : Proc :=
  match findNode tree nodeId with
  | None => Done
  | Some node =>
      if truthy (isOpen node) then
        SetTree (updateNode tree nodeId (onlyIsOpen false)) Done
      else if noChildren node then
        let finish cs := SetTree (updateNode tree nodeId (loaded cs)) Done in
        let failed := SetTree (updateNode tree nodeId (onlyIsLoading false)) Done in
        SetTree (updateNode tree nodeId (onlyIsLoading true))
          (let parts := split nodeId "|" in
           let nodeType := part parts 0 in
           if String.eqb nodeType "hub" then
             let hubId := part parts 1 in
             FetchProjects ("/api/hubs/" ++ hubId ++ "/projects") (fun res =>
               if negb (ok res) then failed
               else finish (sortNodesByName (map (fun p =>
                      {| id := "project|" ++ hubId ++ "|" ++ project_id p;
                         name := project_name p; type := TProject;
                         children := Some []; isOpen := Some false;
                         isLoading := None; parent := None |}) (json res))))
           else if String.eqb nodeType "project" then
             let hubId := part parts 1 in
             let projectId := part parts 2 in
             FetchContents ("/api/hubs/" ++ hubId ++ "/projects/" ++ projectId ++ "/contents")
               (fun res =>
                  if negb (ok res) then failed
                  else finish (sortNodesByName (map (contentNode hubId projectId) (json res))))
           else if String.eqb nodeType "folder" then
             let hubId := part parts 1 in
             let projectId := part parts 2 in
             let folderId := part parts 3 in
             FetchContents ("/api/hubs/" ++ hubId ++ "/projects/" ++ projectId
                            ++ "/contents?folder_id=" ++ folderId)
               (fun res =>
                  if negb (ok res) then failed
                  else finish (sortNodesByName (map (contentNode hubId projectId) (json res))))
           else if String.eqb nodeType "item" then
             let hubId := part parts 1 in
             let projectId := part parts 2 in
             let itemId := part parts 3 in
             FetchVersions ("/api/hubs/" ++ hubId ++ "/projects/" ++ projectId
                            ++ "/contents/" ++ itemId ++ "/versions")
               (fun res =>
                  if negb (ok res) then failed
                  else finish (sortNodesByName (map (fun v =>
                         {| id := "version|" ++ version_id v;
                            name := version_name v; type := TVersion;
                            children := None; isOpen := None;
                            isLoading := None; parent := None |}) (json res))))
           else if String.eqb nodeType "version" then
             let version := part parts 1 in
             let encodedVersion := Encoding.encode (btoa version) in
             FetchViews ("/api/modelDerivate/" ++ region ++ "/" ++ encodedVersion ++ "/views")
               (fun res =>
                  if negb (ok res) || Nat.eqb (status res) 404 then finish [errorNode]
                  else finish (sortNodesByName (map (fun v =>
                         {| id := "view|" ++ view_guid v;
                            name := view_name v; type := TView;
                            children := None; isOpen := None;
                            isLoading := None; parent := Some (view_urn v) |})
                         (List.filter (fun v => String.eqb (view_role v) "3d") (json res)))))
           else finish [])
      else
        SetTree (updateNode tree nodeId (onlyIsOpen true)) Done
  end.

(** *** The component over time *)

(** The [tree] hook, and the calls of [toggleNode] that wait for their
    [fetch], each with the id it was called with; a call that has ended
    stays in the list as [Done]. *)
Record Session := mkSession {
  tree : list TreeNode;
  calls : list (string * Proc)
}.

Inductive Event :=
| Toggle (nodeId : string)
| ProjectsArrive (i : nat) (res : Resp (list Project))
| ContentsArrive (i : nat) (res : Resp (list FolderContent))
| VersionsArrive (i : nat) (res : Resp (list Version))
| ViewsArrive (i : nat) (res : Resp (list View)).

(** Runs a body up to its [await]. *)
Fixpoint advance (p : Proc) (t : list TreeNode) : list TreeNode * Proc :=
  match p with
  | SetTree t' k => advance k t'
  | _ => (t, p)
  end.

Definition waiting (p : Proc) : bool :=
  match p with
  | FetchProjects _ _ | FetchContents _ _ | FetchVersions _ _ | FetchViews _ _ => true
  | _ => false
  end.

Definition resume (s : Session) (i : nat) (nodeId : string) (k : Proc) : Session :=
  let '(t, p) := advance k (tree s) in
  mkSession t (<[i := (nodeId, p)]> (calls s)).

(** One turn of the event loop; a click runs [toggleNode] of the latest
    render. *)
Definition step (s : Session) (e : Event) : Session :=
  match e with
  | Toggle nodeId =>
      let '(t, p) := advance (toggleNode (tree s) nodeId) (tree s) in
      mkSession t (if waiting p then calls s ++ [(nodeId, p)] else calls s)%list
  | ProjectsArrive i res =>
      match calls s !! i with
      | Some (nodeId, FetchProjects _ k) => resume s i nodeId (k res)
      | _ => s
      end
  | ContentsArrive i res =>
      match calls s !! i with
      | Some (nodeId, FetchContents _ k) => resume s i nodeId (k res)
      | _ => s
      end
  | VersionsArrive i res =>
      match calls s !! i with
      | Some (nodeId, FetchVersions _ k) => resume s i nodeId (k res)
      | _ => s
      end
  | ViewsArrive i res =>
      match calls s !! i with
      | Some (nodeId, FetchViews _ k) => resume s i nodeId (k res)
      | _ => s
      end
  end.

Definition steps (s : Session) (es : list Event) : Session := foldl step s es.

(** The fetches of the children of [nodeId] that have been sent and not
    yet answered. *)
Definition outstanding (s : Session) (nodeId : string) : nat :=
  length (List.filter (fun c => String.eqb (fst c) nodeId && waiting (snd c)) (calls s)).

(** The number of fetches a call of [toggleNode] sends. *)
Definition fetchesSent (t : list TreeNode) (nodeId : string) : nat :=
  if waiting (snd (advance (toggleNode t nodeId) t)) then 1 else 0.

End Component.

(** A session on the sample forest, in region US, with names compared
    as strings of bytes. *)
Definition sampleSession : Session := mkSession sampleForest [].

Definition sampleStep : Session -> Event -> Session := step "US" String.compare.

Definition sampleSteps : Session -> list Event -> Session := steps "US" String.compare.

(** The answer of the projects route for a hub without projects. *)
Definition noProjects : Resp (list Project) := mkResp true 200 [].

End Sidebar.

(** ** The rest of the page: selection, list view, preferences *)

Module Page.
Import JsString Merge Poller.

(** [n.toString()] for an integer. *)
Definition showZ (n : Z) : string :=
  DecimalString.NilZero.string_of_int (Z.to_int n).

(** [[...l].sort(compare)] for a comparison that orders consistently:
    the sorted arrangement that keeps equal elements in their order,
    built by insertion from the right. *)
Section Sort.
Context {A : Type} (compare : A -> A -> comparison).

Fixpoint insertSorted (x : A) (sorted : list A) : list A :=
  match sorted with
  | [] => [x]
  | y :: rest =>
      match compare x y with
      | Gt => y :: insertSorted x rest
      | _ => x :: sorted
      end
  end.

Definition sort (l : list A) : list A := fold_right insertSorted [] l.

End Sort.

Inductive SortKey := ByName | ByObjectid.

(** The hooks of [Home] beside those of the poll. *)
Record PageState := mkPage {
  home : HomeState;
  searchQuery : string;
  sortKey : SortKey;
  selectedObject : option PropertiesDataCollection;
  showSidebar : bool;
  viewType : string
}.

Definition initialPage : PageState :=
  mkPage initialHome "" ByName None true "tree".

Definition setHome (h : HomeState) (p : PageState) : PageState :=
  mkPage h (searchQuery p) (sortKey p) (selectedObject p) (showSidebar p) (viewType p).

Definition setRegion (r : string) (h : HomeState) : HomeState :=
  mkHome r (isLoading h) (selectedVersionId h) (properties h) (objectTree h) (error h).

Definition setViewType (v : string) (p : PageState) : PageState :=
  mkPage (home p) (searchQuery p) (sortKey p) (selectedObject p) (showSidebar p) v.

(** [handleObjectSelect]: [properties.find] gives the first record with
    the id; without one nothing is set. *)
Definition handleObjectSelect (objectId : Z) (p : PageState) : PageState :=
  match List.find (fun item => Z.eqb (p_objectid item) objectId) (properties (home p)) with
  | Some object =>
      mkPage (home p) (searchQuery p) (sortKey p) (Some object) true (viewType p)
  | None => p
  end.

Section ListView.

(** [s.toLowerCase()] and [a.localeCompare(b)] of the runtime. *)
Variable toLowerCase : string -> string.
Variable localeCompare : string -> string -> comparison.

(** The callback of [properties.filter] in [filteredSortedData]. *)
Definition matchesQuery (query : string) (item : PropertiesDataCollection) : bool :=
  includes (toLowerCase (p_name item)) (toLowerCase query)
  || includes (showZ (p_objectid item)) query.

(** The comparison of the [sort] in [filteredSortedData]; the numeric
    one is the sign of [a.objectid - b.objectid]. *)
Definition compareItems (key : SortKey) (a b : PropertiesDataCollection) : comparison :=
  match key with
  | ByName => localeCompare (p_name a) (p_name b)
  | ByObjectid => Z.compare (p_objectid a) (p_objectid b)
  end.

Definition filteredSortedData (p : PageState) : list PropertiesDataCollection :=
  sort (compareItems (sortKey p))
    (List.filter (matchesQuery (searchQuery p)) (properties (home p))).

End ListView.

(** *** Preferences in [localStorage] *)

(** [handleServerChange] and [handleViewChange], with the storage. *)
Definition handleServerChange (value : string) (st : PageState * gmap string string)
  : PageState * gmap string string :=
  (setHome (setRegion value (home (fst st))) (fst st),
   <["preferredRegion" := value]> (snd st)).

Definition handleViewChange (value : string) (st : PageState * gmap string string)
  : PageState * gmap string string :=
  (setViewType value (fst st), <["preferredViewType" := value]> (snd st)).

(** [if (stored) set(stored)]: an empty string counts as none. *)
Definition stored (ls : gmap string string) (key : string) : option string :=
  match ls !! key with
  | Some v => if String.eqb v "" then None else Some v
  | None => None
  end.

(** The effect that runs when the page is mounted. *)
Definition mountEffect (st : PageState * gmap string string)
  : PageState * gmap string string :=
  let p1 := match stored (snd st) "preferredRegion" with
            | Some storedRegion => setHome (setRegion storedRegion (home (fst st))) (fst st)
            | None => fst st
            end in
  let p2 := match stored (snd st) "preferredViewType" with
            | Some storedView => setViewType storedView p1
            | None => p1
            end in
  (p2, snd st).

(** *** Measures of a poll *)

(** The time a run has spent in its waits, in ms. *)
Definition waited (r : Run) : Z :=
  fold_right (fun e acc => match e with ESleep ms => (ms + acc)%Z | EFetch _ => acc end)
    0%Z (trace r).

(** A server that fails at its third answer. *)
Definition failsAfterTwo : nat -> FetchResponse :=
  fun n => if (n <? 2)%nat then stillProcessing else serverError.

End Page.

(** ** The rest of the sidebar: first load, clicks, and what a call
       of [toggleNode] asks for *)

Module Navigation.
Import JsString Sidebar.

Record Hub := mkHub {
  hub_id : string; hub_name : string; hub_region : string; hub_type : string }.

(** The node [fetchHubs] makes of a hub. *)
Definition hubNode (hub : Hub) : TreeNode :=
  {| id := "hub|" ++ hub_id hub; name := hub_name hub; type := THub;
     children := Some []; isOpen := Some false; isLoading := None; parent := None |}.

(** [fetchHubs] from the answer on: the [tree] hook and the [loading]
    hook after it.  An answer that is not ok throws into the [catch],
    which only logs. *)
Definition fetchHubs (localeCompare : string -> string -> comparison)
  (response : Resp (list Hub)) (tree : list TreeNode) : list TreeNode * bool :=
  if ok response
  then (sortNodesByName localeCompare (map hubNode (json response)), false)
  else (tree, false).

(** What a click on a row does. *)
Inductive Click :=
| ViewSelected (type viewGuid itemUrn : string)
| Toggled (nodeId : string).

(** [handleNodeClick]; [onViewSelected] is [handleModelViewSelect]. *)
Definition handleNodeClick (node : TreeNode) : Click :=
  match type node with
  | TView =>
      let parts := split (id node) "|" in
      ViewSelected (part parts 0) (part parts 1)
        (match parent node with Some urn => urn | None => "" end)
  | _ => Toggled (id node)
  end.

(** The node [toggleNode] makes of a view. *)
Definition viewNode (v : View) : TreeNode :=
  {| id := "view|" ++ view_guid v; name := view_name v; type := TView;
     children := None; isOpen := None; isLoading := None; parent := Some (view_urn v) |}.

(** The request a suspended call waits for. *)
Inductive Request :=
| ReqProjects (url : string)
| ReqContents (url : string)
| ReqVersions (url : string)
| ReqViews (url : string).

Definition requestOf (p : Proc) : option Request :=
  match p with
  | FetchProjects url _ => Some (ReqProjects url)
  | FetchContents url _ => Some (ReqContents url)
  | FetchVersions url _ => Some (ReqVersions url)
  | FetchViews url _ => Some (ReqViews url)
  | _ => None
  end.

(** What the nodes that can be expanded stand for. *)
Inductive NodeKey :=
| KHub (hubId : string)
| KProject (hubId projectId : string)
| KFolder (hubId projectId folderId : string)
| KItem (hubId projectId itemId : string)
| KVersion (versionId : string).

(** The id that [fetchHubs] and [toggleNode] give the node of a key. *)
Definition keyId (key : NodeKey) : string :=
  match key with
  | KHub h => "hub|" ++ h
  | KProject h p => "project|" ++ h ++ "|" ++ p
  | KFolder h p f => "folder|" ++ h ++ "|" ++ p ++ "|" ++ f
  | KItem h p i => "item|" ++ h ++ "|" ++ p ++ "|" ++ i
  | KVersion v => "version|" ++ v
  end.

(** The route that lists what is below a key. *)
Definition keyRequest (region : string) (key : NodeKey) : Request :=
  match key with
  | KHub h => ReqProjects ("/api/hubs/" ++ h ++ "/projects")
  | KProject h p => ReqContents ("/api/hubs/" ++ h ++ "/projects/" ++ p ++ "/contents")
  | KFolder h p f =>
      ReqContents ("/api/hubs/" ++ h ++ "/projects/" ++ p ++ "/contents?folder_id=" ++ f)
  | KItem h p i =>
      ReqVersions ("/api/hubs/" ++ h ++ "/projects/" ++ p ++ "/contents/" ++ i ++ "/versions")
  | KVersion v =>
      ReqViews ("/api/modelDerivate/" ++ region ++ "/" ++ Encoding.encode (btoa v) ++ "/views")
  end.

(** A string without ["|"], and a key made of such strings. *)
Definition noPipe (s : string) : Prop := Forall (fun c => c <> "|"%char) (chars s).

Definition pipeFree (key : NodeKey) : Prop :=
  match key with
  | KHub h => noPipe h
  | KProject h p => noPipe h /\ noPipe p
  | KFolder h p f => noPipe h /\ noPipe p /\ noPipe f
  | KItem h p i => noPipe h /\ noPipe p /\ noPipe i
  | KVersion v => noPipe v
  end.

(** The call an answer is for, and whether the answer is ok and its
    status. *)
Definition eventIndex (e : Event) : option nat :=
  match e with
  | Toggle _ => None
  | ProjectsArrive i _ | ContentsArrive i _ | VersionsArrive i _ | ViewsArrive i _ => Some i
  end.

Definition eventOk (e : Event) : bool :=
  match e with
  | Toggle _ => false
  | ProjectsArrive _ res => ok res
  | ContentsArrive _ res => ok res
  | VersionsArrive _ res => ok res
  | ViewsArrive _ res => ok res
  end.

(** An answer of the kind a suspended call waits for. *)
Definition answers (p : Proc) (e : Event) : bool :=
  match p, e with
  | FetchProjects _ _, ProjectsArrive _ _ => true
  | FetchContents _ _, ContentsArrive _ _ => true
  | FetchVersions _ _, VersionsArrive _ _ => true
  | FetchViews _ _, ViewsArrive _ _ => true
  | _, _ => false
  end.

(** A suspended call that, whatever answer it gets, sets the tree to
    [t0] with the node [nodeId] updated, loading off. *)
Definition settles (t0 : list TreeNode) (nodeId : string) (p : Proc) : Prop :=
  exists updates,
    p = SetTree (updateNode t0 nodeId updates) Done /\
    u_id updates = Absent /\ u_isLoading updates = Present (Some false).

Inductive AppliesTo (t0 : list TreeNode) (nodeId : string) : Proc -> Prop :=
| AppliesProjects url k :
    (forall res, settles t0 nodeId (k res)) -> AppliesTo t0 nodeId (FetchProjects url k)
| AppliesContents url k :
    (forall res, settles t0 nodeId (k res)) -> AppliesTo t0 nodeId (FetchContents url k)
| AppliesVersions url k :
    (forall res, settles t0 nodeId (k res)) -> AppliesTo t0 nodeId (FetchVersions url k)
| AppliesViews url k :
    (forall res, settles t0 nodeId (k res)) -> AppliesTo t0 nodeId (FetchViews url k).

(** The keys other than versions. *)
Definition notVersion (key : NodeKey) : Prop :=
  match key with KVersion _ => False | _ => True end.

(** A forest with one version that has not been opened, and the
    session after a click on it and after a click on the second hub of
    the sample forest. *)
Definition versionForest : list TreeNode :=
  [mkNode "version|urn:adsk.wipprod:fs.file:vf.1?version=1" "2024-05-01" TVersion
     None None None None].

Definition versionClicked : Session :=
  sampleStep (mkSession versionForest [])
    (Toggle "version|urn:adsk.wipprod:fs.file:vf.1?version=1").

Definition hubClicked : Session := sampleStep sampleSession (Toggle "hub|h2").

(** Two hubs, as the hubs route lists them. *)
Definition sampleHubs : list Hub :=
  [mkHub "b.2" "Beta" "US" "hubs:autodesk.bim360:Account";
   mkHub "b.1" "Alpha" "US" "hubs:autodesk.bim360:Account"].

End Navigation.

(** ** The views of a version: [getModelViews] and its route *)

Module Routes.
Import JsString Merge Sidebar.

(** [ModelViewsDataMetadata] of the SDK, as far as it is read. *)
Record ViewMetadata := mkViewMetadata {
  md_guid : option string;
  md_name : string;
  md_role : string
}.

(** [lib/services/aps.getModelViews]: [metadata] is the value of
    [resp.data.metadata], which may be missing; an entry without a
    [guid], or with an empty one, is left out. *)
Definition getModelViews
  (sdk : string -> string -> string -> Awaited (option (list ViewMetadata)))
  (versionUrn region accessToken : string) : Awaited (list View) :=
  match sdk versionUrn region accessToken with
  | Rejected e => Rejected e
  | Resolved metadata =>
      Resolved
        (flat_map (fun view =>
                     match md_guid view with
                     | Some guid =>
                         if String.eqb guid "" then []
                         else [mkView versionUrn guid (md_name view) (md_role view)]
                     | None => []
                     end)
           (match metadata with Some l => l | None => [] end))
  end.

Inductive ViewsResponse :=
| JsonViews (views : list View)
| JsonViewsError (error : string) (status : nat)
| ViewsHandlerRejects (error : string).

(** [GET] of [modelDerivate/[region]/[version_id]/views]; [tokens] is
    what awaiting [getAuthTokens()] gives, before the [try]. *)
Definition viewsGET (tokens : Awaited (option Tokens))
  (sdk : string -> string -> string -> Awaited (option (list ViewMetadata)))
  (region version_id : string) : ViewsResponse :=
  match tokens with
  | Rejected error => ViewsHandlerRejects error
  | Resolved None => JsonViewsError "Unauthorized" 401
  | Resolved (Some tokens) =>
      let decodedVersionId := Encoding.decode version_id in
      match getModelViews sdk decodedVersionId region (internalToken_access_token tokens) with
      | Resolved views => JsonViews views
      | Rejected _ => JsonViewsError "Failed to fetch views" 500
      end
  end.

(** The response the handler makes, as [fetch] shows it to the
    sidebar; the body of an error is not a list of views and is not
    read as one.  A handler that rejects makes none. *)
Definition asResp (r : ViewsResponse) : option (Resp (list View)) :=
  match r with
  | JsonViews views => Some (mkResp true 200 views)
  | JsonViewsError _ status => Some (mkResp false status [])
  | ViewsHandlerRejects _ => None
  end.

(** A gateway with tokens and a finished job. *)
Definition sampleGateway : Gateway :=
  mkGateway (Resolved (Some (mkTokens "token")))
    (fun _ _ _ _ => Resolved (mkAllProperties [doorRecord] false))
    (fun _ _ _ _ => Resolved wallTree).

End Routes.

(** ** Tokens: [lib/server/auth.getAuthTokens] *)

Module Auth.
Import Merge.

(** [SessionData], what [refreshTokens] resolves with; a string that
    is missing is the empty string here, both count as absent. *)
Record SessionData := mkSessionData {
  public_token : string;
  internal_token : string;
  refresh_token : string;
  expires_at : Z
}.

Record OAuthToken := mkOAuthToken { access_token : string; expires_in : Z }.

Inductive AuthResult :=
| AuthTokens (internalToken publicToken : OAuthToken)
| AuthNull
| AuthThrew.

(** A call of [cookieStore.set]: name, value and [maxAge]. *)
Record SetCookie := mkSetCookie { c_name : string; c_value : string; c_maxAge : Z }.

(** What a call of [getAuthTokens] gives and does: its result, the
    cookies after it, the [set] calls in order, and whether
    [refreshTokens] was called. *)
Record AuthRun := mkAuthRun {
  result : AuthResult;
  store : gmap string string;
  written : list SetCookie;
  refreshed : bool
}.

(** [cookieStore.get(name)?.value] as a condition: a cookie that is
    there and not empty. *)
Definition cookie (cookies : gmap string string) (name : string) : option string :=
  match cookies !! name with
  | Some v => if String.eqb v "" then None else Some v
  | None => None
  end.

(** [Math.round(ms / 1000)] for an integer [ms]: halves go up. *)
Definition roundSeconds (ms : Z) : Z := ((ms + 500) / 1000)%Z.

Definition day : Z := (60 * 60 * 24)%Z.

(** The four [set] calls after a refresh. *)
Definition refreshedCookies (tokens : SessionData) : list SetCookie :=
  [mkSetCookie "public_token" (public_token tokens) day;
   mkSetCookie "internal_token" (internal_token tokens) day;
   mkSetCookie "refresh_token" (refresh_token tokens) (day * 7);
   mkSetCookie "expires_at" (Page.showZ (expires_at tokens)) day].

Definition setAll (writes : list SetCookie) (cookies : gmap string string)
  : gmap string string :=
  foldl (fun m w => <[c_name w := c_value w]> m) cookies writes.

Section GetAuthTokens.

(** [parseInt] of the runtime ([None] for [NaN]), [refreshTokens], and
    the three readings of [Date.now()] that a call can make: at the
    expiry test, and for [expires_in] of the internal and of the public
    token. *)
Variable parseInt : string -> option Z.
Variable refreshTokens : string -> Awaited SessionData.
Variables nowTest nowInternal nowPublic : Z.

Definition getAuthTokens (cookies : gmap string string) : AuthRun :=
  match cookie cookies "refresh_token", cookie cookies "expires_at" with
  | Some refreshToken, Some expiresAt =>
      match parseInt expiresAt with
      | None => mkAuthRun AuthNull cookies [] false
      | Some expiresAtNum =>
          if (expiresAtNum <? nowTest)%Z then
            match refreshTokens refreshToken with
            | Rejected _ => mkAuthRun AuthNull cookies [] true
            | Resolved tokens =>
                if String.eqb (public_token tokens) ""
                   || String.eqb (internal_token tokens) ""
                   || String.eqb (refresh_token tokens) ""
                   || (expires_at tokens =? 0)%Z
                then mkAuthRun AuthNull cookies [] true
                else
                  mkAuthRun
                    (AuthTokens
                       (mkOAuthToken (internal_token tokens)
                          (roundSeconds (expires_at tokens - nowInternal)))
                       (mkOAuthToken (public_token tokens)
                          (roundSeconds (expires_at tokens - nowPublic))))
                    (setAll (refreshedCookies tokens) cookies)
                    (refreshedCookies tokens) true
            end
          else
            match cookies !! "internal_token", cookies !! "public_token" with
            | Some internal, Some public =>
                mkAuthRun
                  (AuthTokens
                     (mkOAuthToken internal (roundSeconds (expiresAtNum - nowInternal)))
                     (mkOAuthToken public (roundSeconds (expiresAtNum - nowPublic))))
                  cookies [] false
            | _, _ => mkAuthRun AuthThrew cookies [] false
            end
      end
  | _, _ => mkAuthRun AuthNull cookies [] false
  end.

End GetAuthTokens.

(** What a handler gets when it awaits the call: the tokens (it reads
    the internal one only), [null], or the rejection of a call that
    threw. *)
Definition awaited (r : AuthResult) : Awaited (option Tokens) :=
  match r with
  | AuthTokens internalToken _ => Resolved (Some (mkTokens (access_token internalToken)))
  | AuthNull => Resolved None
  | AuthThrew => Rejected "TypeError"
  end.

(** A reader of decimal numerals, to try things with. *)
Definition readDecimal (s : string) : option Z :=
  match DecimalString.NilZero.int_of_string s with
  | Some d => Some (Z.of_int d)
  | None => None
  end.

(** Cookies of a session that ran out at 1700000000000, and what a
    refresh then gives. *)
Definition staleCookies : gmap string string :=
  {[ "public_token" := "pub-0"; "internal_token" := "int-0";
     "refresh_token" := "ref-0"; "expires_at" := "1700000000000" ]}.

Definition freshSession : SessionData :=
  mkSessionData "pub-1" "int-1" "ref-1" 1700003600000.

End Auth.

(** ** The tree of objects: [components/objectsTree] *)

Module ObjectsTree.
Import JsString Merge.

(** [s.substring(0, n)] counted in characters. *)
Fixpoint take (n : nat) (s : string) : string :=
  match n, s with
  | S n', String c s' => String c (take n' s')
  | _, _ => EmptyString
  end.

(** [s.substring(a, b)]: the arguments are swapped when [a > b], and
    what is past the end is cut. *)
Definition substring (s : string) (a b : nat) : string :=
  take (Nat.max a b - Nat.min a b) (slice (Nat.min a b) s).

(** [s.indexOf(pat)], [None] for [-1]. *)
Fixpoint indexOf (s pat : string) : option nat :=
  if startsWith s pat then Some 0
  else match s with
       | EmptyString => None
       | String _ s' => option_map S (indexOf s' pat)
       end.

(** What [highlightMatch] returns: the text, or the text in three
    pieces with the middle one marked. *)
Inductive Highlighted :=
| Plain (text : string)
| Marked (before mark after : string).

Definition shownText (h : Highlighted) : string :=
  match h with
  | Plain text => text
  | Marked before mark after => before ++ mark ++ after
  end.

Section Search.

Variable toLowerCase : string -> string.
Variable searchQuery : string.

(** The two tests of [nodeMatches] on the node itself. *)
Definition selfMatches (node : ObjectTreeData) : bool :=
  includes (toLowerCase (name node)) (toLowerCase searchQuery)
  || includes (Page.showZ (objectid node)) searchQuery.

Fixpoint nodeMatches (node : ObjectTreeData) : bool :=
  if selfMatches node then true
  else match objects node with
       | Some [] => false
       | Some cs => existsb nodeMatches cs
       | None => false
       end.

(** [filteredData] of a [Tree]. *)
Definition filteredData (data : list ObjectTreeData) : list ObjectTreeData :=
  if String.eqb searchQuery "" then data else List.filter nodeMatches data.

(** The rows of a [Tree] in which every node with children is
    expanded, as after "Expand All": each node of [filteredData], and
    below it the rows of the [Tree] of its children. *)
Fixpoint rowsOf (node : ObjectTreeData) : list ObjectTreeData :=
  node :: match objects node with
          | Some cs =>
              flat_map (fun c => if String.eqb searchQuery "" || nodeMatches c
                                 then rowsOf c else []) cs
          | None => []
          end.

Definition rows (data : list ObjectTreeData) : list ObjectTreeData :=
  flat_map rowsOf (filteredData data).

Definition highlightMatch (text : string) : Highlighted :=
  if String.eqb searchQuery "" then Plain text
  else match indexOf (toLowerCase text) (toLowerCase searchQuery) with
       | None => Plain text
       | Some index =>
           Marked (substring text 0 index)
                  (substring text index (index + String.length searchQuery))
                  (slice (index + String.length searchQuery) text)
       end.

End Search.

(** Lower case for the letters A to Z, to try things with. *)
Definition asciiLower (s : string) : string :=
  string_of_list_ascii
    (map (fun c => let n := nat_of_ascii c in
                   if (65 <=? n)%nat && (n <=? 90)%nat then ascii_of_nat (n + 32) else c)
       (list_ascii_of_string s)).

(** A small model: a level with two walls, one of them with a door. *)
Definition houseTree : list ObjectTreeData :=
  [mkObject 1 "Level 1"
     (Some [mkObject 2 "Wall A" (Some [mkObject 4 "Door 12" None None]) None;
            mkObject 3 "Wall B" (Some []) None])
     None].

End ObjectsTree.

(** ** The list of panels: [app/components/propertiesList.tsx] *)

Module PropertiesList.

(** [ids.includes(id)]. *)
Definition includes (ids : list Z) (id : Z) : bool := existsb (Z.eqb id) ids.

(** The update [toggleExpand id] hands to [setExpandedIds]. *)
Definition toggleExpand (id : Z) (prev : list Z) : list Z :=
  if includes prev id then List.filter (fun x => negb (Z.eqb x id)) prev
  else (prev ++ [id])%list.

(** [expandedIds] after the panels with these ids were clicked, oldest
    click first, starting from the initial state [[]]. *)
Definition expandedIds (clicks : list Z) : list Z :=
  fold_left (fun prev id => toggleExpand id prev) clicks [].

End PropertiesList.

(** * Properties *)

(** ** Identifier encoding *)

Section EncodingFacts.
Import JsString Encoding.

Lemma eqb_slash_false (c : ascii) : c <> "/"%char -> Ascii.eqb "/" c = false.
Proof.
  intros Hc. destruct (Ascii.eqb_spec "/"%char c) as [E|E]; [congruence | reflexivity].
Qed.

Lemma encode_slash (s : string) :
  encode (String "/" s) = String "%" (String "2" (String "F" s)).
Proof. reflexivity. Qed.

Lemma encode_other (c : ascii) (s : string) :
  c <> "/"%char -> encode (String c s) = String c (encode s).
Proof.
  intros Hc. unfold encode. cbn [replace startsWith].
  rewrite (eqb_slash_false c Hc). reflexivity.
Qed.

Lemma decode_step (s : string) :
  decode s = if startsWith s "%2F" then String "/" (slice 3 s)
             else match s with
                  | EmptyString => EmptyString
                  | String c s' => String c (decode s')
                  end.
Proof. destruct s; reflexivity. Qed.

Lemma startsWith_split (s pat : string) :
  startsWith s pat = true -> s = pat ++ slice (String.length pat) s.
Proof.
  revert s. induction pat as [|p pat IH]; intros s H; [reflexivity|].
  destruct s as [|c s]; [discriminate|].
  cbn in H. apply andb_prop in H as [Hp Hs].
  apply Ascii.eqb_eq in Hp. subst c.
  change (String p s = String p (pat ++ slice (String.length pat) s)).
  f_equal. apply IH, Hs.
Qed.

(** Escaping the first slash does not create or destroy an occurrence
    of a plain pattern at the head of the string. *)
Lemma startsWith_encode (pat s : string) :
  plain pat -> pat <> EmptyString ->
  startsWith (encode s) pat = startsWith s pat.
Proof.
  revert s. induction pat as [|p pat IH]; intros s Hpl Hne; [congruence|].
  inversion Hpl as [|? ? [Hp1 Hp2] Hpl']; subst.
  destruct s as [|c s]; [reflexivity|].
  destruct (Ascii.eqb_spec c "/"%char) as [->|Hc].
  - rewrite encode_slash. cbn.
    destruct (Ascii.eqb_spec p "%"%char); [congruence|].
    destruct (Ascii.eqb_spec p "/"%char); [congruence|]. reflexivity.
  - rewrite (encode_other c s Hc). cbn.
    destruct pat as [|q pat]; [reflexivity|].
    rewrite IH; [reflexivity | exact Hpl' | discriminate].
Qed.

Lemma startsWith_beforeSlash (pat s : string) :
  plain pat -> pat <> EmptyString ->
  startsWith (beforeSlash s) pat = startsWith s pat.
Proof.
  revert s. induction pat as [|p pat IH]; intros s Hpl Hne; [congruence|].
  inversion Hpl as [|? ? [Hp1 Hp2] Hpl']; subst.
  destruct s as [|c s]; [reflexivity|].
  cbn [beforeSlash]. destruct (Ascii.eqb_spec c "/"%char) as [->|Hc].
  - cbn. destruct (Ascii.eqb_spec p "/"%char); [congruence|]. reflexivity.
  - cbn. destruct pat as [|q pat]; [reflexivity|].
    rewrite IH; [reflexivity | exact Hpl' | discriminate].
Qed.

Lemma plain_2F : plain "2F".
Proof. repeat constructor; discriminate. Qed.

(** An escape sequence at the head of the escaped string was already at
    the head of the string, before its first slash. *)
Lemma head_escape (c : ascii) (s : string) :
  c <> "/"%char ->
  startsWith (String c (encode s)) "%2F" = startsWith (String c (beforeSlash s)) "%2F".
Proof.
  intros Hc. cbn [startsWith].
  change (Ascii.eqb "%" c && startsWith (encode s) "2F"
          = Ascii.eqb "%" c && startsWith (beforeSlash s) "2F").
  rewrite startsWith_encode, startsWith_beforeSlash;
    [reflexivity | apply plain_2F | discriminate | apply plain_2F | discriminate].
Qed.

(** The round trip gives the identifier back exactly when no ["%2F"]
    stands before its first slash. *)
Lemma decode_encode_iff (urn : string) :
  decode (encode urn) = urn <-> includes (beforeSlash urn) "%2F" = false.
Proof.
  induction urn as [|c s IH]; [split; reflexivity|].
  destruct (Ascii.eqb_spec c "/"%char) as [->|Hc].
  - split; reflexivity.
  - rewrite (encode_other c s Hc), decode_step.
    assert (Hb : beforeSlash (String c s) = String c (beforeSlash s)).
    { cbn [beforeSlash]. destruct (Ascii.eqb_spec c "/"%char); [congruence | reflexivity]. }
    rewrite Hb. cbn [includes]. rewrite (head_escape c s Hc).
    destruct (startsWith (String c (beforeSlash s)) "%2F").
    + split; [|discriminate]. cbn. intros E. injection E as E1 _. congruence.
    + cbn [orb]. rewrite <- IH. split; [intros E; injection E; auto | intros ->; reflexivity].
Qed.

Lemma encode_decode_encode (urn : string) :
  encode (decode (encode urn)) = encode urn.
Proof.
  induction urn as [|c s IH]; [reflexivity|].
  destruct (Ascii.eqb_spec c "/"%char) as [->|Hc]; [reflexivity|].
  rewrite (encode_other c s Hc), decode_step.
  destruct (startsWith (String c (encode s)) "%2F") eqn:Hsw.
  - apply startsWith_split in Hsw.
    rewrite encode_slash. symmetry. exact Hsw.
  - rewrite (encode_other c _ Hc), IH. reflexivity.
Qed.

(** A string without ["%"] holds no escape sequence. *)
Lemma includes_no_percent (s : string) :
  Forall (fun c => c <> "%"%char) (chars s) -> includes s "%2F" = false.
Proof.
  induction s as [|c s IH]; intros H; [reflexivity|].
  inversion H as [|? ? Hc Hs]; subst. cbn [includes startsWith].
  destruct (Ascii.eqb_spec "%"%char c) as [E|E]; [congruence|].
  cbn. apply IH, Hs.
Qed.

Lemma chars_beforeSlash (P : ascii -> Prop) (s : string) :
  Forall P (chars s) -> Forall P (chars (beforeSlash s)).
Proof.
  induction s as [|c s IH]; intros H; [constructor|].
  inversion H; subst. cbn. destruct (Ascii.eqb c "/"); cbn; [constructor|].
  constructor; auto.
Qed.

Lemma digit_no_percent (n : nat) : digit n <> "%"%char.
Proof.
  unfold digit.
  assert (H : Forall (fun c => c <> "%"%char) (chars alphabet))
    by (cbv [alphabet chars]; repeat constructor; discriminate).
  destruct (nth_in_or_default n (chars alphabet) "="%char) as [Hin | Hd]; [|rewrite Hd; discriminate].
  rewrite Forall_forall in H. apply H. apply list_elem_of_In, Hin.
Qed.

Lemma btoa_no_percent (s : string) :
  Forall (fun c => c <> "%"%char) (chars (btoa s)).
Proof.
  remember (String.length s) as n eqn:Hn.
  revert s Hn. induction n as [n IH] using lt_wf_ind. intros s Hn.
  destruct s as [|a [|b [|c rest]]]; cbn [btoa chars].
  - constructor.
  - repeat constructor; try apply digit_no_percent; discriminate.
  - repeat constructor; try apply digit_no_percent; discriminate.
  - repeat (constructor; [apply digit_no_percent|]).
    apply (IH (String.length rest)); [subst n; cbn; lia | reflexivity].
Qed.

(** What [toggleNode] sends for a version comes back from the route
    handler as the base64 token itself. *)
Lemma version_token_round_trip (version : string) :
  decode (encode (btoa version)) = btoa version.
Proof.
  apply decode_encode_iff, includes_no_percent, chars_beforeSlash, btoa_no_percent.
Qed.

(** C5: the URNs that the program puts in a request path are the base64
    tokens [btoa version] of the version ids, with ["/"] in them or
    not.  For every one of them, decoding the encoded URN gives the URN
    back, and encoding that again gives the same encoded string; the
    second equation holds for every string [s] whatever. *)
Theorem identifier_round_trip (version s : string) :
  let urn := btoa version in
  decode (encode urn) = urn /\
  encode (decode (encode urn)) = encode urn /\
  encode (decode (encode s)) = encode s.
Proof.
  cbv zeta. split; [apply version_token_round_trip|].
  split; apply encode_decode_encode.
Qed.

(** A token with ["/"] in it, on its way to the handler and back. *)
Example token_with_slash :
  btoa "urn:A?A" = "dXJuOkE/QQ==" /\
  includes (btoa "urn:A?A") "/" = true /\
  encode (btoa "urn:A?A") = "dXJuOkE%2FQQ==" /\
  decode (encode (btoa "urn:A?A")) = btoa "urn:A?A".
Proof. repeat split; reflexivity. Qed.

(** No base64 token holds ["%"]; a string that does, with ["%2F"]
    before its first ["/"], is not given back. *)
Remark percent_string_not_restored :
  encode "%2F/" = "%2F%2F" /\ decode (encode "%2F/") = "/%2F".
Proof. split; reflexivity. Qed.

End EncodingFacts.

(** ** Merge engine *)

Section MergeFacts.
Import Merge.

(** Induction on a tree with the statement for all children at hand. *)
Lemma ObjectTreeData_tree_ind (P : ObjectTreeData -> Prop) :
  (forall i n os p,
      match os with Some cs => Forall P cs | None => True end ->
      P (mkObject i n os p)) ->
  forall t, P t.
Proof.
  intros H. fix IH 1. intros [i n os p]. apply H.
  destruct os as [cs|]; [|exact I].
  induction cs as [|c cs IHcs]; constructor.
  - apply IH.
  - exact IHcs.
Qed.

Lemma Forall2_flat_map {A B C D : Type} (R : C -> D -> Prop)
  (f : A -> list C) (g : B -> list D) (l : list A) (l' : list B) :
  Forall2 (fun a b => Forall2 R (f a) (g b)) l l' ->
  Forall2 R (flat_map f l) (flat_map g l').
Proof.
  induction 1; cbn; [constructor | apply Forall2_app; assumption].
Qed.

Lemma Forall2_map_self {A : Type} (R : A -> A -> Prop) (f : A -> A) (l : list A) :
  Forall (fun a => R a (f a)) l -> Forall2 R l (map f l).
Proof. induction 1; cbn; constructor; assumption. Qed.

Lemma attachNode_nodes (pm : gmap Z PropertiesDataCollection) (t : ObjectTreeData) :
  Forall2 (attached pm) (nodesOf t) (nodesOf (attachNode pm t)).
Proof.
  induction t as [i n os p IH] using ObjectTreeData_tree_ind.
  cbn [nodesOf attachNode objects]. constructor.
  - unfold attached; cbn. repeat split; try reflexivity.
    destruct os as [cs|]; cbn; [rewrite length_map|]; reflexivity.
  - destruct os as [cs|]; [|constructor].
    apply Forall2_flat_map.
    change (Forall2 (fun a b => Forall2 (attached pm) (nodesOf a) (nodesOf b))
              cs (map (attachNode pm) cs)).
    apply Forall2_map_self, IH.
Qed.

Lemma attachProperties_nodes (pm : gmap Z PropertiesDataCollection)
  (tree : list ObjectTreeData) :
  Forall2 (attached pm) (allNodes tree) (allNodes (attachProperties pm tree)).
Proof.
  apply Forall2_flat_map.
  change (Forall2 (fun a b => Forall2 (attached pm) (nodesOf a) (nodesOf b))
            tree (map (attachNode pm) tree)).
  apply Forall2_map_self, Forall_forall. intros t _. apply attachNode_nodes.
Qed.

Lemma Forall2_and_Forall_l {A B : Type} (R S : A -> B -> Prop) (Q : A -> Prop)
  (l : list A) (l' : list B) :
  (forall a b, Q a -> R a b -> S a b) ->
  Forall Q l -> Forall2 R l l' -> Forall2 S l l'.
Proof.
  intros HRS HQ HR. induction HR; inversion HQ; subst; constructor; auto.
Qed.

(** *** The map of records *)

Lemma set_all_lookup_other (k : Z) (props : list PropertiesDataCollection)
  (m : gmap Z PropertiesDataCollection) :
  (forall r, r ∈ props -> p_objectid r <> k) ->
  foldl (fun m prop => <[p_objectid prop := prop]> m) m props !! k = m !! k.
Proof.
  revert m. induction props as [|r props IH]; intros m H; [reflexivity|].
  cbn [foldl]. rewrite IH.
  - apply lookup_insert_ne, H. left.
  - intros r' Hr'. apply H. right. exact Hr'.
Qed.

Lemma set_all_is_Some (k : Z) (props : list PropertiesDataCollection)
  (m : gmap Z PropertiesDataCollection) :
  is_Some (foldl (fun m prop => <[p_objectid prop := prop]> m) m props !! k)
  <-> is_Some (m !! k) \/ exists r, r ∈ props /\ p_objectid r = k.
Proof.
  revert m. induction props as [|r props IH]; intros m; cbn [foldl].
  - split; [auto|]. intros [H|(r & Hr & _)]; [exact H|]. inversion Hr.
  - rewrite IH. split.
    + intros [H|(r' & Hr' & E)].
      * destruct (decide (p_objectid r = k)) as [E|E].
        -- right. exists r. split; [left | exact E].
        -- rewrite lookup_insert_ne in H by exact E. left. exact H.
      * right. exists r'. split; [right; exact Hr' | exact E].
    + intros [H|(r' & Hr' & E)].
      * left. destruct (decide (p_objectid r = k)) as [E|E].
        -- subst k. rewrite lookup_insert_eq. eauto.
        -- rewrite lookup_insert_ne by exact E. exact H.
      * apply elem_of_cons in Hr' as [Hr'|Hr'].
        -- left. subst r' k. rewrite lookup_insert_eq. eauto.
        -- right. exists r'. split; assumption.
Qed.

(** The map has an id exactly when some record of the collection has it. *)
Lemma propertiesMap_is_Some (k : Z) (props : list PropertiesDataCollection) :
  is_Some (propertiesMap props !! k) <-> exists r, r ∈ props /\ p_objectid r = k.
Proof.
  unfold propertiesMap. rewrite set_all_is_Some, lookup_empty. split.
  - intros [[x Hx]|H]; [discriminate | exact H].
  - auto.
Qed.

(** The map holds, for an id, the last record of the collection with it. *)
Lemma propertiesMap_last (before after : list PropertiesDataCollection)
  (B : PropertiesDataCollection) :
  (forall r, r ∈ after -> p_objectid r <> p_objectid B) ->
  propertiesMap (before ++ B :: after) !! p_objectid B = Some B.
Proof.
  intros H. unfold propertiesMap. rewrite foldl_app. cbn [foldl].
  rewrite set_all_lookup_other by exact H. apply lookup_insert_eq.
Qed.

(** *** The claims on the merge *)

(** C1: for every object tree [T] as [getObjectTree] gives it and every
    collection [P], the merge keeps the nodes of [T] in place (same ids,
    names and numbers of children, in the same order) and a node of the
    result, at any depth and whatever its ancestors matched, has
    [properties] if and only if some record of [P] has its [objectid];
    the others keep [properties] absent. *)
Theorem merge_attaches_iff (T : list ObjectTreeData) (P : list PropertiesDataCollection) :
  bare T ->
  Forall2 (fun n n' =>
             objectid n' = objectid n /\ name n' = name n /\
             option_map (@length ObjectTreeData) (objects n')
               = option_map (@length ObjectTreeData) (objects n) /\
             (is_Some (properties n') <-> exists r, r ∈ P /\ p_objectid r = objectid n) /\
             ((forall r, r ∈ P -> p_objectid r <> objectid n) -> properties n' = None))
          (allNodes T) (allNodes (merge T P)).
Proof.
  intros Hbare. unfold merge.
  eapply Forall2_and_Forall_l; [| exact Hbare | apply attachProperties_nodes].
  cbn beta. intros n n' Hn (Hid & Hname & Hlen & Hprops).
  repeat (split; [assumption|]).
  rewrite Hprops, Hn. pose proof (propertiesMap_is_Some (objectid n) P) as Hiff.
  destruct (propertiesMap P !! objectid n) as [property|].
  - split.
    + split; [intros _; apply Hiff; eauto | eauto].
    + intros Hno. destruct Hiff as [Hex _].
      destruct Hex as (r & Hr & E); [eauto|]. destruct (Hno r Hr E).
  - split; [|reflexivity].
    split; [intros [x Hx]; discriminate|].
    intros Hex. apply Hiff in Hex. destruct Hex as [x Hx]. discriminate.
Qed.

Lemma merge_attaches_iff_witness :
  bare wallTree /\
  Forall2 (fun n n' =>
             objectid n' = objectid n /\ name n' = name n /\
             option_map (@length ObjectTreeData) (objects n')
               = option_map (@length ObjectTreeData) (objects n) /\
             (is_Some (properties n') <->
              exists r, r ∈ [doorRecord] /\ p_objectid r = objectid n) /\
             ((forall r, r ∈ [doorRecord] -> p_objectid r <> objectid n) ->
              properties n' = None))
          (allNodes wallTree) (allNodes (merge wallTree [doorRecord])).
Proof.
  assert (H : bare wallTree) by (repeat constructor).
  split; [exact H | exact (merge_attaches_iff wallTree [doorRecord] H)].
Defined.

(** The example of the specification: the door gains its properties,
    the wall above it stays without. *)
Example merge_wall_door :
  merge wallTree [doorRecord]
  = [mkObject 1 "Wall"
       (Some [mkObject 2 "Door" None (Some {[ "Dims" := {[ "Width" := "36" ]} ]})])
       None].
Proof. vm_compute. reflexivity. Qed.

(** C2: when several records of the collection have one [objectid],
    the node with that id carries the properties of the last of them. *)
Theorem merge_last_write_wins (T : list ObjectTreeData)
  (before after : list PropertiesDataCollection) (B : PropertiesDataCollection) :
  (forall r, r ∈ after -> p_objectid r <> p_objectid B) ->
  Forall2 (fun n n' =>
             objectid n = p_objectid B -> properties n' = Some (p_properties B))
          (allNodes T) (allNodes (merge T (before ++ B :: after))).
Proof.
  intros Hlast. unfold merge.
  eapply Forall2_impl; [apply attachProperties_nodes|].
  cbn beta. intros n n' (_ & _ & _ & Hprops) Hid.
  rewrite Hprops, Hid, (propertiesMap_last before after B Hlast). reflexivity.
Qed.

Lemma merge_last_write_wins_witness :
  (forall r, r ∈ [doorRecord] -> p_objectid r <> p_objectid recordB) /\
  Forall2 (fun n n' =>
             objectid n = p_objectid recordB -> properties n' = Some (p_properties recordB))
          (allNodes [mkObject 5 "Pipe" None None])
          (allNodes (merge [mkObject 5 "Pipe" None None]
                       ([recordA] ++ recordB :: [doorRecord]))).
Proof.
  assert (H : forall r, r ∈ [doorRecord] -> p_objectid r <> p_objectid recordB)
    by (intros r Hr; apply list_elem_of_singleton in Hr; subst r; discriminate).
  split; [exact H |].
  exact (merge_last_write_wins [mkObject 5 "Pipe" None None] [recordA] [doorRecord] recordB H).
Defined.

(** The example of the specification for two records of id 5. *)
Example merge_A_then_B :
  merge [mkObject 5 "Pipe" None None] [recordA; recordB]
  = [mkObject 5 "Pipe" None (Some (p_properties recordB))].
Proof. vm_compute. reflexivity. Qed.

(** The handler answers a finished job with the collection and the
    merge of the tree with it. *)
Lemma GET_ready (gw : Gateway) (region version_id view_guid : string)
  (tokens : Tokens) (allProperties : AllProperties) (objectTree : list ObjectTreeData) :
  getAuthTokens gw = Resolved (Some tokens) ->
  getAllProperties gw (Encoding.decode version_id) view_guid region
    (internalToken_access_token tokens) = Resolved allProperties ->
  ap_isProcessing allProperties = false ->
  getObjectTree gw (Encoding.decode version_id) view_guid region
    (internalToken_access_token tokens) = Resolved objectTree ->
  fst (GET gw region version_id view_guid)
  = JsonRes (mkRes false (ap_properties allProperties)
               (merge objectTree (ap_properties allProperties))).
Proof.
  intros Ht Hp Hdone Ho. unfold GET. rewrite Ht, Hp, Hdone. cbn [negb].
  rewrite Ho. reflexivity.
Qed.

(** C8: a request to the handler calls [getObjectTree] at most once, and
    calls it exactly when [getAllProperties] has answered that
    processing is over. *)
Theorem object_tree_only_when_ready (gw : Gateway) (region version_id view_guid : string) :
  let calls := snd (GET gw region version_id view_guid) in
  let treeCalls := length (List.filter isGetObjectTree calls) in
  treeCalls <= 1 /\
  (treeCalls = 1 <->
   exists tokens allProperties,
     getAuthTokens gw = Resolved (Some tokens) /\
     getAllProperties gw (Encoding.decode version_id) view_guid region
       (internalToken_access_token tokens) = Resolved allProperties /\
     ap_isProcessing allProperties = false).
Proof.
  unfold GET.
  destruct (getAuthTokens gw) as [[tokens|]|error] eqn:Ht.
  2:{ cbn. split; [lia|]. split; [discriminate|]. intros (t & a & E & _). discriminate. }
  2:{ cbn. split; [lia|]. split; [discriminate|]. intros (t & a & E & _). discriminate. }
  destruct (getAllProperties gw _ _ _ _) as [allProperties|err] eqn:Hp.
  2:{ cbn. split; [lia|]. split; [discriminate|].
      intros (t & a & E & Ea & _). injection E as <-. congruence. }
  destruct (ap_isProcessing allProperties) eqn:Hproc; cbn [negb].
  - cbn. split; [lia|]. split; [discriminate|].
    intros (t & a & E & Ea & Hf). injection E as <-. congruence.
  - assert (Hex : exists tokens0 allProperties0,
               Resolved (Some tokens) = Resolved (Some tokens0) /\
               getAllProperties gw (Encoding.decode version_id) view_guid region
                 (internalToken_access_token tokens0) = Resolved allProperties0 /\
               ap_isProcessing allProperties0 = false) by eauto.
    destruct (getObjectTree gw _ _ _ _); cbn; (split; [lia|]); split; auto.
Qed.

End MergeFacts.

(** ** Readiness poller *)

Section PollerFacts.
Import Merge Poller.

Lemma pollLoop_fetch (url : string) (fuel attempts : nat) :
  attempts < maxAttempts ->
  pollLoop url (S fuel) attempts =
  Fetch url (fun fetched =>
    match fetched with
    | FetchRejects reason => catchBlock reason
    | Answers res =>
        if negb (ok res) then catchBlock (ErrorOf (failedMessage res))
        else
          if negb (isProcessing (json res)) then
            SetState (setProperties (res_properties (json res)))
              (SetState (setObjectTree (objectTreeWithProperties (json res)))
                 (SetState (setLoading false) Done))
          else Sleep 1000 (pollLoop url fuel (S attempts))
    | BodyRejects res reason =>
        if negb (ok res) then catchBlock (ErrorOf (failedMessage res))
        else catchBlock reason
    end).
Proof.
  intros H. cbn [pollLoop]. rewrite (proj2 (Nat.ltb_lt _ _) H). reflexivity.
Qed.

Lemma pollLoop_exhausted (url : string) (fuel attempts : nat) :
  maxAttempts <= attempts ->
  pollLoop url (S fuel) attempts = catchBlock (ErrorOf timeoutMessage).
Proof.
  intros H. cbn [pollLoop]. rewrite (proj2 (Nat.ltb_ge _ _) H). reflexivity.
Qed.

Lemma requests_rounds (url : string) (k : nat) (rest : list Effect) :
  length (List.filter isFetch (rounds url k ++ rest))
  = k + length (List.filter isFetch rest).
Proof.
  unfold rounds. induction k as [|k IH]; [reflexivity|].
  cbn [repeat concat]. cbn. rewrite IH. reflexivity.
Qed.

Lemma requests_rounds_only (url : string) (k : nat) :
  length (List.filter isFetch (rounds url k)) = k.
Proof.
  rewrite <- (app_nil_r (rounds url k)), requests_rounds. cbn. lia.
Qed.

Lemma continues_answering (server : nat -> FetchResponse) (i : nat) :
  processing (server i) -> continues (answering server i).
Proof. intros H. exists (server i). split; [reflexivity | exact H]. Qed.

(** [j] turns that go on are [j] rounds of request and wait, and the
    loop is then where it would be with [j] attempts more behind it. *)
Lemma pollLoop_rounds (url : string) (server : nat -> Fetched) (j : nat) :
  forall fuel attempts n h,
    attempts + j <= maxAttempts ->
    (forall i, i < j -> continues (server (n + i))) ->
    run (pollLoop url (j + fuel) attempts) server n h
    = mkRun (final (run (pollLoop url fuel (attempts + j)) server (n + j) h))
            (rounds url j ++ trace (run (pollLoop url fuel (attempts + j)) server (n + j) h))
            (finished (run (pollLoop url fuel (attempts + j)) server (n + j) h)).
Proof.
  induction j as [|j IH]; intros fuel attempts n h Hle Hgo.
  - rewrite !Nat.add_0_r. cbn [Nat.add rounds repeat concat app].
    destruct (run _ _ _ _); reflexivity.
  - cbn [Nat.add]. rewrite pollLoop_fetch by lia. cbn [run].
    destruct (Hgo 0 ltac:(lia)) as (res & Hres & Hok & Hproc).
    rewrite Nat.add_0_r in Hres. rewrite Hres, Hok, Hproc. cbn [negb run].
    rewrite (IH fuel (S attempts) (S n) h).
    + replace (S attempts + j) with (attempts + S j) by lia.
      replace (S n + j) with (n + S j) by lia. reflexivity.
    + lia.
    + intros i Hi. replace (S n + i) with (n + S i) by lia. apply Hgo. lia.
Qed.

(** The loop, entered when [j] more processing answers and then a
    complete one are to come. *)
Lemma pollLoop_success (url : string) (server : nat -> Fetched) (j : nat) :
  forall fuel attempts n h res,
    attempts + j < maxAttempts -> j < fuel ->
    (forall i, i < j -> continues (server (n + i))) ->
    server (n + j) = Answers res -> ready res ->
    run (pollLoop url fuel attempts) server n h
    = mkRun (setLoading false
               (setObjectTree (objectTreeWithProperties (json res))
                  (setProperties (res_properties (json res)) h)))
            (rounds url j ++ [EFetch url]) true.
Proof.
  intros fuel attempts n h res Hlt Hfuel Hgo Hres [Hok Hdone].
  replace fuel with (j + S (fuel - S j)) by lia.
  rewrite pollLoop_rounds by (try exact Hgo; lia).
  rewrite pollLoop_fetch by lia. cbn [run]. rewrite Hres, Hok, Hdone. reflexivity.
Qed.

(** The loop, entered when processing answers are to come for all the
    [j] attempts it has left. *)
Lemma pollLoop_timeout (url : string) (server : nat -> Fetched) (j : nat) :
  forall fuel attempts n h,
    attempts + j = maxAttempts -> j < fuel ->
    (forall i, i < j -> continues (server (n + i))) ->
    run (pollLoop url fuel attempts) server n h
    = mkRun (setLoading false (setError (Some timeoutMessage) h)) (rounds url j) true.
Proof.
  intros fuel attempts n h Hlt Hfuel Hgo.
  replace fuel with (j + S (fuel - S j)) by lia.
  rewrite pollLoop_rounds by (try exact Hgo; lia).
  rewrite pollLoop_exhausted by lia. cbn. rewrite app_nil_r. reflexivity.
Qed.

(** The loop never runs out of the unfoldings the function gives it. *)
Lemma pollLoop_finishes (url : string) (server : nat -> Fetched) :
  forall fuel attempts n h,
    maxAttempts - attempts < fuel ->
    finished (run (pollLoop url fuel attempts) server n h) = true.
Proof.
  induction fuel as [|fuel IH]; intros attempts n h Hfuel; [lia|].
  destruct (Nat.ltb_spec attempts maxAttempts) as [Hlt|Hge].
  - rewrite pollLoop_fetch by exact Hlt. cbn [run after finished].
    destruct (server n) as [reason|res|res reason]; [reflexivity| |].
    + destruct (ok res); [|reflexivity].
      destruct (isProcessing (json res)); [|reflexivity].
      cbn [negb run after finished]. apply IH. lia.
    + destruct (ok res); reflexivity.
  - rewrite pollLoop_exhausted by exact Hge. reflexivity.
Qed.

Lemma run_handleModelViewSelect (server : nat -> Fetched) (h : HomeState)
  (type viewGuid itemUrn : string) :
  run (handleModelViewSelect (region h) type viewGuid itemUrn) server 0 h
  = run (pollLoop (pollUrl (region h) (Encoding.encode itemUrn) viewGuid)
           (S maxAttempts) 0)
        server 0
        (setSelectedVersionId (Some (Encoding.encode itemUrn))
           (setError None (setLoading true h))).
Proof. reflexivity. Qed.

(** C3: for every [k] from 0 to 149, if the endpoint answers "still
    processing" to the first [k] requests and then answers with the
    data, the poll ends, stores the properties and the tree of that
    answer, with loading off and no error, and has sent exactly [k + 1]
    requests with a wait of 1000 ms after each but the last; how
    requests after these would have gone does not matter. *)
Theorem poll_success (k : nat) (server : nat -> Fetched) (res : FetchResponse)
  (h : HomeState) (type viewGuid itemUrn : string) :
  k <= 149 ->
  (forall i, i < k -> continues (server i)) ->
  server k = Answers res ->
  ready res ->
  let url := pollUrl (region h) (Encoding.encode itemUrn) viewGuid in
  let r := run (handleModelViewSelect (region h) type viewGuid itemUrn) server 0 h in
  finished r = true /\
  properties (final r) = res_properties (json res) /\
  objectTree (final r) = objectTreeWithProperties (json res) /\
  isLoading (final r) = false /\
  error (final r) = None /\
  selectedVersionId (final r) = Some (Encoding.encode itemUrn) /\
  trace r = (rounds url k ++ [EFetch url])%list /\
  requests r = k + 1.
Proof.
  intros Hk Hproc Hres Hready url r. subst r.
  rewrite run_handleModelViewSelect.
  rewrite (pollLoop_success _ server k (S maxAttempts) 0 0 _ res); cbn [Nat.add].
  - unfold requests. cbn [final trace finished]. rewrite requests_rounds.
    repeat split; reflexivity.
  - unfold maxAttempts. lia.
  - unfold maxAttempts. lia.
  - exact Hproc.
  - exact Hres.
  - exact Hready.
Qed.

Lemma poll_success_witness :
  let server := answering doneAfterTwo in
  let res := doneAfterTwo 2 in
  2 <= 149 /\
  (forall i, i < 2 -> continues (server i)) /\
  server 2 = Answers res /\
  ready res /\
  let url := pollUrl (region initialHome) (Encoding.encode "dXJuOkE/QQ") "guid-A" in
  let r := run (handleModelViewSelect (region initialHome) "view" "guid-A" "dXJuOkE/QQ")
             server 0 initialHome in
  finished r = true /\
  properties (final r) = res_properties (json res) /\
  objectTree (final r) = objectTreeWithProperties (json res) /\
  isLoading (final r) = false /\
  error (final r) = None /\
  selectedVersionId (final r) = Some (Encoding.encode "dXJuOkE/QQ") /\
  trace r = (rounds url 2 ++ [EFetch url])%list /\
  requests r = 2 + 1.
Proof.
  intros server res.
  assert (H1 : 2 <= 149) by lia.
  assert (H2 : forall i, i < 2 -> continues (server i)).
  { intros i Hi. apply continues_answering.
    destruct i as [|[|i]]; [split; reflexivity | split; reflexivity | lia]. }
  assert (H3 : server 2 = Answers res) by reflexivity.
  assert (H4 : ready res) by (split; reflexivity).
  split; [exact H1|]. split; [exact H2|]. split; [exact H3|]. split; [exact H4|].
  exact (poll_success 2 server res initialHome "view" "guid-A" "dXJuOkE/QQ" H1 H2 H3 H4).
Defined.

(** C4: if the endpoint answers "still processing" to 150 requests in a
    row, the poll sends exactly those 150 requests and ends in its
    [catch] block with the timeout message as the error state and
    loading off; the page then shows the error panel, and its Dismiss
    button clears it. *)
Theorem poll_timeout (server : nat -> Fetched) (h : HomeState)
  (type viewGuid itemUrn : string) :
  (forall i, i < 150 -> continues (server i)) ->
  let url := pollUrl (region h) (Encoding.encode itemUrn) viewGuid in
  let r := run (handleModelViewSelect (region h) type viewGuid itemUrn) server 0 h in
  finished r = true /\
  trace r = rounds url 150 /\
  requests r = 150 /\
  error (final r) = Some timeoutMessage /\
  isLoading (final r) = false /\
  properties (final r) = properties h /\
  objectTree (final r) = objectTree h /\
  render (final r) = ErrorPanel timeoutMessage /\
  render (dismiss (final r)) = DataView.
Proof.
  intros Hproc url r. subst r.
  rewrite run_handleModelViewSelect.
  rewrite (pollLoop_timeout _ server 150 (S maxAttempts) 0 0); cbn [Nat.add].
  - unfold requests. cbn [final trace finished].
    split; [reflexivity|]. split; [reflexivity|]. split.
    { apply requests_rounds_only. }
    repeat split; reflexivity.
  - reflexivity.
  - unfold maxAttempts. lia.
  - exact Hproc.
Qed.

Lemma poll_timeout_witness :
  let server := answering neverDone in
  (forall i, i < 150 -> continues (server i)) /\
  let url := pollUrl (region initialHome) (Encoding.encode "dXJuOkE/QQ") "guid-A" in
  let r := run (handleModelViewSelect (region initialHome) "view" "guid-A" "dXJuOkE/QQ")
             server 0 initialHome in
  finished r = true /\
  trace r = rounds url 150 /\
  requests r = 150 /\
  error (final r) = Some timeoutMessage /\
  isLoading (final r) = false /\
  properties (final r) = properties initialHome /\
  objectTree (final r) = objectTree initialHome /\
  render (final r) = ErrorPanel timeoutMessage /\
  render (dismiss (final r)) = DataView.
Proof.
  intros server.
  assert (H : forall i, i < 150 -> continues (server i))
    by (intros i _; apply continues_answering; split; reflexivity).
  split; [exact H|].
  exact (poll_timeout server initialHome "view" "guid-A" "dXJuOkE/QQ" H).
Defined.

(** *** Selections that overlap *)

Lemma advance_catchBlock (error : Thrown) (h : HomeState) :
  advance (catchBlock error) h
  = (setLoading false (setError (Some (errorMessage error)) h), Done).
Proof. reflexivity. Qed.








End PollerFacts.

(** ** Lazy navigation tree *)

Section SidebarFacts.
Import Sidebar.

(** *** Paths and ids *)

Lemma nodesOf_kids (n : TreeNode) : nodesOf n = n :: allNodes (kids n).
Proof. destruct n as [i nm ty [cs|] o l p]; reflexivity. Qed.

Lemma nodeAt_one (nodes : list TreeNode) (i : nat) :
  nodeAt nodes [i] = nth_error nodes i.
Proof. cbn. destruct (nth_error nodes i); reflexivity. Qed.

Lemma nodeAt_below (nodes : list TreeNode) (i j : nat) (rest : list nat) :
  nodeAt nodes (i :: j :: rest)
  = match nth_error nodes i with
    | Some a => nodeAt (kids a) (j :: rest)
    | None => None
    end.
Proof.
  cbn [nodeAt]. destruct (nth_error nodes i) as [a|]; [|reflexivity].
  unfold kids. destruct (children a) as [cs|]; [reflexivity|].
  cbn. destruct j; reflexivity.
Qed.

Lemma nodeAt_app (nodes : list TreeNode) (q r : list nat) (t : TreeNode) :
  nodeAt nodes q = Some t -> r <> [] ->
  nodeAt nodes (q ++ r) = nodeAt (kids t) r.
Proof.
  revert nodes. induction q as [|i q IH]; intros nodes Hq Hr; [discriminate|].
  destruct q as [|j q].
  - rewrite nodeAt_one in Hq. destruct r as [|k r]; [congruence|].
    cbn [app]. rewrite nodeAt_below, Hq. reflexivity.
  - rewrite nodeAt_below in Hq. cbn [app] in *. rewrite nodeAt_below.
    destruct (nth_error nodes i) as [a|]; [|discriminate].
    apply IH; assumption.
Qed.

Lemma allNodes_cons (a : TreeNode) (rest : list TreeNode) :
  allNodes (a :: rest) = (nodesOf a ++ allNodes rest)%list.
Proof. reflexivity. Qed.

Lemma nth_error_allNodes (nodes : list TreeNode) (i : nat) (a x : TreeNode) :
  nth_error nodes i = Some a -> In x (nodesOf a) -> In x (allNodes nodes).
Proof.
  intros Hi Hx. unfold allNodes. apply in_flat_map. exists a.
  split; [eapply nth_error_In; exact Hi | exact Hx].
Qed.

Lemma nodeAt_In (p : list nat) :
  forall nodes n, nodeAt nodes p = Some n -> In n (allNodes nodes).
Proof.
  induction p as [|i p IH]; intros nodes n Hp; [discriminate|].
  destruct p as [|j p].
  - rewrite nodeAt_one in Hp. eapply nth_error_allNodes; [exact Hp|].
    rewrite nodesOf_kids. left. reflexivity.
  - rewrite nodeAt_below in Hp.
    destruct (nth_error nodes i) as [a|] eqn:Hi; [|discriminate].
    eapply nth_error_allNodes; [exact Hi|].
    rewrite nodesOf_kids. right. apply IH, Hp.
Qed.

Lemma uniqueIds_cons (a : TreeNode) (rest : list TreeNode) :
  uniqueIds (a :: rest) ->
  NoDup (map id (nodesOf a)) /\ uniqueIds rest /\
  (forall x y, In x (nodesOf a) -> In y (allNodes rest) -> id x <> id y).
Proof.
  unfold uniqueIds. rewrite allNodes_cons, map_app. intros H.
  apply NoDup_app in H as (H1 & H2 & H3). split; [exact H1|]. split; [exact H3|].
  intros x y Hx Hy E. apply (H2 (id x)).
  - apply list_elem_of_In, in_map, Hx.
  - rewrite E. apply list_elem_of_In, in_map, Hy.
Qed.

Lemma uniqueIds_nth (nodes : list TreeNode) (i : nat) (a : TreeNode) :
  uniqueIds nodes -> nth_error nodes i = Some a ->
  uniqueIds (kids a) /\ (forall x, In x (allNodes (kids a)) -> id x <> id a).
Proof.
  revert i. induction nodes as [|b rest IH]; intros i Hu Hi; [destruct i; discriminate|].
  apply uniqueIds_cons in Hu as (Hb & Hrest & _).
  destruct i as [|i]; [|exact (IH i Hrest Hi)].
  injection Hi as ->. rewrite nodesOf_kids in Hb. cbn [map] in Hb.
  apply NoDup_cons in Hb as [Hnotin Hk]. split; [exact Hk|].
  intros x Hx E. apply Hnotin. rewrite <- E. apply list_elem_of_In, in_map, Hx.
Qed.

(** Nodes below two different positions of a forest have different ids. *)
Lemma siblings_apart (nodes : list TreeNode) :
  forall i j a b x y,
    uniqueIds nodes -> i <> j ->
    nth_error nodes i = Some a -> nth_error nodes j = Some b ->
    In x (nodesOf a) -> In y (nodesOf b) -> id x <> id y.
Proof.
  induction nodes as [|c rest IH]; intros i j a b x y Hu Hij Hi Hj Hx Hy;
    [destruct i; discriminate|].
  apply uniqueIds_cons in Hu as (_ & Hrest & Hapart).
  destruct i as [|i], j as [|j]; [congruence | | |].
  - injection Hi as ->. apply Hapart; [exact Hx|].
    eapply nth_error_allNodes; [exact Hj | exact Hy].
  - injection Hj as ->. intros E. symmetry in E. revert E. apply Hapart; [exact Hy|].
    eapply nth_error_allNodes; [exact Hi | exact Hx].
  - apply (IH i j a b x y); auto.
Qed.

(** With unique ids, a path is determined by the id of its node. *)
Lemma path_of_id (p : list nat) :
  forall nodes q n t,
    uniqueIds nodes ->
    nodeAt nodes p = Some n -> nodeAt nodes q = Some t -> id n = id t -> p = q.
Proof.
  induction p as [|i p IH]; intros nodes q n t Hu Hp Hq E; [discriminate|].
  destruct q as [|j q]; [discriminate|].
  assert (Hhead : exists a b, nth_error nodes i = Some a /\ nth_error nodes j = Some b
                              /\ In n (nodesOf a) /\ In t (nodesOf b)).
  { destruct (nth_error nodes i) as [a|] eqn:Hi;
      [|destruct p; [rewrite nodeAt_one, Hi in Hp | rewrite nodeAt_below, Hi in Hp];
        discriminate].
    destruct (nth_error nodes j) as [b|] eqn:Hj;
      [|destruct q; [rewrite nodeAt_one, Hj in Hq | rewrite nodeAt_below, Hj in Hq];
        discriminate].
    exists a, b. repeat split; try reflexivity.
    - destruct p; [rewrite nodeAt_one, Hi in Hp; injection Hp as ->;
                   rewrite nodesOf_kids; left; reflexivity|].
      rewrite nodeAt_below, Hi in Hp. rewrite nodesOf_kids. right. eapply nodeAt_In, Hp.
    - destruct q; [rewrite nodeAt_one, Hj in Hq; injection Hq as ->;
                   rewrite nodesOf_kids; left; reflexivity|].
      rewrite nodeAt_below, Hj in Hq. rewrite nodesOf_kids. right. eapply nodeAt_In, Hq. }
  destruct Hhead as (a & b & Hi & Hj & Hn & Ht).
  destruct (Nat.eq_dec i j) as [->|Hij];
    [|destruct (siblings_apart nodes i j a b n t Hu Hij Hi Hj Hn Ht E)].
  rewrite Hi in Hj. injection Hj as <-.
  destruct (uniqueIds_nth nodes j a Hu Hi) as [Hk Hbelow].
  destruct p as [|i' p], q as [|j' q].
  - reflexivity.
  - rewrite nodeAt_one, Hi in Hp. injection Hp as ->.
    rewrite nodeAt_below, Hi in Hq. apply nodeAt_In in Hq.
    destruct (Hbelow t Hq). symmetry. exact E.
  - rewrite nodeAt_one, Hi in Hq. injection Hq as ->.
    rewrite nodeAt_below, Hi in Hp. apply nodeAt_In in Hp.
    destruct (Hbelow n Hp E).
  - rewrite nodeAt_below, Hi in Hp, Hq. f_equal.
    exact (IH (kids a) (j' :: q) n t Hk Hp Hq E).
Qed.

(** *** [updateNode] *)

Lemma updateIn_target (target : string) (updates : Updates) (n : TreeNode) :
  id n = target -> updateIn target updates n = spread n updates.
Proof.
  intros E. destruct n as [i nm ty cs o l p]. cbn in *. subst target.
  rewrite String.eqb_refl. reflexivity.
Qed.

Lemma updateIn_other (target : string) (updates : Updates) (n : TreeNode) :
  id n <> target ->
  updateIn target updates n
  = match children n with
    | Some cs => withChildren n (updateNode cs target updates)
    | None => n
    end.
Proof.
  intros E. destruct n as [i nm ty cs o l p]. cbn in *.
  destruct (String.eqb_spec i target); [congruence | reflexivity].
Qed.

Lemma kids_updateIn_other (target : string) (updates : Updates) (n : TreeNode) :
  id n <> target ->
  kids (updateIn target updates n) = updateNode (kids n) target updates.
Proof.
  intros E. rewrite updateIn_other by exact E. unfold kids.
  destruct (children n) as [cs|] eqn:Hc; [reflexivity | rewrite Hc; reflexivity].
Qed.

Lemma own_updateIn_other (target : string) (updates : Updates) (n : TreeNode) :
  id n <> target -> own (updateIn target updates n) = own n.
Proof.
  intros E. rewrite updateIn_other by exact E. unfold own.
  destruct (children n) as [cs|] eqn:Hc; [|rewrite Hc; reflexivity].
  cbn. unfold updateNode. rewrite length_map. reflexivity.
Qed.

(** Below nodes that are not the target, [updateNode] changes the node
    at a path by [updateIn]. *)
Lemma updateNode_at (target : string) (updates : Updates) (p : list nat) :
  forall nodes,
    (forall p0 r n0, r <> [] -> p = (p0 ++ r)%list ->
                     nodeAt nodes p0 = Some n0 -> id n0 <> target) ->
    nodeAt (updateNode nodes target updates) p
    = option_map (updateIn target updates) (nodeAt nodes p).
Proof.
  induction p as [|i p IH]; intros nodes Habove; [reflexivity|].
  destruct p as [|j p].
  - rewrite !nodeAt_one. unfold updateNode. apply nth_error_map.
  - rewrite !nodeAt_below. unfold updateNode at 1. rewrite nth_error_map.
    destruct (nth_error nodes i) as [a|] eqn:Hi; [|reflexivity].
    cbn [option_map].
    assert (Ha : id a <> target).
    { apply (Habove [i] (j :: p) a); [discriminate | reflexivity |].
      rewrite nodeAt_one. exact Hi. }
    rewrite kids_updateIn_other by exact Ha. apply IH.
    intros p0 r n0 Hr Hp0 Hn0. destruct p0 as [|k p0]; [discriminate|].
    apply (Habove (i :: k :: p0) r n0 Hr).
    + cbn [app] in *. rewrite Hp0. reflexivity.
    + rewrite nodeAt_below, Hi. exact Hn0.
Qed.

(** C10: in a forest with unique ids, [updateNode] keeps the number of
    roots and puts at the place of the node whose id is the argument a
    node each of whose fields is the value that [updates] gives for it
    when it gives one, and the value of the node otherwise; it keeps
    every other node at its place with every field of its own (the
    forest below the node is the one in its [children], replaced only
    when [updates] gives [children]). *)
Theorem updateNode_frame (nodes : list TreeNode) (target : string) (updates : Updates)
  (q : list nat) (t : TreeNode) :
  uniqueIds nodes ->
  nodeAt nodes q = Some t ->
  id t = target ->
  length (updateNode nodes target updates) = length nodes /\
  nodeAt (updateNode nodes target updates) q = Some (spread t updates) /\
  (let t' := spread t updates in
   id t' = match u_id updates with Present a => a | Absent => id t end /\
   name t' = match u_name updates with Present a => a | Absent => name t end /\
   type t' = match u_type updates with Present a => a | Absent => type t end /\
   children t' = match u_children updates with Present a => a | Absent => children t end /\
   isOpen t' = match u_isOpen updates with Present a => a | Absent => isOpen t end /\
   isLoading t' = match u_isLoading updates with Present a => a | Absent => isLoading t end /\
   parent t' = match u_parent updates with Present a => a | Absent => parent t end) /\
  (forall r, r <> [] ->
     nodeAt (updateNode nodes target updates) (q ++ r)
     = nodeAt (kids (spread t updates)) r) /\
  (u_children updates = Absent ->
   forall r, nodeAt (updateNode nodes target updates) (q ++ r)
             = if decide (r = []) then Some (spread t updates)
               else nodeAt nodes (q ++ r)) /\
  (forall p, (forall r, p <> (q ++ r)%list) ->
     option_map own (nodeAt (updateNode nodes target updates) p)
     = option_map own (nodeAt nodes p)).
Proof.
  intros Hu Hq Ht.
  assert (Hone : forall p n, nodeAt nodes p = Some n -> p <> q -> id n <> target).
  { intros p n Hp Hne E. apply Hne.
    apply (path_of_id p nodes q n t Hu Hp Hq). congruence. }
  assert (Hat : nodeAt (updateNode nodes target updates) q = Some (spread t updates)).
  { rewrite updateNode_at.
    - rewrite Hq. cbn [option_map]. rewrite updateIn_target by exact Ht. reflexivity.
    - intros p0 r n0 Hr Hp0 Hn0. apply (Hone p0 n0 Hn0).
      intros ->. apply Hr. apply (app_inv_head q). rewrite app_nil_r. symmetry. exact Hp0. }
  split; [unfold updateNode; apply length_map|].
  split; [exact Hat|].
  split; [cbv zeta; unfold spread, override; cbn; repeat split|].
  split; [intros r Hr; apply nodeAt_app; assumption|].
  split.
  - intros Hkeep r. destruct (decide (r = [])) as [->|Hr].
    + rewrite app_nil_r. exact Hat.
    + rewrite (nodeAt_app _ q r _ Hat Hr), (nodeAt_app _ q r _ Hq Hr).
      unfold kids, spread. cbn [children]. rewrite Hkeep. reflexivity.
  - intros p Hp. rewrite updateNode_at.
    + destruct (nodeAt nodes p) as [n|] eqn:Hn; [|reflexivity].
      cbn [option_map]. f_equal. apply own_updateIn_other.
      apply (Hone p n Hn). intros ->. apply (Hp []). rewrite app_nil_r. reflexivity.
    + intros p0 r n0 Hr Hp0 Hn0. apply (Hone p0 n0 Hn0).
      intros ->. apply (Hp r). exact Hp0.
Qed.

Lemma updateNode_frame_witness :
  let updates := onlyIsLoading true in
  let t := closedNode "project|h1|p2" "Tower" TProject in
  uniqueIds sampleForest /\
  nodeAt sampleForest [0; 1] = Some t /\
  id t = "project|h1|p2" /\
  length (updateNode sampleForest "project|h1|p2" updates) = length sampleForest /\
  nodeAt (updateNode sampleForest "project|h1|p2" updates) [0; 1] = Some (spread t updates) /\
  (let t' := spread t updates in
   id t' = match u_id updates with Present a => a | Absent => id t end /\
   name t' = match u_name updates with Present a => a | Absent => name t end /\
   type t' = match u_type updates with Present a => a | Absent => type t end /\
   children t' = match u_children updates with Present a => a | Absent => children t end /\
   isOpen t' = match u_isOpen updates with Present a => a | Absent => isOpen t end /\
   isLoading t' = match u_isLoading updates with Present a => a | Absent => isLoading t end /\
   parent t' = match u_parent updates with Present a => a | Absent => parent t end) /\
  (forall r, r <> [] ->
     nodeAt (updateNode sampleForest "project|h1|p2" updates) ([0; 1] ++ r)
     = nodeAt (kids (spread t updates)) r) /\
  (u_children updates = Absent ->
   forall r, nodeAt (updateNode sampleForest "project|h1|p2" updates) ([0; 1] ++ r)
             = if decide (r = []) then Some (spread t updates)
               else nodeAt sampleForest ([0; 1] ++ r)) /\
  (forall p, (forall r, p <> ([0; 1] ++ r)%list) ->
     option_map own (nodeAt (updateNode sampleForest "project|h1|p2" updates) p)
     = option_map own (nodeAt sampleForest p)).
Proof.
  assert (H1 : uniqueIds sampleForest).
  { unfold uniqueIds. apply (bool_decide_unpack _). vm_compute. reflexivity. }
  assert (H2 : nodeAt sampleForest [0; 1]
               = Some (closedNode "project|h1|p2" "Tower" TProject)) by reflexivity.
  assert (H3 : id (closedNode "project|h1|p2" "Tower" TProject) = "project|h1|p2")
    by reflexivity.
  split; [exact H1|]. split; [exact H2|]. split; [exact H3|].
  exact (updateNode_frame sampleForest "project|h1|p2" (onlyIsLoading true) [0; 1] _
           H1 H2 H3).
Defined.

(** What the first and the last [setTree] of an expansion make of the
    sample forest. *)
Example updateNode_loading :
  updateNode sampleForest "project|h1|p2" (onlyIsLoading true)
  = [ mkNode "hub|h1" "Alpha" THub
        (Some [closedNode "project|h1|p1" "Bridge" TProject;
               mkNode "project|h1|p2" "Tower" TProject (Some []) (Some false)
                 (Some true) None])
        (Some true) (Some false) None;
      closedNode "hub|h2" "Beta" THub ].
Proof. reflexivity. Qed.

Example updateNode_loaded :
  updateNode sampleForest "project|h1|p2"
    (loaded [closedNode "folder|h1|p2|f1" "Plans" TFolder])
  = [ mkNode "hub|h1" "Alpha" THub
        (Some [closedNode "project|h1|p1" "Bridge" TProject;
               mkNode "project|h1|p2" "Tower" TProject
                 (Some [closedNode "folder|h1|p2|f1" "Plans" TFolder]) (Some true)
                 (Some false) None])
        (Some true) (Some false) None;
      closedNode "hub|h2" "Beta" THub ].
Proof. reflexivity. Qed.

(** *** [findNode] and [toggleNode] *)

Lemma TreeNode_tree_ind (P : TreeNode -> Prop) :
  (forall i nm ty cs o l p,
      match cs with Some c => Forall P c | None => True end ->
      P (mkNode i nm ty cs o l p)) ->
  forall n, P n.
Proof.
  intros H. fix IH 1. intros [i nm ty cs o l p]. apply H.
  destruct cs as [c|]; [|exact I].
  induction c as [|x c IHc]; constructor; [apply IH | exact IHc].
Qed.

Lemma firstFound_map {A B : Type} (f f' : A -> option B) (g : A -> A) (h : B -> B)
  (l : list A) :
  Forall (fun x => f' (g x) = option_map h (f x)) l ->
  firstFound f' (map g l) = option_map h (firstFound f l).
Proof.
  induction 1 as [|x l Hx _ IH]; [reflexivity|].
  cbn [map firstFound]. rewrite Hx. destruct (f x); [reflexivity | exact IH].
Qed.

Lemma findIn_hit (target : string) (x : TreeNode) :
  id x = target -> findIn target x = Some x.
Proof.
  intros E. destruct x as [i nm ty cs o l p]. cbn in *. subst target.
  rewrite String.eqb_refl. reflexivity.
Qed.

Lemma findIn_miss (target : string) (x : TreeNode) :
  id x <> target -> findIn target x = firstFound (findIn target) (kids x).
Proof.
  intros E. destruct x as [i nm ty cs o l p]. cbn in *.
  destruct (String.eqb_spec i target); [congruence|].
  destruct cs; reflexivity.
Qed.

Lemma findIn_updateIn (target : string) (updates : Updates) (n : TreeNode) :
  u_id updates = Absent ->
  findIn target (updateIn target updates n)
  = option_map (fun x => spread x updates) (findIn target n).
Proof.
  intros Hid. induction n as [i nm ty cs o l p IH] using TreeNode_tree_ind.
  set (n := mkNode i nm ty cs o l p).
  destruct (String.eqb_spec (id n) target) as [E|E].
  - rewrite (updateIn_target target updates n E), (findIn_hit target n E).
    apply findIn_hit. cbn. rewrite Hid. exact E.
  - rewrite (findIn_miss target n E), findIn_miss, kids_updateIn_other by
      (try rewrite updateIn_other by exact E; try exact E;
       destruct cs; exact E).
    unfold updateNode. apply firstFound_map.
    subst n. unfold kids. cbn. destruct cs as [c|]; [exact IH | constructor].
Qed.

(** After an update that keeps ids, the search finds the updated node. *)
Lemma findNode_updateNode (nodes : list TreeNode) (target : string) (updates : Updates) :
  u_id updates = Absent ->
  findNode (updateNode nodes target updates) target
  = option_map (fun x => spread x updates) (findNode nodes target).
Proof.
  intros Hid. unfold findNode, updateNode. apply firstFound_map, Forall_forall.
  intros n _. apply findIn_updateIn, Hid.
Qed.

Section Toggle.
Variable region : string.
Variable localeCompare : string -> string -> comparison.

Lemma toggleNode_open (t : list TreeNode) (nodeId : string) (node : TreeNode) :
  findNode t nodeId = Some node -> truthy (isOpen node) = true ->
  toggleNode region localeCompare t nodeId
  = SetTree (updateNode t nodeId (onlyIsOpen false)) Done.
Proof. intros Hf Ho. unfold toggleNode. rewrite Hf, Ho. reflexivity. Qed.

Lemma toggleNode_cached (t : list TreeNode) (nodeId : string) (node : TreeNode) :
  findNode t nodeId = Some node -> truthy (isOpen node) = false ->
  noChildren node = false ->
  toggleNode region localeCompare t nodeId
  = SetTree (updateNode t nodeId (onlyIsOpen true)) Done.
Proof. intros Hf Ho Hc. unfold toggleNode. rewrite Hf, Ho, Hc. reflexivity. Qed.

Lemma toggleNode_empty (t : list TreeNode) (nodeId : string) (node : TreeNode) :
  findNode t nodeId = Some node -> truthy (isOpen node) = false ->
  noChildren node = true ->
  advance (toggleNode region localeCompare t nodeId) t
  = (updateNode t nodeId (if fetchable nodeId then onlyIsLoading true else loaded []),
     snd (advance (toggleNode region localeCompare t nodeId) t))
  /\ waiting (snd (advance (toggleNode region localeCompare t nodeId) t))
     = fetchable nodeId.
Proof.
  intros Hf Ho Hc. unfold toggleNode, fetchable, part. rewrite Hf, Ho, Hc.
  cbn [advance].
  destruct (String.eqb (nth 0 (JsString.split nodeId "|") "undefined") "hub");
    [split; reflexivity|].
  destruct (String.eqb (nth 0 (JsString.split nodeId "|") "undefined") "project");
    [split; reflexivity|].
  destruct (String.eqb (nth 0 (JsString.split nodeId "|") "undefined") "folder");
    [split; reflexivity|].
  destruct (String.eqb (nth 0 (JsString.split nodeId "|") "undefined") "item");
    [split; reflexivity|].
  destruct (String.eqb (nth 0 (JsString.split nodeId "|") "undefined") "version");
    split; reflexivity.
Qed.

(** C6, as amended: a call of [toggleNode] on a node that is open sends
    no fetch and only closes it.  A call on a node that is not open
    looks at its children and never at [isLoading]: without children it
    marks the node as loading and sends the fetch of its kind, also when
    the node is loading already; with children it opens the node. *)
Theorem toggle_fetch_count (t : list TreeNode) (nodeId : string) (node : TreeNode) :
  findNode t nodeId = Some node ->
  fetchesSent region localeCompare t nodeId
  = (if truthy (isOpen node) then 0
     else if noChildren node && fetchable nodeId then 1 else 0) /\
  fst (advance (toggleNode region localeCompare t nodeId) t)
  = updateNode t nodeId
      (if truthy (isOpen node) then onlyIsOpen false
       else if noChildren node
            then (if fetchable nodeId then onlyIsLoading true else loaded [])
            else onlyIsOpen true).
Proof.
  intros Hf. unfold fetchesSent.
  destruct (truthy (isOpen node)) eqn:Ho.
  - rewrite (toggleNode_open t nodeId node Hf Ho). split; reflexivity.
  - destruct (noChildren node) eqn:Hc.
    + destruct (toggleNode_empty t nodeId node Hf Ho Hc) as [Hadv Hwait].
      rewrite Hwait. split; [destruct (fetchable nodeId); reflexivity|].
      rewrite Hadv. reflexivity.
    + rewrite (toggleNode_cached t nodeId node Hf Ho Hc). split; reflexivity.
Qed.

(** A click on a node that has children sends nothing and flips
    [isOpen]. *)
Lemma click_on_loaded (s : Session) (nodeId : string) (node : TreeNode) :
  findNode (tree s) nodeId = Some node -> noChildren node = false ->
  step region localeCompare s (Toggle nodeId)
  = mkSession (updateNode (tree s) nodeId (onlyIsOpen (negb (truthy (isOpen node)))))
      (calls s)
  /\ findNode (tree (step region localeCompare s (Toggle nodeId))) nodeId
     = Some (spread node (onlyIsOpen (negb (truthy (isOpen node))))).
Proof.
  intros Hf Hc.
  assert (Hstep : step region localeCompare s (Toggle nodeId)
                  = mkSession
                      (updateNode (tree s) nodeId (onlyIsOpen (negb (truthy (isOpen node)))))
                      (calls s)).
  { cbn [step]. destruct (truthy (isOpen node)) eqn:Ho.
    - rewrite (toggleNode_open (tree s) nodeId node Hf Ho). reflexivity.
    - rewrite (toggleNode_cached (tree s) nodeId node Hf Ho Hc). reflexivity. }
  split; [exact Hstep|]. rewrite Hstep. cbn [tree].
  rewrite findNode_updateNode by reflexivity. rewrite Hf. reflexivity.
Qed.

Lemma fetchesSent_loaded (t : list TreeNode) (nodeId : string) (node : TreeNode) :
  findNode t nodeId = Some node -> noChildren node = false ->
  fetchesSent region localeCompare t nodeId = 0.
Proof.
  intros Hf Hc. unfold fetchesSent. destruct (truthy (isOpen node)) eqn:Ho.
  - rewrite (toggleNode_open t nodeId node Hf Ho). reflexivity.
  - rewrite (toggleNode_cached t nodeId node Hf Ho Hc). reflexivity.
Qed.

(** Clicks in a row on a node that has children: no call is added, the
    children stay, and the node is open or closed in turn. *)
Lemma clicks_on_loaded (nodeId : string) (k : nat) :
  forall (s : Session) (node : TreeNode),
    findNode (tree s) nodeId = Some node -> noChildren node = false ->
    calls (steps region localeCompare s (repeat (Toggle nodeId) k)) = calls s /\
    exists nodek,
      findNode (tree (steps region localeCompare s (repeat (Toggle nodeId) k))) nodeId
      = Some nodek /\
      children nodek = children node /\
      truthy (isOpen nodek) = xorb (truthy (isOpen node)) (Nat.odd k).
Proof.
  induction k as [|k IH]; intros s node Hf Hc.
  - cbn. split; [reflexivity|]. exists node. rewrite xorb_false_r. auto.
  - cbn [repeat].
    change (steps region localeCompare s (Toggle nodeId :: repeat (Toggle nodeId) k))
      with (steps region localeCompare (step region localeCompare s (Toggle nodeId))
              (repeat (Toggle nodeId) k)).
    destruct (click_on_loaded s nodeId node Hf Hc) as [Hstep Hf1].
    assert (Hc1 : noChildren (spread node (onlyIsOpen (negb (truthy (isOpen node))))) = false)
      by exact Hc.
    destruct (IH _ _ Hf1 Hc1) as [Hcalls (nodek & Hfk & Hck & Hok)].
    split; [rewrite Hcalls, Hstep; reflexivity|].
    exists nodek. split; [exact Hfk|]. split; [exact Hck|].
    rewrite Hok, Nat.odd_succ, <- Nat.negb_odd.
    unfold spread, onlyIsOpen. cbn [isOpen u_isOpen override].
    destruct (truthy (isOpen node)), (Nat.odd k); reflexivity.
Qed.

(** C7, as amended: for a node that is open and holds at least one
    child, clicks on it in a row, with no other event in between, send
    no fetch, add no call and keep its children, closing and opening it
    in turn; closing it and directly opening it again finds the node as
    it was.  The children are not kept for as long as the tree exists:
    in any state of the tree, a click on a node that is closed sends a
    fetch exactly when the node then has no children and its id is of
    a kind that has a fetch. *)
Theorem collapse_reexpand (s : Session) (nodeId : string) (node c : TreeNode)
  (cs : list TreeNode) :
  findNode (tree s) nodeId = Some node ->
  isOpen node = Some true ->
  children node = Some (c :: cs) ->
  let s1 := step region localeCompare s (Toggle nodeId) in
  let s2 := step region localeCompare s1 (Toggle nodeId) in
  fetchesSent region localeCompare (tree s) nodeId = 0 /\
  fetchesSent region localeCompare (tree s1) nodeId = 0 /\
  calls s1 = calls s /\
  calls s2 = calls s /\
  option_map isOpen (findNode (tree s1) nodeId) = Some (Some false) /\
  option_map children (findNode (tree s1) nodeId) = Some (Some (c :: cs)) /\
  findNode (tree s2) nodeId = Some node /\
  (forall k,
     let sk := steps region localeCompare s (repeat (Toggle nodeId) k) in
     calls sk = calls s /\
     fetchesSent region localeCompare (tree sk) nodeId = 0 /\
     option_map children (findNode (tree sk) nodeId) = Some (Some (c :: cs)) /\
     option_map (fun n => truthy (isOpen n)) (findNode (tree sk) nodeId)
     = Some (Nat.even k)) /\
  (forall t n,
     findNode t nodeId = Some n -> truthy (isOpen n) = false ->
     fetchesSent region localeCompare t nodeId
     = if noChildren n && fetchable nodeId then 1 else 0).
Proof.
  intros Hf Ho Hc s1 s2.
  assert (Hopen : truthy (isOpen node) = true) by (rewrite Ho; reflexivity).
  assert (Hfull : noChildren node = false) by (unfold noChildren; rewrite Hc; reflexivity).
  assert (Hs1 : s1 = mkSession (updateNode (tree s) nodeId (onlyIsOpen false)) (calls s)).
  { subst s1. cbn [step]. rewrite (toggleNode_open (tree s) nodeId node Hf Hopen).
    reflexivity. }
  assert (Hf1 : findNode (tree s1) nodeId = Some (spread node (onlyIsOpen false))).
  { rewrite Hs1. cbn [tree]. rewrite findNode_updateNode by reflexivity.
    rewrite Hf. reflexivity. }
  assert (Hclosed : truthy (isOpen (spread node (onlyIsOpen false))) = false)
    by reflexivity.
  assert (Hkept : noChildren (spread node (onlyIsOpen false)) = false).
  { unfold noChildren, spread. cbn. rewrite Hc. reflexivity. }
  assert (Hs2 : s2 = mkSession (updateNode (tree s1) nodeId (onlyIsOpen true)) (calls s)).
  { subst s2. cbn [step]. rewrite (toggleNode_cached (tree s1) nodeId _ Hf1 Hclosed Hkept).
    cbn [advance waiting]. rewrite Hs1. reflexivity. }
  split; [exact (fetchesSent_loaded (tree s) nodeId node Hf Hfull)|].
  split; [exact (fetchesSent_loaded (tree s1) nodeId _ Hf1 Hkept)|].
  split; [rewrite Hs1; reflexivity|].
  split; [rewrite Hs2; reflexivity|].
  split; [rewrite Hf1; reflexivity|].
  split; [rewrite Hf1; cbn; rewrite Hc; reflexivity|].
  split.
  { rewrite Hs2. cbn [tree]. rewrite findNode_updateNode by reflexivity.
    rewrite Hf1. cbn [option_map]. f_equal.
    destruct node as [i nm ty ch o l p]. cbn in Ho. subst o. reflexivity. }
  split.
  - intros k sk. subst sk.
    destruct (clicks_on_loaded nodeId k s node Hf Hfull) as [Hcalls (nodek & Hfk & Hck & Hok)].
    split; [exact Hcalls|]. split.
    { apply (fetchesSent_loaded _ nodeId nodek Hfk).
      unfold noChildren. rewrite Hck, Hc. reflexivity. }
    rewrite Hfk. cbn [option_map]. split; [rewrite Hck, Hc; reflexivity|].
    rewrite Hok, Hopen, <- Nat.negb_odd. reflexivity.
  - intros t n Hn Hon. unfold fetchesSent. destruct (noChildren n) eqn:Hcn.
    + destruct (toggleNode_empty t nodeId n Hn Hon Hcn) as [_ Hw]. rewrite Hw. reflexivity.
    + rewrite (toggleNode_cached t nodeId n Hn Hon Hcn). reflexivity.
Qed.

End Toggle.

Lemma toggle_fetch_count_witness :
  let t := tree (sampleStep sampleSession (Toggle "hub|h2")) in
  let node := mkNode "hub|h2" "Beta" THub (Some []) (Some false) (Some true) None in
  findNode t "hub|h2" = Some node /\
  fetchesSent "US" String.compare t "hub|h2"
  = (if truthy (isOpen node) then 0
     else if noChildren node && fetchable "hub|h2" then 1 else 0) /\
  fst (advance (toggleNode "US" String.compare t "hub|h2") t)
  = updateNode t "hub|h2"
      (if truthy (isOpen node) then onlyIsOpen false
       else if noChildren node
            then (if fetchable "hub|h2" then onlyIsLoading true else loaded [])
            else onlyIsOpen true).
Proof.
  assert (H : findNode (tree (sampleStep sampleSession (Toggle "hub|h2"))) "hub|h2"
              = Some (mkNode "hub|h2" "Beta" THub (Some []) (Some false) (Some true) None))
    by reflexivity.
  split; [exact H|].
  exact (toggle_fetch_count "US" String.compare _ "hub|h2" _ H).
Defined.

(** C6, as stated, fails for a node that is loading: the first click on
    the closed hub marks it as loading and sends the fetch of its
    projects; a second click, before the answer, sends the same fetch
    again, and two fetches of its children are outstanding. *)
Lemma reentrant_click_counterexample :
  let s1 := sampleStep sampleSession (Toggle "hub|h2") in
  let s2 := sampleStep s1 (Toggle "hub|h2") in
  option_map isLoading (findNode (tree s1) "hub|h2") = Some (Some true) /\
  outstanding s1 "hub|h2" = 1 /\
  fetchesSent "US" String.compare (tree s1) "hub|h2" = 1 /\
  outstanding s2 "hub|h2" = 2.
Proof. repeat split; reflexivity. Qed.

Lemma collapse_reexpand_witness :
  let node := mkNode "hub|h1" "Alpha" THub
                (Some [closedNode "project|h1|p1" "Bridge" TProject;
                       closedNode "project|h1|p2" "Tower" TProject])
                (Some true) (Some false) None in
  let s1 := sampleStep sampleSession (Toggle "hub|h1") in
  let s2 := sampleStep s1 (Toggle "hub|h1") in
  findNode (tree sampleSession) "hub|h1" = Some node /\
  isOpen node = Some true /\
  children node = Some [closedNode "project|h1|p1" "Bridge" TProject;
                        closedNode "project|h1|p2" "Tower" TProject] /\
  fetchesSent "US" String.compare (tree sampleSession) "hub|h1" = 0 /\
  fetchesSent "US" String.compare (tree s1) "hub|h1" = 0 /\
  calls s1 = calls sampleSession /\
  calls s2 = calls sampleSession /\
  option_map isOpen (findNode (tree s1) "hub|h1") = Some (Some false) /\
  option_map children (findNode (tree s1) "hub|h1")
  = Some (Some [closedNode "project|h1|p1" "Bridge" TProject;
                closedNode "project|h1|p2" "Tower" TProject]) /\
  findNode (tree s2) "hub|h1" = Some node /\
  (forall k,
     let sk := steps "US" String.compare sampleSession (repeat (Toggle "hub|h1") k) in
     calls sk = calls sampleSession /\
     fetchesSent "US" String.compare (tree sk) "hub|h1" = 0 /\
     option_map children (findNode (tree sk) "hub|h1")
     = Some (Some [closedNode "project|h1|p1" "Bridge" TProject;
                   closedNode "project|h1|p2" "Tower" TProject]) /\
     option_map (fun n => truthy (isOpen n)) (findNode (tree sk) "hub|h1")
     = Some (Nat.even k)) /\
  (forall t n,
     findNode t "hub|h1" = Some n -> truthy (isOpen n) = false ->
     fetchesSent "US" String.compare t "hub|h1"
     = if noChildren n && fetchable "hub|h1" then 1 else 0).
Proof.
  split; [reflexivity|]. split; [reflexivity|]. split; [reflexivity|].
  exact (collapse_reexpand "US" String.compare sampleSession "hub|h1" _ _ _
           eq_refl eq_refl eq_refl).
Defined.

(** C7, as stated, fails in two ways.  A node whose expansion brought no
    children is fetched again: the hub is opened and the answer holds
    no project; it is closed and opened again, and the second opening
    sends the fetch again.  And a node that has children can lose them:
    two hubs are clicked one after the other; the projects of the first
    come and it shows them; it is closed; then the answer for the
    second hub comes and puts back the tree of its own click, in which
    the first hub has no children yet; opening the first hub again
    sends its fetch again. *)
Lemma refetch_counterexample :
  (let s2 := sampleSteps sampleSession [Toggle "hub|h2"; ProjectsArrive 0 noProjects] in
   let s3 := sampleStep s2 (Toggle "hub|h2") in
   let s4 := sampleStep s3 (Toggle "hub|h2") in
   findNode (tree s2) "hub|h2"
   = Some (mkNode "hub|h2" "Beta" THub (Some []) (Some true) (Some false) None) /\
   outstanding s2 "hub|h2" = 0 /\
   option_map isOpen (findNode (tree s3) "hub|h2") = Some (Some false) /\
   outstanding s3 "hub|h2" = 0 /\
   fetchesSent "US" String.compare (tree s3) "hub|h2" = 1 /\
   outstanding s4 "hub|h2" = 1) /\
  (let s0 := mkSession [closedNode "hub|h1" "Alpha" THub; closedNode "hub|h2" "Beta" THub]
               [] in
   let bridge := mkNode "project|h1|p1" "Bridge" TProject (Some []) (Some false) None None in
   let s3 := sampleSteps s0 [Toggle "hub|h1"; Toggle "hub|h2";
                             ProjectsArrive 0 (mkResp true 200 [mkProject "p1" "Bridge"])] in
   let s4 := sampleStep s3 (Toggle "hub|h1") in
   let s5 := sampleStep s4 (ProjectsArrive 1 (mkResp true 200 [mkProject "p7" "Mill"])) in
   let s6 := sampleStep s5 (Toggle "hub|h1") in
   findNode (tree s3) "hub|h1"
   = Some (mkNode "hub|h1" "Alpha" THub (Some [bridge]) (Some true) (Some false) None) /\
   findNode (tree s4) "hub|h1"
   = Some (mkNode "hub|h1" "Alpha" THub (Some [bridge]) (Some false) (Some false) None) /\
   outstanding s4 "hub|h1" = 0 /\
   findNode (tree s5) "hub|h1"
   = Some (mkNode "hub|h1" "Alpha" THub (Some []) (Some false) (Some true) None) /\
   fetchesSent "US" String.compare (tree s5) "hub|h1" = 1 /\
   outstanding s6 "hub|h1" = 1).
Proof. split; repeat split; reflexivity. Qed.

End SidebarFacts.

(** ** More on the merge and its handler *)

Section MergeMore.
Import Merge.

Lemma map_id_on {A : Type} (f : A -> A) (l : list A) :
  Forall (fun x => f x = x) l -> map f l = l.
Proof. induction 1 as [|x l Hx _ IH]; cbn; [reflexivity | rewrite Hx, IH; reflexivity]. Qed.

Lemma map_agree {A B : Type} (f g : A -> B) (l : list A) :
  Forall (fun x => f x = g x) l -> map f l = map g l.
Proof. induction 1 as [|x l Hx _ IH]; cbn; [reflexivity | rewrite Hx, IH; reflexivity]. Qed.

Lemma Forall_flat_map_nodes (Q : ObjectTreeData -> Prop) (cs : list ObjectTreeData) :
  (forall x, In x (flat_map nodesOf cs) -> Q x) ->
  Forall (fun c => forall x, In x (nodesOf c) -> Q x) cs.
Proof.
  intros H. apply Forall_forall. intros c Hc x Hx. apply H, in_flat_map.
  exists c. split; [apply list_elem_of_In, Hc | exact Hx].
Qed.

Lemma attachNode_no_match (pm : gmap Z PropertiesDataCollection) (n : ObjectTreeData) :
  (forall x, In x (nodesOf n) -> pm !! objectid x = None) -> attachNode pm n = n.
Proof.
  induction n as [i nm os p IH] using ObjectTreeData_tree_ind. intros H.
  cbn [attachNode objectid name objects properties].
  pose proof (H (mkObject i nm os p) (or_introl eq_refl)) as H0.
  cbn [objectid] in H0. rewrite H0.
  destruct os as [cs|]; [|reflexivity].
  f_equal. f_equal. apply map_id_on.
  assert (Hcs : Forall (fun c => forall x, In x (nodesOf c) -> pm !! objectid x = None) cs).
  { apply Forall_flat_map_nodes. intros x Hx. apply H. right. exact Hx. }
  clear H. induction IH as [|c cs Hc _ IHcs]; [constructor|].
  inversion Hcs; subst. constructor; auto.
Qed.

Lemma propertiesMap_None (k : Z) (props : list PropertiesDataCollection) :
  (forall r, In r props -> p_objectid r <> k) -> propertiesMap props !! k = None.
Proof.
  intros H. destruct (propertiesMap props !! k) as [r|] eqn:E; [|reflexivity].
  assert (Hs : is_Some (propertiesMap props !! k)) by (rewrite E; eauto).
  apply propertiesMap_is_Some in Hs as (r' & Hr' & Hk).
  destruct (H r' (proj1 (list_elem_of_In _ _) Hr') Hk).
Qed.

(** X1: a collection none of whose ids is in the tree, the empty one among
    them, leaves the tree as it is. *)
Theorem merge_without_match (T : list ObjectTreeData) (P : list PropertiesDataCollection) :
  (forall n r, In n (allNodes T) -> In r P -> p_objectid r <> objectid n) ->
  merge T P = T.
Proof.
  intros H. unfold merge, attachProperties. apply map_id_on, Forall_forall.
  intros t Ht. apply attachNode_no_match. intros x Hx.
  apply propertiesMap_None. intros r Hr. apply (H x r); [|exact Hr].
  unfold allNodes. apply in_flat_map. exists t.
  split; [apply list_elem_of_In, Ht | exact Hx].
Qed.

Lemma merge_without_match_witness :
  (forall n r, In n (allNodes wallTree) -> In r [recordA; recordB] ->
               p_objectid r <> objectid n) /\
  merge wallTree [recordA; recordB] = wallTree.
Proof.
  assert (H : forall n r, In n (allNodes wallTree) -> In r [recordA; recordB] ->
                          p_objectid r <> objectid n).
  { intros n r Hn Hr. cbn in Hn, Hr.
    destruct Hn as [<-|[<-|[]]]; destruct Hr as [<-|[<-|[]]]; discriminate. }
  split; [exact H | exact (merge_without_match wallTree [recordA; recordB] H)].
Defined.

Lemma attachNode_twice (pm : gmap Z PropertiesDataCollection) (n : ObjectTreeData) :
  attachNode pm (attachNode pm n) = attachNode pm n.
Proof.
  induction n as [i nm os p IH] using ObjectTreeData_tree_ind.
  cbn [attachNode objectid name objects properties].
  f_equal.
  - destruct os as [cs|]; [|reflexivity]. f_equal.
    rewrite map_map. apply map_agree, IH.
  - destruct (pm !! i); reflexivity.
Qed.

(** X2: merging a merged tree with the same collection changes nothing. *)
Theorem merge_idempotent (T : list ObjectTreeData) (P : list PropertiesDataCollection) :
  merge (merge T P) P = merge T P.
Proof.
  unfold merge, attachProperties. rewrite map_map. apply map_agree, Forall_forall.
  intros t _. apply attachNode_twice.
Qed.

Lemma set_all_lookup_Some (k : Z) (r : PropertiesDataCollection)
  (props : list PropertiesDataCollection) (m : gmap Z PropertiesDataCollection) :
  foldl (fun m prop => <[p_objectid prop := prop]> m) m props !! k = Some r ->
  (r ∈ props /\ p_objectid r = k) \/ m !! k = Some r.
Proof.
  revert m. induction props as [|x props IH]; intros m H; [right; exact H|].
  cbn [foldl] in H. apply IH in H as [[Hr Hk]|H].
  - left. split; [right; exact Hr | exact Hk].
  - destruct (decide (p_objectid x = k)) as [E|E].
    + subst k. rewrite lookup_insert_eq in H. injection H as <-.
      left. split; [left | reflexivity].
    + rewrite lookup_insert_ne in H by exact E. right. exact H.
Qed.

(** With one record per id, the map holds exactly the records. *)
Lemma propertiesMap_lookup (k : Z) (r : PropertiesDataCollection)
  (props : list PropertiesDataCollection) :
  NoDup (map p_objectid props) ->
  propertiesMap props !! k = Some r <-> r ∈ props /\ p_objectid r = k.
Proof.
  intros Hnd. split.
  - intros H. apply set_all_lookup_Some in H as [H|H]; [exact H|].
    rewrite lookup_empty in H. discriminate.
  - intros [Hr <-]. apply list_elem_of_split in Hr as (before & after & ->).
    apply propertiesMap_last. intros x Hx E.
    rewrite map_app in Hnd. apply NoDup_app in Hnd as (_ & _ & Hnd).
    cbn [map] in Hnd. apply NoDup_cons in Hnd as [Hnotin _].
    apply Hnotin. rewrite <- E. apply list_elem_of_In, in_map, list_elem_of_In, Hx.
Qed.

(** X3: with one record per id, the order of the collection does not
    matter to the merge. *)
Theorem merge_order_irrelevant (T : list ObjectTreeData)
  (P P' : list PropertiesDataCollection) :
  NoDup (map p_objectid P) -> P ≡ₚ P' -> merge T P = merge T P'.
Proof.
  intros Hnd Hperm. unfold merge. f_equal.
  assert (Hnd' : NoDup (map p_objectid P')).
  { rewrite <- Hperm. exact Hnd. }
  apply map_eq. intros k.
  destruct (propertiesMap P !! k) as [r|] eqn:E.
  - symmetry. apply (propertiesMap_lookup k r P' Hnd').
    apply (propertiesMap_lookup k r P Hnd) in E as [Hr Hk].
    split; [rewrite <- Hperm; exact Hr | exact Hk].
  - destruct (propertiesMap P' !! k) as [r'|] eqn:E'; [|reflexivity].
    apply (propertiesMap_lookup k r' P' Hnd') in E' as [Hr Hk].
    assert (H : propertiesMap P !! k = Some r').
    { apply (propertiesMap_lookup k r' P Hnd). split; [rewrite Hperm; exact Hr | exact Hk]. }
    congruence.
Qed.

Lemma merge_order_irrelevant_witness :
  NoDup (map p_objectid [doorRecord; recordA]) /\
  [doorRecord; recordA] ≡ₚ [recordA; doorRecord] /\
  merge wallTree [doorRecord; recordA] = merge wallTree [recordA; doorRecord].
Proof.
  assert (H1 : NoDup (map p_objectid [doorRecord; recordA]))
    by (apply (bool_decide_unpack _); vm_compute; reflexivity).
  assert (H2 : [doorRecord; recordA] ≡ₚ [recordA; doorRecord]) by apply perm_swap.
  split; [exact H1|]. split; [exact H2|].
  exact (merge_order_irrelevant wallTree _ _ H1 H2).
Defined.

(** X4: the handler itself rejects, making no response, exactly when
    [getAuthTokens], which it awaits before its [try], rejects; it
    answers with an error exactly when there are no tokens (401) or a
    collaborator called inside the [try] rejects (500, with one fixed
    message); otherwise its [isProcessing] is the flag of
    [getAllProperties], and while that is set both lists of the answer
    are empty, whatever the collaborator has sent. *)
Theorem GET_answers (gw : Gateway) (region version_id view_guid : string) :
  match fst (GET gw region version_id view_guid) with
  | HandlerRejects error => getAuthTokens gw = Rejected error
  | JsonError message status =>
      (getAuthTokens gw = Resolved None /\ message = "Unauthorized" /\ status = 401)
      \/ (exists tokens,
            getAuthTokens gw = Resolved (Some tokens) /\
            message = "Failed to fetch all properties" /\ status = 500 /\
            let urn := Encoding.decode version_id in
            let token := internalToken_access_token tokens in
            ((exists e, getAllProperties gw urn view_guid region token = Rejected e)
             \/ (exists e allProperties,
                   getAllProperties gw urn view_guid region token = Resolved allProperties /\
                   ap_isProcessing allProperties = false /\
                   getObjectTree gw urn view_guid region token = Rejected e)))
  | JsonRes res =>
      exists tokens allProperties,
        getAuthTokens gw = Resolved (Some tokens) /\
        getAllProperties gw (Encoding.decode version_id) view_guid region
          (internalToken_access_token tokens) = Resolved allProperties /\
        isProcessing res = ap_isProcessing allProperties /\
        (isProcessing res = true ->
         res_properties res = [] /\ objectTreeWithProperties res = []) /\
        (isProcessing res = false ->
         res_properties res = ap_properties allProperties /\
         exists objectTree,
           getObjectTree gw (Encoding.decode version_id) view_guid region
             (internalToken_access_token tokens) = Resolved objectTree /\
           objectTreeWithProperties res = merge objectTree (ap_properties allProperties))
  end.
Proof.
  unfold GET. destruct (getAuthTokens gw) as [[tokens|]|error]; [|left; auto|reflexivity].
  destruct (getAllProperties gw _ _ _ _) as [allProperties|e] eqn:Hp.
  2:{ right. exists tokens. repeat split; try reflexivity. left. eauto. }
  destruct (ap_isProcessing allProperties) eqn:Hproc; cbn [negb].
  - cbn. exists tokens, allProperties. repeat split; auto; discriminate.
  - destruct (getObjectTree gw _ _ _ _) as [objectTree|e] eqn:Ho.
    + cbn. exists tokens, allProperties. repeat split; auto; try discriminate.
      exists objectTree. split; [exact Ho | reflexivity].
    + right. exists tokens. repeat split; try reflexivity. right. eauto.
Qed.

End MergeMore.

(** ** More on the poll *)

Section PollerMore.
Import Merge Poller Page.

(** The loop, entered when [j] more processing answers and then one
    that is not ok are to come: the body of that one is not read. *)
Lemma pollLoop_failure (url : string) (server : nat -> Fetched) (j : nat) :
  forall fuel attempts n h res,
    attempts + j < maxAttempts -> j < fuel ->
    (forall i, i < j -> continues (server (n + i))) ->
    server (n + j) = Answers res \/ (exists reason, server (n + j) = BodyRejects res reason) ->
    ok res = false ->
    run (pollLoop url fuel attempts) server n h
    = mkRun (setLoading false (setError (Some (failedMessage res)) h))
            (rounds url j ++ [EFetch url]) true.
Proof.
  intros fuel attempts n h res Hlt Hfuel Hgo Hres Hbad.
  replace fuel with (j + S (fuel - S j)) by lia.
  rewrite pollLoop_rounds by (try exact Hgo; lia).
  rewrite pollLoop_fetch by lia. cbn [run].
  destruct Hres as [-> | [reason ->]]; rewrite Hbad; reflexivity.
Qed.

(** The loop, entered when [j] more processing answers are to come and
    then a request that is rejected, or an answer that is ok with a
    body that cannot be read. *)
Lemma pollLoop_rejected (url : string) (server : nat -> Fetched) (j : nat) :
  forall fuel attempts n h reason,
    attempts + j < maxAttempts -> j < fuel ->
    (forall i, i < j -> continues (server (n + i))) ->
    server (n + j) = FetchRejects reason
    \/ (exists res, server (n + j) = BodyRejects res reason /\ ok res = true) ->
    run (pollLoop url fuel attempts) server n h
    = mkRun (setLoading false (setError (Some (errorMessage reason)) h))
            (rounds url j ++ [EFetch url]) true.
Proof.
  intros fuel attempts n h reason Hlt Hfuel Hgo Hres.
  replace fuel with (j + S (fuel - S j)) by lia.
  rewrite pollLoop_rounds by (try exact Hgo; lia).
  rewrite pollLoop_fetch by lia. cbn [run].
  destruct Hres as [-> | (res & -> & Hok)]; [reflexivity|].
  rewrite Hok. reflexivity.
Qed.

Lemma continues_dec (fetched : Fetched) : continues fetched \/ ~ continues fetched.
Proof.
  destruct fetched as [reason|res|res reason].
  - right. intros (r & E & _). discriminate.
  - destruct (ok res) eqn:Hok; [destruct (isProcessing (json res)) eqn:Hp|].
    + left. exists res. split; [reflexivity | split; assumption].
    + right. intros (r & E & _ & H). injection E as <-. congruence.
    + right. intros (r & E & H & _). injection E as <-. congruence.
  - right. intros (r & E & _). discriminate.
Qed.

(** Among the first [m] turns from the [n]-th on, all go on, or there
    is a first one that does not. *)
Lemma first_stop (server : nat -> Fetched) (n m : nat) :
  (forall i, i < m -> continues (server (n + i)))
  \/ exists j, j < m /\ (forall i, i < j -> continues (server (n + i)))
               /\ ~ continues (server (n + j)).
Proof.
  induction m as [|m IH]; [left; intros i Hi; lia|].
  destruct IH as [Hall|(j & Hj & Hbefore & Hat)].
  - destruct (continues_dec (server (n + m))) as [Hgo|Hstop].
    + left. intros i Hi. destruct (decide (i = m)) as [->|Hne]; [exact Hgo | apply Hall; lia].
    + right. exists m. split; [lia|]. split; assumption.
  - right. exists j. split; [lia|]. split; assumption.
Qed.

(** Every run of the loop is one of four. *)
Lemma pollLoop_cases (url : string) (server : nat -> Fetched)
  (fuel attempts n : nat) (h : HomeState) :
  attempts <= maxAttempts -> maxAttempts - attempts < fuel ->
  let r := run (pollLoop url fuel attempts) server n h in
  (exists j res, attempts + j < maxAttempts /\
                 (forall i, i < j -> continues (server (n + i))) /\
                 server (n + j) = Answers res /\ ready res /\
                 r = mkRun (setLoading false
                              (setObjectTree (objectTreeWithProperties (json res))
                                 (setProperties (res_properties (json res)) h)))
                           (rounds url j ++ [EFetch url]) true)
  \/ (exists j res, attempts + j < maxAttempts /\
                    (forall i, i < j -> continues (server (n + i))) /\
                    (server (n + j) = Answers res
                     \/ exists reason, server (n + j) = BodyRejects res reason) /\
                    ok res = false /\
                    r = mkRun (setLoading false (setError (Some (failedMessage res)) h))
                              (rounds url j ++ [EFetch url]) true)
  \/ (exists j reason, attempts + j < maxAttempts /\
                       (forall i, i < j -> continues (server (n + i))) /\
                       (server (n + j) = FetchRejects reason
                        \/ exists res, server (n + j) = BodyRejects res reason
                                       /\ ok res = true) /\
                       r = mkRun (setLoading false
                                    (setError (Some (errorMessage reason)) h))
                                 (rounds url j ++ [EFetch url]) true)
  \/ ((forall i, i < maxAttempts - attempts -> continues (server (n + i))) /\
      r = mkRun (setLoading false (setError (Some timeoutMessage) h))
                (rounds url (maxAttempts - attempts)) true).
Proof.
  intros Hle Hfuel r. subst r.
  destruct (first_stop server n (maxAttempts - attempts))
    as [Hall|(j & Hj & Hbefore & Hstop)].
  - right. right. right. split; [exact Hall|].
    apply pollLoop_timeout; [lia | lia | exact Hall].
  - destruct (server (n + j)) as [reason|res|res reason] eqn:Hat.
    + right. right. left. exists j, reason. split; [lia|]. split; [exact Hbefore|].
      split; [left; first [exact Hat | reflexivity]|].
      apply pollLoop_rejected; [lia | lia | exact Hbefore | left; exact Hat].
    + destruct (ok res) eqn:Hok.
      * left. exists j, res. split; [lia|]. split; [exact Hbefore|].
        split; [first [exact Hat | reflexivity]|].
        assert (Hready : ready res).
        { split; [exact Hok|]. destruct (isProcessing (json res)) eqn:Hp; [|reflexivity].
          destruct Hstop. exists res. split; [reflexivity | split; assumption]. }
        split; [exact Hready|].
        apply pollLoop_success; [lia | lia | exact Hbefore | exact Hat | exact Hready].
      * right. left. exists j, res. split; [lia|]. split; [exact Hbefore|].
        split; [left; first [exact Hat | reflexivity]|]. split; [exact Hok|].
        apply pollLoop_failure; [lia | lia | exact Hbefore | left; exact Hat | exact Hok].
    + destruct (ok res) eqn:Hok.
      * right. right. left. exists j, reason. split; [lia|]. split; [exact Hbefore|].
        split; [right; exists res; split; [first [exact Hat | reflexivity] | exact Hok]|].
        apply pollLoop_rejected; [lia | lia | exact Hbefore|].
        right. exists res. split; [exact Hat | exact Hok].
      * right. left. exists j, res. split; [lia|]. split; [exact Hbefore|].
        split; [right; exists reason; first [exact Hat | reflexivity]|]. split; [exact Hok|].
        apply pollLoop_failure; [lia | lia | exact Hbefore | | exact Hok].
        right. exists reason. exact Hat.
Qed.

Lemma waited_rounds (url : string) (k : nat) (rest : list Effect) (h : HomeState) (b : bool) :
  waited (mkRun h (rounds url k ++ rest) b) = (1000 * Z.of_nat k + waited (mkRun h rest b))%Z.
Proof.
  unfold waited, rounds. cbn [trace]. induction k as [|k IH]; [cbn; lia|].
  cbn [repeat concat]. cbn [app fold_right]. rewrite IH. lia.
Qed.

Lemma render_error (message : string) (h : HomeState) :
  render (setLoading false (setError (Some message) h)) <> Spinner.
Proof. unfold render. cbn. destruct (String.eqb message ""); discriminate. Qed.

(** X5: a response that is not ok ends the poll at once: after [k]
    processing answers and one that is not ok, [k + 1] requests have
    been sent, the error is the message with the status of that
    response, loading is off, and the data shown before is untouched. *)
Theorem poll_transport_error (k : nat) (server : nat -> Fetched) (res : FetchResponse)
  (h : HomeState) (type viewGuid itemUrn : string) :
  k <= 149 ->
  (forall i, i < k -> continues (server i)) ->
  server k = Answers res \/ (exists reason, server k = BodyRejects res reason) ->
  ok res = false ->
  let url := pollUrl (region h) (Encoding.encode itemUrn) viewGuid in
  let r := run (handleModelViewSelect (region h) type viewGuid itemUrn) server 0 h in
  finished r = true /\
  trace r = (rounds url k ++ [EFetch url])%list /\
  requests r = k + 1 /\
  error (final r) = Some (failedMessage res) /\
  isLoading (final r) = false /\
  properties (final r) = properties h /\
  objectTree (final r) = objectTree h /\
  render (final r) = ErrorPanel (failedMessage res).
Proof.
  intros Hk Hproc Hres Hbad url r. subst r.
  rewrite run_handleModelViewSelect.
  rewrite (pollLoop_failure _ server k (S maxAttempts) 0 0 _ res); cbn [Nat.add].
  - unfold requests. cbn [final trace finished]. rewrite requests_rounds.
    repeat (split; [reflexivity|]). unfold render. cbn.
    unfold failedMessage. reflexivity.
  - unfold maxAttempts. lia.
  - unfold maxAttempts. lia.
  - exact Hproc.
  - exact Hres.
  - exact Hbad.
Qed.

Lemma poll_transport_error_witness :
  let server := answering failsAfterTwo in
  let res := failsAfterTwo 2 in
  2 <= 149 /\
  (forall i, i < 2 -> continues (server i)) /\
  (server 2 = Answers res \/ (exists reason, server 2 = BodyRejects res reason)) /\
  ok res = false /\
  let url := pollUrl (region initialHome) (Encoding.encode "dXJuOkE/QQ") "guid-A" in
  let r := run (handleModelViewSelect (region initialHome) "view" "guid-A" "dXJuOkE/QQ")
             server 0 initialHome in
  finished r = true /\
  trace r = (rounds url 2 ++ [EFetch url])%list /\
  requests r = 2 + 1 /\
  error (final r) = Some (failedMessage res) /\
  isLoading (final r) = false /\
  properties (final r) = properties initialHome /\
  objectTree (final r) = objectTree initialHome /\
  render (final r) = ErrorPanel (failedMessage res).
Proof.
  intros server res.
  assert (H1 : 2 <= 149) by lia.
  assert (H2 : forall i, i < 2 -> continues (server i)).
  { intros i Hi. apply continues_answering.
    destruct i as [|[|i]]; [split; reflexivity | split; reflexivity | lia]. }
  assert (H3 : server 2 = Answers res \/ (exists reason, server 2 = BodyRejects res reason))
    by (left; reflexivity).
  assert (H4 : ok res = false) by reflexivity.
  split; [exact H1|]. split; [exact H2|]. split; [exact H3|]. split; [exact H4|].
  exact (poll_transport_error 2 server res initialHome "view" "guid-A" "dXJuOkE/QQ"
           H1 H2 H3 H4).
Defined.

(** X6: however the requests go, answered or not, the poll ends, with
    loading off, after at most 150 requests and at most 150 seconds of
    waiting, and the selection it was started for is the one recorded. *)
Theorem poll_bounds (server : nat -> Fetched) (h : HomeState)
  (type viewGuid itemUrn : string) :
  let r := run (handleModelViewSelect (region h) type viewGuid itemUrn) server 0 h in
  finished r = true /\
  1 <= requests r <= 150 /\
  (0 <= waited r <= 150000)%Z /\
  isLoading (final r) = false /\
  render (final r) <> Spinner /\
  selectedVersionId (final r) = Some (Encoding.encode itemUrn) /\
  region (final r) = region h.
Proof.
  intros r. subst r. rewrite run_handleModelViewSelect.
  destruct (pollLoop_cases (pollUrl (region h) (Encoding.encode itemUrn) viewGuid) server
              (S maxAttempts) 0 0
              (setSelectedVersionId (Some (Encoding.encode itemUrn))
                 (setError None (setLoading true h))))
    as [(j & res & Hj & _ & _ & _ & ->)|[(j & res & Hj & _ & _ & _ & ->)
        |[(j & reason & Hj & _ & _ & ->)|[_ ->]]]];
    try (unfold maxAttempts; lia).
  - unfold requests. rewrite waited_rounds. cbn [final trace finished].
    rewrite requests_rounds. unfold maxAttempts in Hj. cbn.
    repeat split; try reflexivity; try lia. discriminate.
  - unfold requests. rewrite waited_rounds. cbn [final trace finished].
    rewrite requests_rounds. unfold maxAttempts in Hj.
    split; [reflexivity|]. split; [cbn; lia|]. split; [cbn; lia|].
    split; [reflexivity|]. split; [apply render_error|]. split; reflexivity.
  - unfold requests. rewrite waited_rounds. cbn [final trace finished].
    rewrite requests_rounds. unfold maxAttempts in Hj.
    split; [reflexivity|]. split; [cbn; lia|]. split; [cbn; lia|].
    split; [reflexivity|]. split; [apply render_error|]. split; reflexivity.
  - unfold requests.
    rewrite <- (app_nil_r (rounds _ (maxAttempts - 0))), waited_rounds.
    cbn [final trace finished]. rewrite requests_rounds.
    change (maxAttempts - 0) with 150. cbn.
    repeat split; try reflexivity; try lia. discriminate.
Qed.

(** X7: every poll ends in one of four ways, the turns before the last
    all being answers that say "processing": with the data of the first
    answer that is complete; with the error made of the status of the
    first answer that is not ok; with the message of what a rejected
    [fetch], or the unreadable body of an ok answer, threw (a fixed
    text when that is no [Error]); or, after 150 answers that say
    "processing", with the timeout error.  In the three error cases
    the data shown before stays. *)
Theorem poll_outcomes (server : nat -> Fetched) (h : HomeState)
  (type viewGuid itemUrn : string) :
  let url := pollUrl (region h) (Encoding.encode itemUrn) viewGuid in
  let h0 := setSelectedVersionId (Some (Encoding.encode itemUrn))
              (setError None (setLoading true h)) in
  let r := run (handleModelViewSelect (region h) type viewGuid itemUrn) server 0 h in
  (exists j res, j < 150 /\
                 (forall i, i < j -> continues (server i)) /\
                 server j = Answers res /\ ready res /\
                 r = mkRun (setLoading false
                              (setObjectTree (objectTreeWithProperties (json res))
                                 (setProperties (res_properties (json res)) h0)))
                           (rounds url j ++ [EFetch url]) true)
  \/ (exists j res, j < 150 /\
                    (forall i, i < j -> continues (server i)) /\
                    (server j = Answers res
                     \/ exists reason, server j = BodyRejects res reason) /\
                    ok res = false /\
                    r = mkRun (setLoading false (setError (Some (failedMessage res)) h0))
                              (rounds url j ++ [EFetch url]) true)
  \/ (exists j reason, j < 150 /\
                       (forall i, i < j -> continues (server i)) /\
                       (server j = FetchRejects reason
                        \/ exists res, server j = BodyRejects res reason /\ ok res = true) /\
                       r = mkRun (setLoading false
                                    (setError (Some (errorMessage reason)) h0))
                                 (rounds url j ++ [EFetch url]) true)
  \/ ((forall i, i < 150 -> continues (server i)) /\
      r = mkRun (setLoading false (setError (Some timeoutMessage) h0))
                (rounds url 150) true).
Proof.
  intros url h0 r. subst r. rewrite run_handleModelViewSelect.
  exact (pollLoop_cases url server (S maxAttempts) 0 0 h0
           ltac:(unfold maxAttempts; lia) ltac:(unfold maxAttempts; lia)).
Qed.

(** A request that the network drops, and an answer whose body is no
    JSON. *)
Example poll_rejected_fetch :
  let offline := fun _ : nat => FetchRejects (ErrorOf "Failed to fetch") in
  let garbled := fun n : nat =>
                   if (n <? 1)%nat then Answers stillProcessing
                   else BodyRejects (mkFetchResponse true 200 "OK" (mkRes true [] []))
                          (ErrorOf "Unexpected token < in JSON at position 0") in
  let r1 := run (handleModelViewSelect "US" "view" "guid-A" "dXJuOkE/QQ") offline 0
              initialHome in
  let r2 := run (handleModelViewSelect "US" "view" "guid-A" "dXJuOkE/QQ") garbled 0
              initialHome in
  (error (final r1) = Some "Failed to fetch" /\ requests r1 = 1 /\
   isLoading (final r1) = false) /\
  (error (final r2) = Some "Unexpected token < in JSON at position 0" /\
   requests r2 = 2 /\ isLoading (final r2) = false).
Proof. repeat split; reflexivity. Qed.

End PollerMore.

(** ** Selection, list view and preferences of the page *)

Section PageFacts.
Import JsString Merge Poller Page.

Lemma find_first_match (k : Z) (before after : list PropertiesDataCollection)
  (A : PropertiesDataCollection) :
  p_objectid A = k ->
  (forall r, In r before -> p_objectid r <> k) ->
  List.find (fun item => Z.eqb (p_objectid item) k) (before ++ A :: after) = Some A.
Proof.
  intros HA Hbefore. induction before as [|x before IH]; cbn.
  - rewrite HA, Z.eqb_refl. reflexivity.
  - destruct (Z.eqb_spec (p_objectid x) k) as [E|E].
    + destruct (Hbefore x (or_introl eq_refl) E).
    + apply IH. intros r Hr. apply Hbefore. right. exact Hr.
Qed.

Lemma find_no_match (k : Z) (props : list PropertiesDataCollection) :
  (forall r, In r props -> p_objectid r <> k) ->
  List.find (fun item => Z.eqb (p_objectid item) k) props = None.
Proof.
  intros H. induction props as [|x props IH]; [reflexivity|]. cbn.
  destruct (Z.eqb_spec (p_objectid x) k) as [E|E].
  - destruct (H x (or_introl eq_refl) E).
  - apply IH. intros r Hr. apply H. right. exact Hr.
Qed.

(** X8: selecting an id that no record of the list has changes nothing. *)
Theorem select_unknown_id (k : Z) (p : PageState) :
  (forall r, In r (properties (home p)) -> p_objectid r <> k) ->
  handleObjectSelect k p = p.
Proof.
  intros H. unfold handleObjectSelect. rewrite (find_no_match k _ H). reflexivity.
Qed.

Lemma select_unknown_id_witness :
  let p := setHome (setProperties [recordA; recordB] initialHome) initialPage in
  (forall r, In r (properties (home p)) -> p_objectid r <> 2%Z) /\
  handleObjectSelect 2 p = p.
Proof.
  assert (H : forall r,
             In r (properties (home (setHome (setProperties [recordA; recordB] initialHome)
                                       initialPage))) -> p_objectid r <> 2%Z).
  { intros r Hr. cbn in Hr. destruct Hr as [<-|[<-|[]]]; discriminate. }
  split; [exact H | exact (select_unknown_id 2 _ H)].
Defined.

(** X9: when several records share an id, selecting that id opens the first
    of them, while the nodes of the tree with that id carry the
    properties of the last of them. *)
Theorem duplicates_first_selected_last_attached (p : PageState) (T : list ObjectTreeData)
  (before after before' after' : list PropertiesDataCollection)
  (A B : PropertiesDataCollection) :
  properties (home p) = (before ++ A :: after)%list ->
  (forall r, In r before -> p_objectid r <> p_objectid A) ->
  properties (home p) = (before' ++ B :: after')%list ->
  (forall r, In r after' -> p_objectid r <> p_objectid B) ->
  p_objectid A = p_objectid B ->
  objectTree (home p) = merge T (properties (home p)) ->
  selectedObject (handleObjectSelect (p_objectid A) p) = Some A /\
  showSidebar (handleObjectSelect (p_objectid A) p) = true /\
  Forall2 (fun n n' =>
             objectid n = p_objectid A -> Merge.properties n' = Some (p_properties B))
          (allNodes T) (allNodes (objectTree (home p))).
Proof.
  intros Hfirst Hbefore Hlast Hafter Hid Htree.
  unfold handleObjectSelect. rewrite Hfirst.
  rewrite (find_first_match (p_objectid A) before after A eq_refl Hbefore).
  split; [reflexivity|]. split; [reflexivity|].
  rewrite Htree, Hlast. unfold merge.
  eapply Forall2_impl; [apply attachProperties_nodes|].
  cbn beta. intros n n' (_ & _ & _ & Hprops) Hn.
  rewrite Hprops, Hn, Hid.
  rewrite (propertiesMap_last before' after' B); [reflexivity|].
  intros r Hr. apply Hafter, list_elem_of_In, Hr.
Qed.

Lemma duplicates_first_selected_last_attached_witness :
  let T := [mkObject 5 "Pipe" None None] in
  let p := setHome (setObjectTree (merge T [recordA; recordB])
                      (setProperties [recordA; recordB] initialHome)) initialPage in
  properties (home p) = ([] ++ recordA :: [recordB])%list /\
  (forall r, In r [] -> p_objectid r <> p_objectid recordA) /\
  properties (home p) = ([recordA] ++ recordB :: [])%list /\
  (forall r, In r [] -> p_objectid r <> p_objectid recordB) /\
  p_objectid recordA = p_objectid recordB /\
  objectTree (home p) = merge T (properties (home p)) /\
  selectedObject (handleObjectSelect (p_objectid recordA) p) = Some recordA /\
  showSidebar (handleObjectSelect (p_objectid recordA) p) = true /\
  Forall2 (fun n n' =>
             objectid n = p_objectid recordA -> Merge.properties n' = Some (p_properties recordB))
          (allNodes T) (allNodes (objectTree (home p))).
Proof.
  assert (H0 : forall (k : Z) (r : PropertiesDataCollection), In r [] -> p_objectid r <> k)
    by (intros k r []).
  split; [reflexivity|]. split; [exact (H0 _)|]. split; [reflexivity|].
  split; [exact (H0 _)|]. split; [reflexivity|]. split; [reflexivity|].
  exact (duplicates_first_selected_last_attached
           (setHome (setObjectTree (merge [mkObject 5 "Pipe" None None] [recordA; recordB])
                       (setProperties [recordA; recordB] initialHome)) initialPage)
           [mkObject 5 "Pipe" None None] [] [recordB] [recordA] [] recordA recordB
           eq_refl (H0 _) eq_refl (H0 _) eq_refl eq_refl).
Defined.

(** *** Sorting *)

Section SortFacts.
Context {A : Type} (compare : A -> A -> comparison).

Lemma insertSorted_permutation (x : A) (l : list A) :
  insertSorted compare x l ≡ₚ x :: l.
Proof.
  induction l as [|y l IH]; [reflexivity|]. cbn.
  destruct (compare x y); try reflexivity.
  rewrite IH. apply perm_swap.
Qed.

Lemma sort_permutation (l : list A) : sort compare l ≡ₚ l.
Proof.
  induction l as [|x l IH]; [reflexivity|]. cbn [sort fold_right].
  change (fold_right (insertSorted compare) [] l) with (sort compare l).
  rewrite insertSorted_permutation, IH. reflexivity.
Qed.

Hypothesis compare_total : forall a b, compare a b = Gt -> compare b a <> Gt.

Lemma insertSorted_sorted (x : A) (l : list A) :
  Sorted (fun a b => compare a b <> Gt) l ->
  Sorted (fun a b => compare a b <> Gt) (insertSorted compare x l).
Proof.
  induction 1 as [|y l Hl IH Hhd]; cbn.
  - repeat constructor.
  - destruct (compare x y) eqn:E.
    + repeat constructor; auto. congruence.
    + repeat constructor; auto. congruence.
    + constructor; [exact IH|].
      destruct l as [|z l]; cbn.
      * constructor. apply compare_total, E.
      * destruct (compare x z); constructor;
          try (apply compare_total, E); inversion Hhd; assumption.
Qed.

Lemma sort_sorted (l : list A) : Sorted (fun a b => compare a b <> Gt) (sort compare l).
Proof.
  induction l as [|x l IH]; [constructor|]. cbn [sort fold_right].
  apply insertSorted_sorted, IH.
Qed.

Hypothesis compare_trans :
  forall a b c, compare a b <> Gt -> compare b c <> Gt -> compare a c <> Gt.

(** For a comparison that is an order, every element of the result
    stands before all those that it is not put after. *)
Lemma sort_strongly_sorted (l : list A) :
  StronglySorted (fun a b => compare a b <> Gt) (sort compare l).
Proof.
  apply Sorted_StronglySorted; [|apply sort_sorted].
  intros a b c. apply compare_trans.
Qed.

End SortFacts.

(** The comparison of strings byte by byte is an order. *)
Lemma String_compare_total (a b : string) :
  String.compare a b = Gt -> String.compare b a <> Gt.
Proof. intros E. rewrite String.compare_antisym, E. discriminate. Qed.

Lemma String_compare_trans (a b c : string) :
  String.compare a b <> Gt -> String.compare b c <> Gt -> String.compare a c <> Gt.
Proof.
  intros Hab Hbc.
  destruct (String.compare a b) eqn:Eab; [| |congruence].
  - apply String.compare_eq_iff in Eab. subst b. exact Hbc.
  - destruct (String.compare b c) eqn:Ebc; [| |congruence].
    + apply String.compare_eq_iff in Ebc. subst c. rewrite Eab. discriminate.
    + apply OrderedTypeEx.String_as_OT.cmp_lt in Eab, Ebc.
      pose proof (OrderedTypeEx.String_as_OT.lt_trans _ _ _ Eab Ebc) as Hac.
      apply OrderedTypeEx.String_as_OT.cmp_lt in Hac.
      unfold OrderedTypeEx.String_as_OT.cmp in Hac. rewrite Hac. discriminate.
Qed.

(** X10: when [localeCompare] is an order on the names (it never puts each
    of two names after the other, and what it does not put after is
    transitive), the list view shows exactly the records that match the
    query, each as often as it is in the collection, in an order in
    which no record stands anywhere before one that the comparison puts
    before it: every record is followed only by records it is not put
    after.  Sorted by id, the ids never decrease.  With an empty query
    all records are shown. *)
Theorem list_view_content (toLowerCase : string -> string)
  (localeCompare : string -> string -> comparison) (p : PageState) :
  (forall a b, localeCompare a b = Gt -> localeCompare b a <> Gt) ->
  (forall a b c, localeCompare a b <> Gt -> localeCompare b c <> Gt ->
                 localeCompare a c <> Gt) ->
  let shown := filteredSortedData toLowerCase localeCompare p in
  shown ≡ₚ List.filter (matchesQuery toLowerCase (searchQuery p)) (properties (home p)) /\
  (forall item, In item shown <->
                In item (properties (home p)) /\
                matchesQuery toLowerCase (searchQuery p) item = true) /\
  StronglySorted (fun a b => compareItems localeCompare (sortKey p) a b <> Gt) shown /\
  (sortKey p = ByObjectid -> StronglySorted Z.le (map p_objectid shown)) /\
  (searchQuery p = "" -> shown ≡ₚ properties (home p)).
Proof.
  intros Htotal Htrans shown.
  assert (Hperm : shown ≡ₚ List.filter (matchesQuery toLowerCase (searchQuery p))
                           (properties (home p))) by apply sort_permutation.
  assert (Hcmp : forall a b, compareItems localeCompare (sortKey p) a b = Gt ->
                             compareItems localeCompare (sortKey p) b a <> Gt).
  { intros a b. unfold compareItems. destruct (sortKey p); [apply Htotal|].
    rewrite !Z.compare_gt_iff. lia. }
  assert (Hcmp3 : forall a b c,
             compareItems localeCompare (sortKey p) a b <> Gt ->
             compareItems localeCompare (sortKey p) b c <> Gt ->
             compareItems localeCompare (sortKey p) a c <> Gt).
  { intros a b c. unfold compareItems. destruct (sortKey p); [apply Htrans|].
    rewrite !Z.compare_le_iff. lia. }
  assert (Hsorted : StronglySorted
                      (fun a b => compareItems localeCompare (sortKey p) a b <> Gt) shown)
    by (apply sort_strongly_sorted; [exact Hcmp | exact Hcmp3]).
  split; [exact Hperm|]. split.
  { intros item. rewrite <- filter_In. split; intros H.
    - apply list_elem_of_In. rewrite <- Hperm. apply list_elem_of_In, H.
    - apply list_elem_of_In. rewrite Hperm. apply list_elem_of_In, H. }
  split; [exact Hsorted|]. split.
  - intros Hkey. clear Hperm. induction Hsorted as [|a l Hl IH Hall]; [constructor|].
    cbn [map]. constructor; [exact IH|].
    apply List.Forall_map. revert Hall. apply List.Forall_impl. intros b Hab.
    unfold compareItems in Hab. rewrite Hkey in Hab.
    apply Z.compare_le_iff, Hab.
  - intros Hq. rewrite Hperm, Hq.
    rewrite forallb_filter_id; [reflexivity|].
    apply forallb_forall. intros item _. unfold matchesQuery.
    apply orb_true_iff. right. destruct (showZ (p_objectid item)); reflexivity.
Qed.

Lemma list_view_content_witness :
  let p := mkPage (setProperties [recordA; doorRecord; recordB] initialHome)
             "5" ByObjectid None true "list" in
  let shown := filteredSortedData (fun s => s) String.compare p in
  (forall a b, String.compare a b = Gt -> String.compare b a <> Gt) /\
  (forall a b c, String.compare a b <> Gt -> String.compare b c <> Gt ->
                 String.compare a c <> Gt) /\
  shown = [recordA; recordB] /\
  shown ≡ₚ List.filter (matchesQuery (fun s => s) (searchQuery p)) (properties (home p)) /\
  (forall item, In item shown <->
                In item (properties (home p)) /\
                matchesQuery (fun s => s) (searchQuery p) item = true) /\
  StronglySorted (fun a b => compareItems String.compare (sortKey p) a b <> Gt) shown /\
  (sortKey p = ByObjectid -> StronglySorted Z.le (map p_objectid shown)) /\
  (searchQuery p = "" -> shown ≡ₚ properties (home p)).
Proof.
  split; [exact String_compare_total|]. split; [exact String_compare_trans|].
  split; [reflexivity|].
  exact (list_view_content (fun s => s) String.compare
           (mkPage (setProperties [recordA; doorRecord; recordB] initialHome)
              "5" ByObjectid None true "list") String_compare_total String_compare_trans).
Defined.

(** *** Preferences *)

(** X11: a region or view chosen on the page is what a later mount of the
    page starts with, unless it is the empty string; and choosing one
    of the two leaves the stored other as it was. *)
Theorem preferences_restored (value : string) (st : PageState * gmap string string) :
  let afterRegion := mountEffect (initialPage, snd (handleServerChange value st)) in
  let afterView := mountEffect (initialPage, snd (handleViewChange value st)) in
  region (home (fst afterRegion)) = (if String.eqb value "" then "US" else value) /\
  viewType (fst afterView) = (if String.eqb value "" then "tree" else value) /\
  stored (snd (handleServerChange value st)) "preferredViewType"
  = stored (snd st) "preferredViewType" /\
  stored (snd (handleViewChange value st)) "preferredRegion"
  = stored (snd st) "preferredRegion".
Proof.
  cbv zeta. unfold mountEffect, handleServerChange, handleViewChange, stored.
  cbn [fst snd]. rewrite !lookup_insert_eq.
  rewrite !lookup_insert_ne by discriminate.
  destruct (String.eqb value ""); repeat split;
    destruct (snd st !! "preferredViewType") as [v|];
    destruct (snd st !! "preferredRegion") as [w|];
    try destruct (String.eqb v ""); try destruct (String.eqb w ""); reflexivity.
Qed.

End PageFacts.

(** ** More on the navigation tree *)

Section NavigationFacts.
Import JsString Sidebar Navigation.

(** *** Searching and updating *)

Lemma find_app {A : Type} (f : A -> bool) (l1 l2 : list A) :
  List.find f (l1 ++ l2)
  = match List.find f l1 with Some x => Some x | None => List.find f l2 end.
Proof.
  induction l1 as [|x l1 IH]; [reflexivity|]. cbn. destruct (f x); [reflexivity | exact IH].
Qed.

Lemma firstFound_flat_map (target : string) (cs : list TreeNode) :
  Forall (fun c => findIn target c
                   = List.find (fun n => String.eqb (id n) target) (nodesOf c)) cs ->
  firstFound (findIn target) cs
  = List.find (fun n => String.eqb (id n) target) (flat_map nodesOf cs).
Proof.
  induction 1 as [|c cs Hc _ IH]; [reflexivity|].
  cbn [firstFound flat_map]. rewrite find_app, Hc, IH. reflexivity.
Qed.

Lemma findIn_find (target : string) (n : TreeNode) :
  findIn target n = List.find (fun x => String.eqb (id x) target) (nodesOf n).
Proof.
  induction n as [i nm ty cs o l p IH] using TreeNode_tree_ind.
  cbn [findIn nodesOf List.find id children].
  destruct (String.eqb i target); [reflexivity|].
  destruct cs as [c|]; [|reflexivity]. apply firstFound_flat_map, IH.
Qed.

Lemma findNode_find (nodes : list TreeNode) (target : string) :
  findNode nodes target
  = List.find (fun n => String.eqb (id n) target) (allNodes nodes).
Proof.
  unfold findNode, allNodes. apply firstFound_flat_map, Forall_forall.
  intros n _. apply findIn_find.
Qed.

(** X12: [findNode] gives the first node with the id, parents before
    children and siblings in order; it gives none exactly when no node
    has the id. *)
Theorem findNode_first (nodes : list TreeNode) (target : string) :
  findNode nodes target
  = List.find (fun n => String.eqb (id n) target) (allNodes nodes) /\
  (findNode nodes target = None <-> forall n, In n (allNodes nodes) -> id n <> target) /\
  (forall n, findNode nodes target = Some n -> id n = target /\ In n (allNodes nodes)).
Proof.
  pose proof (findNode_find nodes target) as H.
  split; [exact H|]. rewrite H. split.
  - split.
    + intros Hnone n Hn E. apply (find_none _ _ Hnone) in Hn.
      apply String.eqb_neq in Hn. contradiction.
    + intros Hall. destruct (List.find _ _) as [n|] eqn:E; [|reflexivity].
      apply find_some in E as [Hn E]. apply String.eqb_eq in E.
      destruct (Hall n Hn E).
  - intros n E. apply find_some in E as [Hn E]. apply String.eqb_eq in E. auto.
Qed.

Lemma updateIn_absent (target : string) (updates : Updates) (n : TreeNode) :
  (forall x, In x (nodesOf n) -> id x <> target) -> updateIn target updates n = n.
Proof.
  induction n as [i nm ty cs o l p IH] using TreeNode_tree_ind. intros H.
  pose proof (H _ (or_introl eq_refl)) as Hi. cbn [id] in Hi.
  cbn [updateIn id children]. destruct (String.eqb_spec i target); [congruence|].
  destruct cs as [c|]; [|reflexivity].
  unfold withChildren. cbn. f_equal. f_equal.
  assert (Hc : Forall (fun x => forall y, In y (nodesOf x) -> id y <> target) c).
  { apply Forall_forall. intros x Hx y Hy. apply H. right. apply in_flat_map.
    exists x. split; [apply list_elem_of_In, Hx | exact Hy]. }
  clear H. induction IH as [|x c Hx _ IHc]; [reflexivity|].
  inversion Hc; subst. cbn. f_equal; auto.
Qed.

(** X13: an update for an id that no node has gives the same forest. *)
Theorem updateNode_absent (nodes : list TreeNode) (target : string) (updates : Updates) :
  (forall n, In n (allNodes nodes) -> id n <> target) ->
  updateNode nodes target updates = nodes.
Proof.
  intros H. unfold updateNode.
  induction nodes as [|x nodes IH]; [reflexivity|]. cbn. f_equal.
  - apply updateIn_absent. intros y Hy. apply H. rewrite allNodes_cons.
    apply in_or_app. left. exact Hy.
  - apply IH. intros y Hy. apply H. rewrite allNodes_cons. apply in_or_app. right. exact Hy.
Qed.

Lemma updateNode_absent_witness :
  (forall n, In n (allNodes sampleForest) -> id n <> "hub|h3") /\
  updateNode sampleForest "hub|h3" (onlyIsOpen true) = sampleForest.
Proof.
  assert (H : forall n, In n (allNodes sampleForest) -> id n <> "hub|h3").
  { intros n Hn. cbn in Hn. destruct Hn as [<-|[<-|[<-|[<-|[]]]]]; discriminate. }
  split; [exact H | exact (updateNode_absent sampleForest "hub|h3" (onlyIsOpen true) H)].
Defined.

(** *** Sorting by name *)

Lemma sortNodesByName_sort (localeCompare : string -> string -> comparison)
  (nodes : list TreeNode) :
  sortNodesByName localeCompare nodes
  = Page.sort (fun a b => localeCompare (name a) (name b)) nodes.
Proof.
  unfold sortNodesByName, Page.sort. induction nodes as [|x nodes IH]; [reflexivity|].
  cbn [fold_right]. rewrite IH. reflexivity.
Qed.

(** X14: when [localeCompare] is an order on the names (it never puts each
    of two names after the other, and what it does not put after is
    transitive), [sortNodesByName] keeps every node, each as often as it
    was given, and puts no node anywhere before one whose name compares
    smaller: every node is followed only by nodes whose names it is not
    put after. *)
Theorem sortNodesByName_sorted (localeCompare : string -> string -> comparison)
  (nodes : list TreeNode) :
  (forall a b, localeCompare a b = Gt -> localeCompare b a <> Gt) ->
  (forall a b c, localeCompare a b <> Gt -> localeCompare b c <> Gt ->
                 localeCompare a c <> Gt) ->
  sortNodesByName localeCompare nodes ≡ₚ nodes /\
  length (sortNodesByName localeCompare nodes) = length nodes /\
  StronglySorted (fun a b => localeCompare (name a) (name b) <> Gt)
    (sortNodesByName localeCompare nodes).
Proof.
  intros Htotal Htrans. rewrite sortNodesByName_sort.
  assert (Hperm : Page.sort (fun a b => localeCompare (name a) (name b)) nodes ≡ₚ nodes)
    by apply sort_permutation.
  split; [exact Hperm|]. split; [rewrite Hperm; reflexivity|].
  apply sort_strongly_sorted.
  - intros a b. apply Htotal.
  - intros a b c. apply Htrans.
Qed.

Lemma sortNodesByName_sorted_witness :
  (forall a b, String.compare a b = Gt -> String.compare b a <> Gt) /\
  (forall a b c, String.compare a b <> Gt -> String.compare b c <> Gt ->
                 String.compare a c <> Gt) /\
  sortNodesByName String.compare
    [closedNode "hub|h2" "Beta" THub; closedNode "hub|h1" "Alpha" THub;
     closedNode "hub|h3" "Beta" THub]
  = [closedNode "hub|h1" "Alpha" THub; closedNode "hub|h2" "Beta" THub;
     closedNode "hub|h3" "Beta" THub] /\
  sortNodesByName String.compare sampleForest ≡ₚ sampleForest /\
  length (sortNodesByName String.compare sampleForest) = length sampleForest /\
  StronglySorted (fun a b => String.compare (name a) (name b) <> Gt)
    (sortNodesByName String.compare sampleForest).
Proof.
  split; [exact String_compare_total|]. split; [exact String_compare_trans|].
  split; [reflexivity|].
  exact (sortNodesByName_sorted String.compare sampleForest
           String_compare_total String_compare_trans).
Defined.

(** *** Ids and what is asked for *)

Lemma append_assoc (a b c : string) : ((a ++ b) ++ c = a ++ (b ++ c))%string.
Proof.
  induction a as [|x a IH]; [reflexivity|].
  change (String x ((a ++ b) ++ c) = String x (a ++ (b ++ c))). rewrite IH. reflexivity.
Qed.

Lemma append_one (a : string) (c : ascii) (b : string) :
  ((a ++ String c EmptyString) ++ b = a ++ String c b)%string.
Proof. rewrite append_assoc. reflexivity. Qed.

Lemma split_acc_plain (sep : ascii) (a cur : string) :
  Forall (fun c => c <> sep) (chars a) ->
  split_acc sep cur a = [(cur ++ a)%string].
Proof.
  revert cur. induction a as [|x a IH]; intros cur H.
  - cbn. f_equal. induction cur as [|y cur IHc]; [reflexivity|].
    change (String y cur = String y (cur ++ "")). rewrite <- IHc. reflexivity.
  - inversion H as [|? ? Hx Ha]; subst. cbn [split_acc].
    destruct (Ascii.eqb_spec x sep); [contradiction|].
    rewrite (IH _ Ha), append_one. reflexivity.
Qed.

Lemma split_acc_app (sep : ascii) (a cur rest : string) :
  Forall (fun c => c <> sep) (chars a) ->
  split_acc sep cur (a ++ String sep rest) = (cur ++ a)%string :: split_acc sep "" rest.
Proof.
  revert cur. induction a as [|x a IH]; intros cur H.
  - change (split_acc sep cur (String sep rest) = (cur ++ "")%string :: split_acc sep "" rest).
    cbn [split_acc]. rewrite Ascii.eqb_refl. f_equal.
    induction cur as [|y cur IHc]; [reflexivity|].
    change (String y cur = String y (cur ++ "")). rewrite <- IHc. reflexivity.
  - inversion H as [|? ? Hx Ha]; subst.
    change (split_acc sep cur (String x (a ++ String sep rest))
            = (cur ++ String x a)%string :: split_acc sep "" rest).
    cbn [split_acc]. destruct (Ascii.eqb_spec x sep); [contradiction|].
    rewrite (IH _ Ha), append_one. reflexivity.
Qed.

Lemma noPipe_literal (s : string) :
  forallb (fun c => negb (Ascii.eqb c "|")) (chars s) = true -> noPipe s.
Proof.
  unfold noPipe. induction s as [|c s IH]; cbn; [constructor|].
  intros H. apply andb_prop in H as [Hc Hs]. constructor; [|apply IH, Hs].
  intros ->. discriminate.
Qed.

(** The id of a key falls apart into the kind and the parts of the key. *)
Lemma split_keyId (key : NodeKey) :
  pipeFree key ->
  split (keyId key) "|"
  = match key with
    | KHub h => ["hub"; h]
    | KProject h p => ["project"; h; p]
    | KFolder h p f => ["folder"; h; p; f]
    | KItem h p i => ["item"; h; p; i]
    | KVersion v => ["version"; v]
    end.
Proof.
  unfold split. destruct key as [h|h p|h p f|h p i|v]; cbn [pipeFree keyId].
  - intros Hh.
    change ("hub|" ++ h)%string with ("hub" ++ String "|" h)%string.
    rewrite split_acc_app by (apply noPipe_literal; reflexivity).
    rewrite (split_acc_plain _ h "" Hh). reflexivity.
  - intros [Hh Hp].
    change ("project|" ++ h ++ "|" ++ p)%string
      with ("project" ++ String "|" (h ++ String "|" p))%string.
    rewrite split_acc_app by (apply noPipe_literal; reflexivity).
    rewrite (split_acc_app _ h "" p Hh), (split_acc_plain _ p "" Hp). reflexivity.
  - intros (Hh & Hp & Hf).
    change ("folder|" ++ h ++ "|" ++ p ++ "|" ++ f)%string
      with ("folder" ++ String "|" (h ++ String "|" (p ++ String "|" f)))%string.
    rewrite split_acc_app by (apply noPipe_literal; reflexivity).
    rewrite (split_acc_app _ h "" _ Hh), (split_acc_app _ p "" f Hp),
      (split_acc_plain _ f "" Hf). reflexivity.
  - intros (Hh & Hp & Hi).
    change ("item|" ++ h ++ "|" ++ p ++ "|" ++ i)%string
      with ("item" ++ String "|" (h ++ String "|" (p ++ String "|" i)))%string.
    rewrite split_acc_app by (apply noPipe_literal; reflexivity).
    rewrite (split_acc_app _ h "" _ Hh), (split_acc_app _ p "" i Hp),
      (split_acc_plain _ i "" Hi). reflexivity.
  - intros Hv.
    change ("version|" ++ v)%string with ("version" ++ String "|" v)%string.
    rewrite split_acc_app by (apply noPipe_literal; reflexivity).
    rewrite (split_acc_plain _ v "" Hv). reflexivity.
Qed.

Section Requests.
Variable region : string.
Variable localeCompare : string -> string -> comparison.

Lemma toggleNode_request (t : list TreeNode) (key : NodeKey) (node : TreeNode) :
  pipeFree key ->
  findNode t (keyId key) = Some node ->
  truthy (isOpen node) = false ->
  noChildren node = true ->
  requestOf (snd (advance (toggleNode region localeCompare t (keyId key)) t))
  = Some (keyRequest region key).
Proof.
  intros Hkey Hf Ho Hc. unfold toggleNode. rewrite Hf, Ho, Hc. cbv zeta.
  rewrite (split_keyId key Hkey). destruct key; reflexivity.
Qed.

(** X15: the ids that the expansion of a parent gives its children are read
    back part by part: a call of [toggleNode] on the closed, empty node
    of a key whose parts hold no ["|"] asks the route of that key, with
    those parts, for what is below it. *)
Theorem toggle_request (t : list TreeNode) (key : NodeKey) (node : TreeNode) :
  pipeFree key ->
  findNode t (keyId key) = Some node ->
  truthy (isOpen node) = false ->
  noChildren node = true ->
  requestOf (snd (advance (toggleNode region localeCompare t (keyId key)) t))
  = Some (keyRequest region key) /\
  fst (advance (toggleNode region localeCompare t (keyId key)) t)
  = updateNode t (keyId key) (onlyIsLoading true).
Proof.
  intros Hkey Hf Ho Hc. split; [apply (toggleNode_request t key node); assumption|].
  unfold toggleNode. rewrite Hf, Ho, Hc. cbv zeta.
  rewrite (split_keyId key Hkey). destruct key; reflexivity.
Qed.

End Requests.

Lemma toggle_request_witness :
  let key := KProject "h1" "p2" in
  let node := closedNode "project|h1|p2" "Tower" TProject in
  pipeFree key /\
  findNode sampleForest (keyId key) = Some node /\
  truthy (isOpen node) = false /\
  noChildren node = true /\
  requestOf (snd (advance (toggleNode "US" String.compare sampleForest (keyId key))
                    sampleForest))
  = Some (ReqContents "/api/hubs/h1/projects/p2/contents") /\
  requestOf (snd (advance (toggleNode "US" String.compare sampleForest (keyId key))
                    sampleForest))
  = Some (keyRequest "US" key) /\
  fst (advance (toggleNode "US" String.compare sampleForest (keyId key)) sampleForest)
  = updateNode sampleForest (keyId key) (onlyIsLoading true).
Proof.
  assert (H1 : pipeFree (KProject "h1" "p2"))
    by (split; apply noPipe_literal; reflexivity).
  split; [exact H1|]. split; [reflexivity|]. split; [reflexivity|].
  split; [reflexivity|]. split; [reflexivity|].
  exact (toggle_request "US" String.compare sampleForest (KProject "h1" "p2") _
           H1 eq_refl eq_refl eq_refl).
Defined.

(** *** The first load *)

Lemma allNodes_leaves (tree : list TreeNode) :
  Forall (fun n => kids n = []) tree -> allNodes tree = tree.
Proof.
  induction 1 as [|n tree Hn _ IH]; [reflexivity|].
  rewrite allNodes_cons, nodesOf_kids, Hn, IH. reflexivity.
Qed.

Lemma fetchHubs_failed (localeCompare : string -> string -> comparison)
  (response : Resp (list Hub)) (tree : list TreeNode) :
  ok response = false -> fetchHubs localeCompare response tree = (tree, false).
Proof. intros H. unfold fetchHubs. rewrite H. reflexivity. Qed.

(** X16: after the hubs have come, the tree holds one closed node per hub,
    and a click on the node of a hub whose id holds no ["|"] asks for
    the projects of that hub. *)
Theorem hubs_loaded (region : string) (localeCompare : string -> string -> comparison)
  (response : Resp (list Hub)) (old : list TreeNode) :
  ok response = true ->
  let tree := fst (fetchHubs localeCompare response old) in
  snd (fetchHubs localeCompare response old) = false /\
  tree ≡ₚ map hubNode (json response) /\
  forall hub, In hub (json response) -> noPipe (hub_id hub) ->
    requestOf (snd (advance (toggleNode region localeCompare tree ("hub|" ++ hub_id hub)) tree))
    = Some (ReqProjects ("/api/hubs/" ++ hub_id hub ++ "/projects")).
Proof.
  intros Hok tree. subst tree. unfold fetchHubs. rewrite Hok. cbn [fst snd].
  set (tree := sortNodesByName localeCompare (map hubNode (json response))).
  assert (Hperm : tree ≡ₚ map hubNode (json response)).
  { subst tree. rewrite sortNodesByName_sort. apply sort_permutation. }
  split; [reflexivity|]. split; [exact Hperm|].
  assert (Hhub : forall n, In n tree -> exists h, n = hubNode h).
  { intros n Hn. apply list_elem_of_In in Hn. rewrite Hperm in Hn.
    apply list_elem_of_In, in_map_iff in Hn as (h & <- & _). eauto. }
  assert (Hflat : allNodes tree = tree).
  { apply allNodes_leaves, Forall_forall. intros n Hn.
    apply list_elem_of_In, Hhub in Hn as (h & ->). reflexivity. }
  intros hub Hin Hpipe.
  destruct (findNode tree ("hub|" ++ hub_id hub)) as [node|] eqn:Hf.
  - assert (Hnode : In node tree).
    { rewrite findNode_find, Hflat in Hf. apply find_some in Hf as [Hn _]. exact Hn. }
    apply Hhub in Hnode as (h & ->).
    exact (toggleNode_request region localeCompare tree (KHub (hub_id hub)) (hubNode h)
             Hpipe Hf eq_refl eq_refl).
  - exfalso. rewrite findNode_find, Hflat in Hf.
    assert (Hn : In (hubNode hub) tree).
    { apply list_elem_of_In. rewrite Hperm. apply list_elem_of_In, in_map, Hin. }
    apply (find_none _ _ Hf) in Hn. cbn [hubNode id] in Hn.
    rewrite String.eqb_refl in Hn. discriminate.
Qed.

Lemma hubs_loaded_witness :
  let response := mkResp true 200 sampleHubs in
  let tree := fst (fetchHubs String.compare response []) in
  ok response = true /\
  tree = [closedNode "hub|b.1" "Alpha" THub; closedNode "hub|b.2" "Beta" THub] /\
  snd (fetchHubs String.compare response []) = false /\
  tree ≡ₚ map hubNode (json response) /\
  forall hub, In hub (json response) -> noPipe (hub_id hub) ->
    requestOf (snd (advance (toggleNode "US" String.compare tree ("hub|" ++ hub_id hub)) tree))
    = Some (ReqProjects ("/api/hubs/" ++ hub_id hub ++ "/projects")).
Proof.
  split; [reflexivity|]. split; [reflexivity|].
  exact (hubs_loaded "US" String.compare (mkResp true 200 sampleHubs) [] eq_refl).
Defined.

(** *** Answers *)

Section Answers.
Variable region : string.
Variable localeCompare : string -> string -> comparison.

Lemma toggleNode_appliesTo (t0 : list TreeNode) (nodeId : string) :
  waiting (snd (advance (toggleNode region localeCompare t0 nodeId) t0)) = true ->
  AppliesTo t0 nodeId (snd (advance (toggleNode region localeCompare t0 nodeId) t0)).
Proof.
  unfold toggleNode. destruct (findNode t0 nodeId) as [node|]; [|discriminate].
  destruct (truthy (isOpen node)); [discriminate|].
  destruct (noChildren node); [|discriminate].
  cbv zeta. cbn [advance].
  destruct (String.eqb (part (split nodeId "|") 0) "hub").
  { intros _. constructor. intros res. unfold settles.
    destruct (ok res); cbn [negb]; eexists; repeat split; reflexivity. }
  destruct (String.eqb (part (split nodeId "|") 0) "project").
  { intros _. constructor. intros res. unfold settles.
    destruct (ok res); cbn [negb]; eexists; repeat split; reflexivity. }
  destruct (String.eqb (part (split nodeId "|") 0) "folder").
  { intros _. constructor. intros res. unfold settles.
    destruct (ok res); cbn [negb]; eexists; repeat split; reflexivity. }
  destruct (String.eqb (part (split nodeId "|") 0) "item").
  { intros _. constructor. intros res. unfold settles.
    destruct (ok res); cbn [negb]; eexists; repeat split; reflexivity. }
  destruct (String.eqb (part (split nodeId "|") 0) "version").
  { intros _. constructor. intros res. unfold settles.
    destruct (negb (ok res) || Nat.eqb (status res) 404);
      eexists; repeat split; reflexivity. }
  discriminate.
Qed.

Lemma step_settles (s : Session) (i : nat) (nodeId : string) (t0 : list TreeNode)
  (q : Proc) :
  i < length (calls s) ->
  settles t0 nodeId q ->
  exists updates,
    tree (resume s i nodeId q) = updateNode t0 nodeId updates /\
    u_id updates = Absent /\ u_isLoading updates = Present (Some false) /\
    calls (resume s i nodeId q) !! i = Some (nodeId, Done).
Proof.
  intros Hi (updates & -> & Hid & Hload). exists updates. unfold resume. cbn.
  repeat split; try assumption. apply list_lookup_insert_eq. exact Hi.
Qed.

(** X17: when the answer to a call of [toggleNode] comes, the tree becomes
    the tree of the render in which the node was clicked, with that one
    node updated and its loading off: whatever has been set in the tree
    since the click is dropped. *)
Theorem answer_applies_to_clicked_tree (t0 : list TreeNode) (nodeId : string)
  (s : Session) (i : nat) (e : Event) :
  let p := snd (advance (toggleNode region localeCompare t0 nodeId) t0) in
  waiting p = true ->
  calls s !! i = Some (nodeId, p) ->
  eventIndex e = Some i ->
  answers p e = true ->
  exists updates,
    tree (step region localeCompare s e) = updateNode t0 nodeId updates /\
    u_id updates = Absent /\ u_isLoading updates = Present (Some false) /\
    calls (step region localeCompare s e) !! i = Some (nodeId, Done).
Proof.
  intros p Hwait Hcall He Hans.
  pose proof (toggleNode_appliesTo t0 nodeId Hwait) as Happ. fold p in Happ.
  assert (Hi : i < length (calls s)) by (eapply lookup_lt_Some; exact Hcall).
  destruct Happ as [url k Hk|url k Hk|url k Hk|url k Hk];
    destruct e as [n|j res|j res|j res|j res]; try discriminate;
    injection He as ->; cbn [step]; rewrite Hcall;
    apply step_settles; auto.
Qed.

Lemma fetchable_keyId (key : NodeKey) : pipeFree key -> fetchable (keyId key) = true.
Proof.
  intros H. unfold fetchable. rewrite (split_keyId key H). destruct key; reflexivity.
Qed.

Lemma fetchesSent_closed_empty (t : list TreeNode) (nodeId : string) (node : TreeNode) :
  findNode t nodeId = Some node -> truthy (isOpen node) = false ->
  noChildren node = true -> fetchable nodeId = true ->
  fetchesSent region localeCompare t nodeId = 1.
Proof.
  intros Hf Ho Hc Hfetch. unfold fetchesSent.
  destruct (toggleNode_empty region localeCompare t nodeId node Hf Ho Hc) as [_ Hw].
  rewrite Hw, Hfetch. reflexivity.
Qed.

(** X18: a request for projects, contents or versions that is answered "not
    ok" leaves the node as it was when clicked, closed and without
    children, with its loading off; the next click on it sends the
    request again. *)
Theorem failed_expansion_retry (t0 : list TreeNode) (key : NodeKey) (node : TreeNode)
  (s : Session) (i : nat) (e : Event) :
  let p := snd (advance (toggleNode region localeCompare t0 (keyId key)) t0) in
  pipeFree key -> notVersion key ->
  findNode t0 (keyId key) = Some node ->
  truthy (isOpen node) = false ->
  noChildren node = true ->
  calls s !! i = Some (keyId key, p) ->
  eventIndex e = Some i -> answers p e = true -> eventOk e = false ->
  tree (step region localeCompare s e) = updateNode t0 (keyId key) (onlyIsLoading false) /\
  findNode (tree (step region localeCompare s e)) (keyId key)
  = Some (spread node (onlyIsLoading false)) /\
  fetchesSent region localeCompare (tree (step region localeCompare s e)) (keyId key) = 1.
Proof.
  intros p Hkey Hnv Hf Ho Hc Hcall He Hans Hbad.
  assert (Htree : tree (step region localeCompare s e)
                  = updateNode t0 (keyId key) (onlyIsLoading false)).
  { subst p. unfold toggleNode in Hcall, Hans. rewrite Hf, Ho, Hc in Hcall, Hans.
    cbv zeta in Hcall, Hans. rewrite (split_keyId key Hkey) in Hcall, Hans.
    destruct key as [h|h pr|h pr f|h pr it|v]; [| | | |destruct Hnv];
      cbn in Hcall, Hans;
      destruct e as [n|j res|j res|j res|j res]; try discriminate;
      injection He as ->; cbn in Hbad; cbn [step]; rewrite Hcall;
      unfold resume; rewrite Hbad; reflexivity. }
  assert (Hfound : findNode (updateNode t0 (keyId key) (onlyIsLoading false)) (keyId key)
                   = Some (spread node (onlyIsLoading false))).
  { rewrite findNode_updateNode by reflexivity. rewrite Hf. reflexivity. }
  rewrite Htree. split; [reflexivity|]. split; [exact Hfound|].
  apply (fetchesSent_closed_empty _ _ _ Hfound); [exact Ho | exact Hc|].
  apply fetchable_keyId, Hkey.
Qed.

(** X19: a request for the views of a version that is answered "not ok", or
    with status 404, gives the version one child, the error node, and
    opens it; after that, clicks on the version in a row, with no other
    event in between, only close and open it in turn: none of them
    sends the request again or adds a call, and the error node stays
    its one child. *)
Theorem version_error_kept (t0 : list TreeNode) (v : string) (node : TreeNode)
  (s : Session) (i : nat) (res : Resp (list View)) :
  let nodeId := keyId (KVersion v) in
  let p := snd (advance (toggleNode region localeCompare t0 nodeId) t0) in
  let t1 := tree (step region localeCompare s (ViewsArrive i res)) in
  let t2 := fst (advance (toggleNode region localeCompare t1 nodeId) t1) in
  noPipe v ->
  findNode t0 nodeId = Some node ->
  truthy (isOpen node) = false ->
  noChildren node = true ->
  calls s !! i = Some (nodeId, p) ->
  ok res = false \/ status res = 404 ->
  t1 = updateNode t0 nodeId (loaded [errorNode]) /\
  findNode t1 nodeId = Some (spread node (loaded [errorNode])) /\
  fetchesSent region localeCompare t1 nodeId = 0 /\
  t2 = updateNode t1 nodeId (onlyIsOpen false) /\
  fetchesSent region localeCompare t2 nodeId = 0 /\
  (forall k,
     let s1 := step region localeCompare s (ViewsArrive i res) in
     let sk := steps region localeCompare s1 (repeat (Toggle nodeId) k) in
     calls sk = calls s1 /\
     fetchesSent region localeCompare (tree sk) nodeId = 0 /\
     option_map children (findNode (tree sk) nodeId) = Some (Some [errorNode]) /\
     option_map (fun n => truthy (isOpen n)) (findNode (tree sk) nodeId)
     = Some (Nat.even k)).
Proof.
  intros nodeId p t1 t2 Hv Hf Ho Hc Hcall Hres.
  assert (Ht1 : t1 = updateNode t0 nodeId (loaded [errorNode])).
  { subst t1 p. unfold toggleNode in Hcall. rewrite Hf, Ho, Hc in Hcall.
    cbv zeta in Hcall. subst nodeId. rewrite (split_keyId (KVersion v) Hv) in Hcall.
    cbn in Hcall. cbn [step]. rewrite Hcall. unfold resume.
    assert (Hcond : negb (ok res) || Nat.eqb (status res) 404 = true).
    { destruct Hres as [->| ->]; [reflexivity|]. apply orb_true_r. }
    rewrite Hcond. reflexivity. }
  assert (Hf1 : findNode t1 nodeId = Some (spread node (loaded [errorNode]))).
  { rewrite Ht1, findNode_updateNode by reflexivity. rewrite Hf. reflexivity. }
  assert (Hopen : truthy (isOpen (spread node (loaded [errorNode]))) = true) by reflexivity.
  assert (Ht2 : t2 = updateNode t1 nodeId (onlyIsOpen false)).
  { subst t2. rewrite (toggleNode_open region localeCompare t1 nodeId _ Hf1 Hopen).
    reflexivity. }
  assert (Hf2 : findNode t2 nodeId
                = Some (spread (spread node (loaded [errorNode])) (onlyIsOpen false))).
  { rewrite Ht2, findNode_updateNode by reflexivity. rewrite Hf1. reflexivity. }
  split; [exact Ht1|]. split; [exact Hf1|]. split.
  { unfold fetchesSent.
    rewrite (toggleNode_open region localeCompare t1 nodeId _ Hf1 Hopen). reflexivity. }
  split; [exact Ht2|]. split.
  { unfold fetchesSent.
    rewrite (toggleNode_cached region localeCompare t2 nodeId _ Hf2 eq_refl eq_refl).
    reflexivity. }
  intros k s1 sk. subst sk.
  destruct (clicks_on_loaded region localeCompare nodeId k s1 _ Hf1 eq_refl)
    as [Hcalls (nodek & Hfk & Hck & Hok)].
  split; [exact Hcalls|]. split.
  { apply (fetchesSent_loaded region localeCompare _ nodeId nodek Hfk).
    unfold noChildren. rewrite Hck. reflexivity. }
  rewrite Hfk. cbn [option_map]. split; [rewrite Hck; reflexivity|].
  rewrite Hok, <- Nat.negb_odd. reflexivity.
Qed.

(** X20: when the views of a version have come, the tree is the tree of the
    click with the version opened on the nodes of its 3-D views, sorted
    by name; a click on such a node, if the guid holds no ["|"], selects
    that guid with the urn the view came with. *)
Theorem views_selectable (t0 : list TreeNode) (v : string) (node : TreeNode)
  (s : Session) (i : nat) (res : Resp (list View)) :
  let nodeId := keyId (KVersion v) in
  let p := snd (advance (toggleNode region localeCompare t0 nodeId) t0) in
  let shown := List.filter (fun x => String.eqb (view_role x) "3d") (json res) in
  noPipe v ->
  findNode t0 nodeId = Some node ->
  truthy (isOpen node) = false ->
  noChildren node = true ->
  calls s !! i = Some (nodeId, p) ->
  ok res = true -> status res <> 404 ->
  tree (step region localeCompare s (ViewsArrive i res))
  = updateNode t0 nodeId (loaded (sortNodesByName localeCompare (map viewNode shown))) /\
  sortNodesByName localeCompare (map viewNode shown) ≡ₚ map viewNode shown /\
  forall x, In x shown -> noPipe (view_guid x) ->
    handleNodeClick (viewNode x) = ViewSelected "view" (view_guid x) (view_urn x).
Proof.
  intros nodeId p shown Hv Hf Ho Hc Hcall Hok Hst. split; [|split].
  - subst p. unfold toggleNode in Hcall. rewrite Hf, Ho, Hc in Hcall.
    cbv zeta in Hcall. subst nodeId. rewrite (split_keyId (KVersion v) Hv) in Hcall.
    cbn in Hcall. cbn [step]. rewrite Hcall. unfold resume.
    rewrite Hok. apply Nat.eqb_neq in Hst. rewrite Hst. reflexivity.
  - rewrite sortNodesByName_sort. apply sort_permutation.
  - intros x _ Hg. unfold handleNodeClick, viewNode. cbn [type id parent].
    change ("view|" ++ view_guid x)%string with ("view" ++ String "|" (view_guid x))%string.
    unfold split. rewrite split_acc_app by (apply noPipe_literal; reflexivity).
    rewrite (split_acc_plain _ _ "" Hg). reflexivity.
Qed.

End Answers.

Lemma answer_applies_to_clicked_tree_witness :
  let p := snd (advance (toggleNode "US" String.compare sampleForest "hub|h2") sampleForest) in
  let e := ProjectsArrive 0 noProjects in
  waiting p = true /\
  calls hubClicked !! 0 = Some ("hub|h2", p) /\
  eventIndex e = Some 0 /\
  answers p e = true /\
  exists updates,
    tree (step "US" String.compare hubClicked e) = updateNode sampleForest "hub|h2" updates /\
    u_id updates = Absent /\ u_isLoading updates = Present (Some false) /\
    calls (step "US" String.compare hubClicked e) !! 0 = Some ("hub|h2", Done).
Proof.
  split; [reflexivity|]. split; [reflexivity|]. split; [reflexivity|].
  split; [reflexivity|].
  exact (answer_applies_to_clicked_tree "US" String.compare sampleForest "hub|h2"
           hubClicked 0 (ProjectsArrive 0 noProjects) eq_refl eq_refl eq_refl eq_refl).
Defined.

(** Two projects are clicked one after the other, and the answers come
    in the same order: the second answer puts back the tree of the
    second click, in which the first project is still loading and has
    no children. *)
Example sibling_answer_dropped :
  let s := sampleSteps sampleSession
             [Toggle "project|h1|p1"; Toggle "project|h1|p2";
              ContentsArrive 0 (mkResp true 200 [mkFolderContent "f1" "Plans" true]);
              ContentsArrive 1 (mkResp true 200 [mkFolderContent "i1" "Tower.rvt" false])] in
  findNode (tree s) "project|h1|p1"
  = Some (mkNode "project|h1|p1" "Bridge" TProject (Some []) (Some false) (Some true) None)
  /\ option_map isOpen (findNode (tree s) "project|h1|p2") = Some (Some true)
  /\ outstanding s "project|h1|p1" = 0.
Proof. repeat split; reflexivity. Qed.

Lemma failed_expansion_retry_witness :
  let key := KHub "h2" in
  let node := closedNode "hub|h2" "Beta" THub in
  let p := snd (advance (toggleNode "US" String.compare sampleForest (keyId key))
                  sampleForest) in
  let e := ProjectsArrive 0 (mkResp false 500 []) in
  pipeFree key /\ notVersion key /\
  findNode sampleForest (keyId key) = Some node /\
  truthy (isOpen node) = false /\
  noChildren node = true /\
  calls hubClicked !! 0 = Some (keyId key, p) /\
  eventIndex e = Some 0 /\ answers p e = true /\ eventOk e = false /\
  tree (step "US" String.compare hubClicked e)
  = updateNode sampleForest (keyId key) (onlyIsLoading false) /\
  findNode (tree (step "US" String.compare hubClicked e)) (keyId key)
  = Some (spread node (onlyIsLoading false)) /\
  fetchesSent "US" String.compare (tree (step "US" String.compare hubClicked e)) (keyId key)
  = 1.
Proof.
  intros key node p e.
  assert (H1 : pipeFree key) by (apply noPipe_literal; reflexivity).
  assert (H2 : notVersion key) by exact I.
  assert (H3 : findNode sampleForest (keyId key) = Some node) by reflexivity.
  assert (H4 : truthy (isOpen node) = false) by reflexivity.
  assert (H5 : noChildren node = true) by reflexivity.
  assert (H6 : calls hubClicked !! 0 = Some (keyId key, p)) by reflexivity.
  assert (H7 : eventIndex e = Some 0) by reflexivity.
  assert (H8 : answers p e = true) by reflexivity.
  assert (H9 : eventOk e = false) by reflexivity.
  do 9 (split; [assumption|]).
  exact (failed_expansion_retry "US" String.compare sampleForest key node
           hubClicked 0 e H1 H2 H3 H4 H5 H6 H7 H8 H9).
Defined.

Lemma version_error_kept_witness :
  let v := "urn:adsk.wipprod:fs.file:vf.1?version=1" in
  let node := mkNode "version|urn:adsk.wipprod:fs.file:vf.1?version=1" "2024-05-01"
                TVersion None None None None in
  let res := mkResp false 404 [] in
  let nodeId := keyId (KVersion v) in
  let p := snd (advance (toggleNode "US" String.compare versionForest nodeId)
                  versionForest) in
  let t1 := tree (step "US" String.compare versionClicked (ViewsArrive 0 res)) in
  let t2 := fst (advance (toggleNode "US" String.compare t1 nodeId) t1) in
  noPipe v /\
  findNode versionForest nodeId = Some node /\
  truthy (isOpen node) = false /\
  noChildren node = true /\
  calls versionClicked !! 0 = Some (nodeId, p) /\
  (ok res = false \/ status res = 404) /\
  t1 = updateNode versionForest nodeId (loaded [errorNode]) /\
  findNode t1 nodeId = Some (spread node (loaded [errorNode])) /\
  fetchesSent "US" String.compare t1 nodeId = 0 /\
  t2 = updateNode t1 nodeId (onlyIsOpen false) /\
  fetchesSent "US" String.compare t2 nodeId = 0 /\
  (forall k,
     let s1 := step "US" String.compare versionClicked (ViewsArrive 0 res) in
     let sk := steps "US" String.compare s1 (repeat (Toggle nodeId) k) in
     calls sk = calls s1 /\
     fetchesSent "US" String.compare (tree sk) nodeId = 0 /\
     option_map children (findNode (tree sk) nodeId) = Some (Some [errorNode]) /\
     option_map (fun n => truthy (isOpen n)) (findNode (tree sk) nodeId)
     = Some (Nat.even k)).
Proof.
  intros v node res nodeId p t1 t2.
  assert (H1 : noPipe v) by (apply noPipe_literal; reflexivity).
  assert (H2 : findNode versionForest nodeId = Some node) by reflexivity.
  assert (H3 : truthy (isOpen node) = false) by reflexivity.
  assert (H4 : noChildren node = true) by reflexivity.
  assert (H5 : calls versionClicked !! 0 = Some (nodeId, p)) by (vm_compute; reflexivity).
  assert (H6 : ok res = false \/ status res = 404) by (left; reflexivity).
  do 6 (split; [assumption|]).
  exact (version_error_kept "US" String.compare versionForest v node versionClicked 0 res
           H1 H2 H3 H4 H5 H6).
Defined.

Lemma views_selectable_witness :
  let v := "urn:adsk.wipprod:fs.file:vf.1?version=1" in
  let node := mkNode "version|urn:adsk.wipprod:fs.file:vf.1?version=1" "2024-05-01"
                TVersion None None None None in
  let res := mkResp true 200 [mkView (btoa v) "g-2" "Section" "2d";
                              mkView (btoa v) "g-1" "{3D}" "3d"] in
  let nodeId := keyId (KVersion v) in
  let p := snd (advance (toggleNode "US" String.compare versionForest nodeId)
                  versionForest) in
  let shown := List.filter (fun x => String.eqb (view_role x) "3d") (json res) in
  noPipe v /\
  findNode versionForest nodeId = Some node /\
  truthy (isOpen node) = false /\
  noChildren node = true /\
  calls versionClicked !! 0 = Some (nodeId, p) /\
  ok res = true /\ status res <> 404 /\
  tree (step "US" String.compare versionClicked (ViewsArrive 0 res))
  = updateNode versionForest nodeId
      (loaded (sortNodesByName String.compare (map viewNode shown))) /\
  sortNodesByName String.compare (map viewNode shown) ≡ₚ map viewNode shown /\
  forall x, In x shown -> noPipe (view_guid x) ->
    handleNodeClick (viewNode x) = ViewSelected "view" (view_guid x) (view_urn x).
Proof.
  intros v node res nodeId p shown.
  assert (H1 : noPipe v) by (apply noPipe_literal; reflexivity).
  assert (H2 : findNode versionForest nodeId = Some node) by reflexivity.
  assert (H3 : truthy (isOpen node) = false) by reflexivity.
  assert (H4 : noChildren node = true) by reflexivity.
  assert (H5 : calls versionClicked !! 0 = Some (nodeId, p)) by (vm_compute; reflexivity).
  assert (H6 : ok res = true) by reflexivity.
  assert (H7 : status res <> 404) by discriminate.
  do 7 (split; [assumption|]).
  exact (views_selectable "US" String.compare versionForest v node versionClicked 0 res
           H1 H2 H3 H4 H5 H6 H7).
Defined.

End NavigationFacts.

(** ** From a version to its properties *)

Section RoutesFacts.
Import JsString Merge Sidebar Routes.

Lemma viewsGET_errors
  (sdk : string -> string -> string -> Awaited (option (list ViewMetadata)))
  (tokens : Tokens) (region version_id e : string) :
  viewsGET (Rejected e) sdk region version_id = ViewsHandlerRejects e /\
  viewsGET (Resolved None) sdk region version_id = JsonViewsError "Unauthorized" 401 /\
  (sdk (Encoding.decode version_id) region (internalToken_access_token tokens) = Rejected e ->
   viewsGET (Resolved (Some tokens)) sdk region version_id
   = JsonViewsError "Failed to fetch views" 500).
Proof.
  split; [reflexivity|]. split; [reflexivity|].
  intros H. unfold viewsGET, getModelViews. rewrite H. reflexivity.
Qed.

(** X21: for the token that the sidebar sends for a version, the views route
    asks the SDK about the base64 token of the version itself, and
    answers with one view for each entry that has a guid, in the order
    of the entries, each with that token as its urn. *)
Theorem views_route
  (sdk : string -> string -> string -> Awaited (option (list ViewMetadata)))
  (tokens : Tokens) (region version : string) (metadata : option (list ViewMetadata)) :
  sdk (btoa version) region (internalToken_access_token tokens) = Resolved metadata ->
  exists views,
    viewsGET (Resolved (Some tokens)) sdk region (Encoding.encode (btoa version)) = JsonViews views /\
    asResp (viewsGET (Resolved (Some tokens)) sdk region (Encoding.encode (btoa version)))
    = Some (mkResp true 200 views) /\
    Forall (fun x => view_urn x = btoa version /\ view_guid x <> "") views /\
    map view_guid views
    = flat_map (fun m => match md_guid m with
                         | Some g => if String.eqb g "" then [] else [g]
                         | None => []
                         end)
        (match metadata with Some l => l | None => [] end).
Proof.
  intros Hsdk. unfold viewsGET, getModelViews.
  rewrite version_token_round_trip, Hsdk. eexists. split; [reflexivity|].
  split; [reflexivity|].
  generalize (match metadata with Some l => l | None => [] end). intros l. split.
  - induction l as [|m l IH]; [constructor|]. cbn [flat_map].
    apply Forall_app. split; [|exact IH].
    destruct (md_guid m) as [g|]; [|constructor].
    destruct (String.eqb_spec g ""); [constructor|].
    constructor; [split; [reflexivity | assumption] | constructor].
  - induction l as [|m l IH]; [reflexivity|]. cbn [flat_map].
    rewrite map_app, IH. f_equal.
    destruct (md_guid m) as [g|]; [|reflexivity].
    destruct (String.eqb g ""); reflexivity.
Qed.

Lemma views_route_witness :
  let sdk := fun (_ _ _ : string) =>
               Resolved (Some [mkViewMetadata (Some "g-1") "{3D}" "3d";
                               mkViewMetadata None "Sheet" "2d";
                               mkViewMetadata (Some "") "Draft" "2d"]) in
  let tokens := mkTokens "token" in
  sdk (btoa "urn:v1") "US" (internalToken_access_token tokens)
  = Resolved (Some [mkViewMetadata (Some "g-1") "{3D}" "3d";
                    mkViewMetadata None "Sheet" "2d";
                    mkViewMetadata (Some "") "Draft" "2d"]) /\
  viewsGET (Resolved (Some tokens)) sdk "US" (Encoding.encode (btoa "urn:v1"))
  = JsonViews [mkView "dXJuOnYx" "g-1" "{3D}" "3d"] /\
  exists views,
    viewsGET (Resolved (Some tokens)) sdk "US" (Encoding.encode (btoa "urn:v1")) = JsonViews views /\
    asResp (viewsGET (Resolved (Some tokens)) sdk "US" (Encoding.encode (btoa "urn:v1")))
    = Some (mkResp true 200 views) /\
    Forall (fun x => view_urn x = btoa "urn:v1" /\ view_guid x <> "") views /\
    map view_guid views
    = flat_map (fun m => match md_guid m with
                         | Some g => if String.eqb g "" then [] else [g]
                         | None => []
                         end)
        [mkViewMetadata (Some "g-1") "{3D}" "3d";
         mkViewMetadata None "Sheet" "2d";
         mkViewMetadata (Some "") "Draft" "2d"].
Proof.
  intros sdk tokens.
  assert (H : sdk (btoa "urn:v1") "US" (internalToken_access_token tokens)
              = Resolved (Some [mkViewMetadata (Some "g-1") "{3D}" "3d";
                                mkViewMetadata None "Sheet" "2d";
                                mkViewMetadata (Some "") "Draft" "2d"])) by reflexivity.
  split; [exact H|]. split; [vm_compute; reflexivity|].
  exact (views_route sdk tokens "US" "urn:v1" _ H).
Defined.

(** X22: a view selected in the sidebar for the token of a version starts a
    poll whose first request names the escaped token and the guid, and
    the handler, given those two, asks its collaborators about the
    token itself and that guid, and about nothing else. *)
Theorem selection_reaches_gateway (gw : Gateway) (tokens : Tokens)
  (region version guid : string) (h : Poller.HomeState) :
  getAuthTokens gw = Resolved (Some tokens) ->
  let urn := btoa version in
  let token := internalToken_access_token tokens in
  let calls := snd (GET gw region (Encoding.encode urn) guid) in
  (exists k,
     Poller.advance (Poller.handleModelViewSelect region "view" guid urn) h
     = (Poller.setSelectedVersionId (Some (Encoding.encode urn))
          (Poller.setError None (Poller.setLoading true h)),
        Poller.Fetch (Poller.pollUrl region (Encoding.encode urn) guid) k)) /\
  In (CallGetAllProperties urn guid region token) calls /\
  Forall (fun c => c = CallGetAuthTokens
                   \/ c = CallGetAllProperties urn guid region token
                   \/ c = CallGetObjectTree urn guid region token) calls.
Proof.
  intros Ht urn token calls. split.
  - unfold Poller.handleModelViewSelect. cbn [Poller.advance].
    rewrite pollLoop_fetch by (unfold Poller.maxAttempts; lia).
    cbn [Poller.advance]. eexists. reflexivity.
  - subst calls. unfold GET. rewrite Ht. subst urn.
    rewrite version_token_round_trip. fold token.
    destruct (getAllProperties gw _ _ _ _) as [allProperties|e].
    + destruct (ap_isProcessing allProperties); cbn [negb].
      * cbn. split; [auto|]. repeat (constructor; [auto|]). constructor.
      * destruct (getObjectTree gw _ _ _ _); cbn; (split; [auto|]);
          repeat (constructor; [auto|]); constructor.
    + cbn. split; [auto|]. repeat (constructor; [auto|]). constructor.
Qed.

Lemma selection_reaches_gateway_witness :
  getAuthTokens sampleGateway = Resolved (Some (mkTokens "token")) /\
  let urn := btoa "urn:v1" in
  let token := internalToken_access_token (mkTokens "token") in
  let calls := snd (GET sampleGateway "US" (Encoding.encode urn) "g-1") in
  (exists k,
     Poller.advance (Poller.handleModelViewSelect "US" "view" "g-1" urn) Poller.initialHome
     = (Poller.setSelectedVersionId (Some (Encoding.encode urn))
          (Poller.setError None (Poller.setLoading true Poller.initialHome)),
        Poller.Fetch (Poller.pollUrl "US" (Encoding.encode urn) "g-1") k)) /\
  In (CallGetAllProperties urn "g-1" "US" token) calls /\
  Forall (fun c => c = CallGetAuthTokens
                   \/ c = CallGetAllProperties urn "g-1" "US" token
                   \/ c = CallGetObjectTree urn "g-1" "US" token) calls.
Proof.
  assert (H : getAuthTokens sampleGateway = Resolved (Some (mkTokens "token"))) by reflexivity.
  split; [exact H|].
  exact (selection_reaches_gateway sampleGateway (mkTokens "token") "US" "urn:v1" "g-1"
           Poller.initialHome H).
Defined.

End RoutesFacts.

(** ** Tokens *)

Section AuthFacts.
Import Merge Auth.

Lemma showZ_nonempty (z : Z) : Page.showZ z <> "".
Proof.
  unfold Page.showZ. destruct (Z.to_int z) as [d|d]; [|discriminate].
  destruct d; discriminate.
Qed.

Lemma cookie_Some (cookies : gmap string string) (name v : string) :
  cookies !! name = Some v -> v <> "" -> cookie cookies name = Some v.
Proof.
  intros H Hv. unfold cookie. rewrite H.
  destruct (String.eqb_spec v ""); [contradiction | reflexivity].
Qed.

Section Calls.
Variable parseInt : string -> option Z.
Variable refreshTokens : string -> Awaited SessionData.
Variables nowTest nowInternal nowPublic : Z.

Lemma getAuthTokens_before_expiry (cookies : gmap string string)
  (refreshToken expiresAt : string) (expiresAtNum : Z) :
  cookie cookies "refresh_token" = Some refreshToken ->
  cookie cookies "expires_at" = Some expiresAt ->
  parseInt expiresAt = Some expiresAtNum ->
  (nowTest <= expiresAtNum)%Z ->
  let run := getAuthTokens parseInt refreshTokens nowTest nowInternal nowPublic cookies in
  refreshed run = false /\ written run = [] /\ store run = cookies /\
  result run
  = match cookies !! "internal_token", cookies !! "public_token" with
    | Some internal, Some public =>
        AuthTokens
          (mkOAuthToken internal (roundSeconds (expiresAtNum - nowInternal)))
          (mkOAuthToken public (roundSeconds (expiresAtNum - nowPublic)))
    | _, _ => AuthThrew
    end.
Proof.
  intros Hr He Hp Hle run. subst run. unfold getAuthTokens.
  rewrite Hr, He, Hp. rewrite (proj2 (Z.ltb_ge _ _) Hle).
  destruct (cookies !! "internal_token"), (cookies !! "public_token");
    repeat split; reflexivity.
Qed.

(** X23: while the stored expiry has not passed, [refreshTokens] is not
    called and no cookie is set; the access tokens returned are the
    values of the two token cookies, and when one of these cookies is
    missing the call throws. *)
Theorem tokens_before_expiry (cookies : gmap string string)
  (refreshToken expiresAt : string) (expiresAtNum : Z) :
  cookie cookies "refresh_token" = Some refreshToken ->
  cookie cookies "expires_at" = Some expiresAt ->
  parseInt expiresAt = Some expiresAtNum ->
  (nowTest <= expiresAtNum)%Z ->
  let run := getAuthTokens parseInt refreshTokens nowTest nowInternal nowPublic cookies in
  refreshed run = false /\ written run = [] /\ store run = cookies /\
  result run
  = match cookies !! "internal_token", cookies !! "public_token" with
    | Some internal, Some public =>
        AuthTokens
          (mkOAuthToken internal (roundSeconds (expiresAtNum - nowInternal)))
          (mkOAuthToken public (roundSeconds (expiresAtNum - nowPublic)))
    | _, _ => AuthThrew
    end.
Proof.
  exact (getAuthTokens_before_expiry cookies refreshToken expiresAt expiresAtNum).
Qed.


End Calls.

(** X25: after a refresh, a later call that comes before the new expiry
    returns the refreshed access tokens from the cookies, without
    another refresh. *)
Theorem refresh_then_reuse (parseInt : string -> option Z)
  (refreshTokens refreshAgain : string -> Awaited SessionData)
  (now1 now1i now1p now2 now2i now2p : Z)
  (cookies : gmap string string) (refreshToken expiresAt : string) (expiresAtNum : Z)
  (tokens : SessionData) :
  cookie cookies "refresh_token" = Some refreshToken ->
  cookie cookies "expires_at" = Some expiresAt ->
  parseInt expiresAt = Some expiresAtNum ->
  (expiresAtNum < now1)%Z ->
  refreshTokens refreshToken = Resolved tokens ->
  public_token tokens <> "" -> internal_token tokens <> "" ->
  refresh_token tokens <> "" -> expires_at tokens <> 0%Z ->
  parseInt (Page.showZ (expires_at tokens)) = Some (expires_at tokens) ->
  (now2 <= expires_at tokens)%Z ->
  let run1 := getAuthTokens parseInt refreshTokens now1 now1i now1p cookies in
  let run2 := getAuthTokens parseInt refreshAgain now2 now2i now2p (store run1) in
  refreshed run1 = true /\
  refreshed run2 = false /\ written run2 = [] /\ store run2 = store run1 /\
  result run2
  = AuthTokens
      (mkOAuthToken (internal_token tokens) (roundSeconds (expires_at tokens - now2i)))
      (mkOAuthToken (public_token tokens) (roundSeconds (expires_at tokens - now2p))).
Proof.
  intros Hr He Hp Hlt Hrefresh Hpub Hint Href Hexp Hparse Hle run1 run2.
  assert (Hrun1 : run1
                  = mkAuthRun
                      (AuthTokens
                         (mkOAuthToken (internal_token tokens)
                            (roundSeconds (expires_at tokens - now1i)))
                         (mkOAuthToken (public_token tokens)
                            (roundSeconds (expires_at tokens - now1p))))
                      (setAll (refreshedCookies tokens) cookies)
                      (refreshedCookies tokens) true).
  { subst run1. unfold getAuthTokens. rewrite Hr, He, Hp.
    rewrite (proj2 (Z.ltb_lt _ _) Hlt), Hrefresh.
    apply String.eqb_neq in Hpub, Hint, Href. apply Z.eqb_neq in Hexp.
    rewrite Hpub, Hint, Href, Hexp. reflexivity. }
  subst run2. rewrite Hrun1. cbn [store refreshed].
  set (cookies' := setAll (refreshedCookies tokens) cookies).
  assert (L1 : cookies' !! "public_token" = Some (public_token tokens)).
  { subst cookies'. unfold setAll, refreshedCookies. cbn [foldl c_name c_value].
    rewrite !lookup_insert_ne by discriminate. apply lookup_insert_eq. }
  assert (L2 : cookies' !! "internal_token" = Some (internal_token tokens)).
  { subst cookies'. unfold setAll, refreshedCookies. cbn [foldl c_name c_value].
    rewrite !lookup_insert_ne by discriminate. apply lookup_insert_eq. }
  assert (L3 : cookies' !! "refresh_token" = Some (refresh_token tokens)).
  { subst cookies'. unfold setAll, refreshedCookies. cbn [foldl c_name c_value].
    rewrite !lookup_insert_ne by discriminate. apply lookup_insert_eq. }
  assert (L4 : cookies' !! "expires_at" = Some (Page.showZ (expires_at tokens))).
  { subst cookies'. unfold setAll, refreshedCookies. cbn [foldl c_name c_value].
    apply lookup_insert_eq. }
  split; [reflexivity|].
  pose proof (getAuthTokens_before_expiry parseInt refreshAgain now2 now2i now2p cookies'
                (refresh_token tokens) (Page.showZ (expires_at tokens)) (expires_at tokens)
                (cookie_Some _ _ _ L3 Href)
                (cookie_Some _ _ _ L4 (showZ_nonempty _)) Hparse Hle) as H.
  cbv zeta in H. rewrite L1, L2 in H. exact H.
Qed.

Lemma tokens_before_expiry_witness :
  let cookies : gmap string string :=
    {[ "internal_token" := "int-0"; "public_token" := "pub-0";
       "refresh_token" := "ref-0"; "expires_at" := "1700000000000" ]} in
  let run := getAuthTokens readDecimal (fun _ => Rejected "unused")
               1699999000000 1699999000400 1699999000600 cookies in
  cookie cookies "refresh_token" = Some "ref-0" /\
  cookie cookies "expires_at" = Some "1700000000000" /\
  readDecimal "1700000000000" = Some 1700000000000%Z /\
  (1699999000000 <= 1700000000000)%Z /\
  result run = AuthTokens (mkOAuthToken "int-0" 1000) (mkOAuthToken "pub-0" 999) /\
  refreshed run = false /\ written run = [] /\ store run = cookies /\
  result run
  = match cookies !! "internal_token", cookies !! "public_token" with
    | Some internal, Some public =>
        AuthTokens
          (mkOAuthToken internal (roundSeconds (1700000000000 - 1699999000400)))
          (mkOAuthToken public (roundSeconds (1700000000000 - 1699999000600)))
    | _, _ => AuthThrew
    end.
Proof.
  intros cookies run.
  assert (H1 : cookie cookies "refresh_token" = Some "ref-0") by (vm_compute; reflexivity).
  assert (H2 : cookie cookies "expires_at" = Some "1700000000000")
    by (vm_compute; reflexivity).
  assert (H3 : readDecimal "1700000000000" = Some 1700000000000%Z)
    by (vm_compute; reflexivity).
  assert (H4 : (1699999000000 <= 1700000000000)%Z) by lia.
  do 4 (split; [assumption|]). split; [vm_compute; reflexivity|].
  exact (tokens_before_expiry readDecimal (fun _ => Rejected "unused")
           1699999000000 1699999000400 1699999000600 cookies _ _ _ H1 H2 H3 H4).
Defined.

Lemma refresh_then_reuse_witness :
  let refreshTokens := fun _ : string => Resolved freshSession in
  let refreshAgain := fun _ : string => @Rejected SessionData "unused" in
  let run1 := getAuthTokens readDecimal refreshTokens 1700000000001 1700000000002
                1700000000003 staleCookies in
  let run2 := getAuthTokens readDecimal refreshAgain 1700000060000 1700000060000
                1700000060000 (store run1) in
  cookie staleCookies "refresh_token" = Some "ref-0" /\
  cookie staleCookies "expires_at" = Some "1700000000000" /\
  readDecimal "1700000000000" = Some 1700000000000%Z /\
  (1700000000000 < 1700000000001)%Z /\
  refreshTokens "ref-0" = Resolved freshSession /\
  public_token freshSession <> "" /\ internal_token freshSession <> "" /\
  refresh_token freshSession <> "" /\ expires_at freshSession <> 0%Z /\
  readDecimal (Page.showZ (expires_at freshSession)) = Some (expires_at freshSession) /\
  (1700000060000 <= expires_at freshSession)%Z /\
  refreshed run1 = true /\
  refreshed run2 = false /\ written run2 = [] /\ store run2 = store run1 /\
  result run2
  = AuthTokens
      (mkOAuthToken (internal_token freshSession)
         (roundSeconds (expires_at freshSession - 1700000060000)))
      (mkOAuthToken (public_token freshSession)
         (roundSeconds (expires_at freshSession - 1700000060000))).
Proof.
  intros refreshTokens refreshAgain run1 run2.
  assert (H1 : cookie staleCookies "refresh_token" = Some "ref-0")
    by (vm_compute; reflexivity).
  assert (H2 : cookie staleCookies "expires_at" = Some "1700000000000")
    by (vm_compute; reflexivity).
  assert (H3 : readDecimal "1700000000000" = Some 1700000000000%Z)
    by (vm_compute; reflexivity).
  assert (H4 : (1700000000000 < 1700000000001)%Z) by lia.
  assert (H5 : refreshTokens "ref-0" = Resolved freshSession) by reflexivity.
  assert (H6 : public_token freshSession <> "") by discriminate.
  assert (H7 : internal_token freshSession <> "") by discriminate.
  assert (H8 : refresh_token freshSession <> "") by discriminate.
  assert (H9 : expires_at freshSession <> 0%Z) by discriminate.
  assert (H10 : readDecimal (Page.showZ (expires_at freshSession))
                = Some (expires_at freshSession)) by (vm_compute; reflexivity).
  assert (H11 : (1700000060000 <= expires_at freshSession)%Z) by (cbn; lia).
  do 11 (split; [assumption|]).
  exact (refresh_then_reuse readDecimal refreshTokens refreshAgain
           1700000000001 1700000000002 1700000000003
           1700000060000 1700000060000 1700000060000
           staleCookies "ref-0" "1700000000000" 1700000000000 freshSession
           H1 H2 H3 H4 H5 H6 H7 H8 H9 H10 H11).
Defined.

(** A session whose internal token cookie is gone while the stored
    expiry has not passed: the call throws, and a handler that awaits
    it rejects without making a response. *)
Example handler_rejects_without_token_cookie :
  let cookies : gmap string string :=
    {[ "public_token" := "pub-0"; "refresh_token" := "ref-0";
       "expires_at" := "1700000000000" ]} in
  let run := Auth.getAuthTokens readDecimal (fun _ => Rejected "unused")
               1699999000000 1699999000000 1699999000000 cookies in
  let gw := mkGateway (awaited (result run))
              (fun _ _ _ _ => Rejected "unused") (fun _ _ _ _ => Rejected "unused") in
  result run = AuthThrew /\
  GET gw "US" "dXJuOnYx" "g-1" = (HandlerRejects "TypeError", [CallGetAuthTokens]) /\
  Routes.viewsGET (awaited (result run)) (fun _ _ _ => Rejected "unused") "US" "dXJuOnYx"
  = Routes.ViewsHandlerRejects "TypeError".
Proof. repeat split; vm_compute; reflexivity. Qed.

End AuthFacts.

(** ** The tree of objects *)

Section ObjectsTreeFacts.
Import JsString Merge ObjectsTree.

Lemma take_slice (n : nat) (s : string) : (take n s ++ slice n s)%string = s.
Proof.
  revert s. induction n as [|n IH]; intros s; [destruct s; reflexivity|].
  destruct s as [|c s]; [reflexivity|].
  change (String c (take n s ++ slice n s) = String c s). rewrite IH. reflexivity.
Qed.

Lemma slice_slice (a b : nat) (s : string) : slice b (slice a s) = slice (a + b) s.
Proof.
  revert s. induction a as [|a IH]; intros s; [reflexivity|].
  destruct s as [|c s]; [destruct b; reflexivity|]. cbn. apply IH.
Qed.

(** X26: marking a match never changes the text that is shown: the pieces
    put together are the name of the node, for any query and whatever
    lower-casing does. *)
Theorem highlight_keeps_text (toLowerCase : string -> string) (searchQuery text : string) :
  shownText (highlightMatch toLowerCase searchQuery text) = text.
Proof.
  unfold highlightMatch. destruct (String.eqb searchQuery ""); [reflexivity|].
  destruct (indexOf (toLowerCase text) (toLowerCase searchQuery)) as [index|];
    [|reflexivity].
  cbn [shownText]. unfold substring.
  rewrite Nat.min_0_l, Nat.max_0_l, Nat.sub_0_r.
  rewrite Nat.min_l, Nat.max_r by lia.
  replace (index + String.length searchQuery - index) with (String.length searchQuery)
    by lia.
  change (slice 0 text) with text.
  rewrite <- (slice_slice index (String.length searchQuery) text).
  rewrite take_slice. apply take_slice.
Qed.

Section SearchFacts.
Variable toLowerCase : string -> string.
Variable searchQuery : string.

Lemma existsb_flat_map {A B : Type} (f : B -> bool) (g : A -> list B) (l : list A) :
  existsb f (flat_map g l) = existsb (fun x => existsb f (g x)) l.
Proof.
  induction l as [|x l IH]; [reflexivity|]. cbn. rewrite existsb_app, IH. reflexivity.
Qed.

Lemma existsb_agree {A : Type} (f g : A -> bool) (l : list A) :
  Forall (fun x => f x = g x) l -> existsb f l = existsb g l.
Proof. induction 1 as [|x l Hx _ IH]; cbn; [reflexivity | rewrite Hx, IH; reflexivity]. Qed.

Lemma nodeMatches_nodes (n : ObjectTreeData) :
  nodeMatches toLowerCase searchQuery n
  = existsb (selfMatches toLowerCase searchQuery) (nodesOf n).
Proof.
  induction n as [i nm os p IH] using ObjectTreeData_tree_ind.
  cbn [nodeMatches nodesOf existsb objects].
  destruct (selfMatches toLowerCase searchQuery (mkObject i nm os p)); [reflexivity|].
  cbn [orb]. destruct os as [cs|]; [|reflexivity].
  rewrite existsb_flat_map, <- (existsb_agree _ _ cs IH).
  destruct cs; reflexivity.
Qed.

(** X27: a node passes the filter of the tree exactly when it, or a node
    somewhere below it, has the query in its name (lower-cased) or in
    its id. *)
Theorem nodeMatches_subtree (n : ObjectTreeData) :
  nodeMatches toLowerCase searchQuery n = true
  <-> exists x, In x (nodesOf n) /\ selfMatches toLowerCase searchQuery x = true.
Proof. rewrite nodeMatches_nodes. apply existsb_exists. Qed.

Lemma filter_flat_map {A B : Type} (f : B -> bool) (g : A -> list B) (l : list A) :
  List.filter f (flat_map g l) = flat_map (fun x => List.filter f (g x)) l.
Proof.
  induction l as [|x l IH]; [reflexivity|]. cbn.
  rewrite List.filter_app, IH. reflexivity.
Qed.

Lemma flat_map_agree {A B : Type} (f g : A -> list B) (l : list A) :
  Forall (fun x => f x = g x) l -> flat_map f l = flat_map g l.
Proof. induction 1 as [|x l Hx _ IH]; cbn; [reflexivity | rewrite Hx, IH; reflexivity]. Qed.

Lemma filter_none {A : Type} (f : A -> bool) (l : list A) :
  existsb f l = false -> List.filter f l = [].
Proof.
  induction l as [|x l IH]; [reflexivity|]. cbn. intros H.
  apply orb_false_elim in H as [Hx Hl]. rewrite Hx. apply IH, Hl.
Qed.

Lemma existsb_nodeMatches (n : ObjectTreeData) :
  existsb (nodeMatches toLowerCase searchQuery) (nodesOf n)
  = nodeMatches toLowerCase searchQuery n.
Proof.
  induction n as [i nm os p IH] using ObjectTreeData_tree_ind.
  cbn [nodesOf existsb objects].
  destruct (nodeMatches toLowerCase searchQuery (mkObject i nm os p)) eqn:E;
    [reflexivity|].
  cbn [orb]. destruct os as [cs|]; [|reflexivity].
  rewrite existsb_flat_map, (existsb_agree _ _ cs IH).
  cbn [nodeMatches objects] in E.
  destruct (selfMatches toLowerCase searchQuery (mkObject i nm (Some cs) p));
    [discriminate|].
  destruct cs; [reflexivity | exact E].
Qed.

Lemma rowsOf_filter (n : ObjectTreeData) :
  String.eqb searchQuery "" = false ->
  (if nodeMatches toLowerCase searchQuery n then rowsOf toLowerCase searchQuery n else [])
  = List.filter (nodeMatches toLowerCase searchQuery) (nodesOf n).
Proof.
  intros Hq. induction n as [i nm os p IH] using ObjectTreeData_tree_ind.
  destruct (nodeMatches toLowerCase searchQuery (mkObject i nm os p)) eqn:E.
  - cbn [rowsOf nodesOf List.filter objects]. rewrite E. f_equal.
    destruct os as [cs|]; [|reflexivity].
    rewrite filter_flat_map. apply flat_map_agree.
    rewrite Hq. cbn [orb]. exact IH.
  - symmetry. apply filter_none. rewrite existsb_nodeMatches. exact E.
Qed.

Lemma rowsOf_all (n : ObjectTreeData) :
  String.eqb searchQuery "" = true -> rowsOf toLowerCase searchQuery n = nodesOf n.
Proof.
  intros Hq. induction n as [i nm os p IH] using ObjectTreeData_tree_ind.
  cbn [rowsOf nodesOf objects]. f_equal. destruct os as [cs|]; [|reflexivity].
  apply flat_map_agree. rewrite Hq. exact IH.
Qed.

(** X28: with every node expanded, the tree shows, in the order of the
    model, all nodes when the query is empty, and otherwise exactly the
    nodes that match or have a match below them. *)
Theorem rows_shown (data : list ObjectTreeData) :
  rows toLowerCase searchQuery data
  = if String.eqb searchQuery "" then allNodes data
    else List.filter (nodeMatches toLowerCase searchQuery) (allNodes data).
Proof.
  unfold rows, filteredData, allNodes.
  destruct (String.eqb searchQuery "") eqn:Hq.
  - apply flat_map_agree, Forall_forall. intros n _. apply rowsOf_all, Hq.
  - rewrite filter_flat_map. induction data as [|n data IH]; [reflexivity|].
    cbn [List.filter flat_map]. rewrite <- (rowsOf_filter n Hq), <- IH.
    destruct (nodeMatches toLowerCase searchQuery n); reflexivity.
Qed.

End SearchFacts.

(** A search for "door" in the small model. *)
Example rows_door :
  map objectid (rows asciiLower "door" houseTree) = [1; 2; 4]%Z /\
  highlightMatch asciiLower "door" "Door 12" = Marked "" "Door" " 12" /\
  highlightMatch asciiLower "12" "Door 12" = Marked "Door " "12" "" /\
  highlightMatch asciiLower "x" "Door 12" = Plain "Door 12".
Proof. repeat split; vm_compute; reflexivity. Qed.

End ObjectsTreeFacts.

(** ** The list of panels *)

Section PropertiesListFacts.
Import PropertiesList.

Lemma includes_In (ids : list Z) (id : Z) : includes ids id = true <-> In id ids.
Proof.
  unfold includes. rewrite existsb_exists. split.
  - intros (x & Hx & E). apply Z.eqb_eq in E. subst x. exact Hx.
  - intros H. exists id. split; [exact H | apply Z.eqb_refl].
Qed.

Lemma toggleExpand_In (id x : Z) (prev : list Z) :
  In x (toggleExpand id prev)
  <-> if Z.eqb x id then ~ In id prev else In x prev.
Proof.
  unfold toggleExpand. destruct (includes prev id) eqn:E.
  - apply includes_In in E. rewrite filter_In.
    destruct (Z.eqb_spec x id) as [->|Hne]; cbn; [|tauto].
    split; [intros [_ H]; discriminate | intros H; contradiction].
  - assert (Hn : ~ In id prev) by (rewrite <- includes_In, E; discriminate).
    rewrite in_app_iff. cbn.
    destruct (Z.eqb_spec x id) as [->|Hne]; [tauto|].
    split; [intros [H|[H|[]]]; [exact H | congruence] | auto].
Qed.

Lemma toggleExpand_NoDup (id : Z) (prev : list Z) :
  List.NoDup prev -> List.NoDup (toggleExpand id prev).
Proof.
  intros Hnd. unfold toggleExpand. destruct (includes prev id) eqn:E.
  - apply List.NoDup_filter, Hnd.
  - assert (Hn : ~ In id prev) by (rewrite <- includes_In, E; discriminate).
    apply List.NoDup_app; [exact Hnd | repeat constructor; intros [] |].
    intros a Ha [<-|[]]. contradiction.
Qed.

Lemma expandedIds_snoc (clicks : list Z) (id : Z) :
  expandedIds (clicks ++ [id]) = toggleExpand id (expandedIds clicks).
Proof. unfold expandedIds. rewrite fold_left_app. reflexivity. Qed.

Lemma includes_toggleExpand (id x : Z) (prev : list Z) :
  includes (toggleExpand id prev) x
  = if Z.eqb x id then negb (includes prev id) else includes prev x.
Proof.
  apply eq_true_iff_eq. rewrite includes_In, toggleExpand_In.
  destruct (Z.eqb_spec x id) as [->|Hne]; [|symmetry; apply includes_In].
  rewrite negb_true_iff, <- not_true_iff_false, includes_In. reflexivity.
Qed.

(** X29: whatever panels are clicked and in whatever order, no id is ever
    twice in the list of expanded panels, and a panel is expanded
    exactly when it was clicked an odd number of times. *)
Theorem expanded_parity (clicks : list Z) (x : Z) :
  List.NoDup (expandedIds clicks) /\
  (includes (expandedIds clicks) x = Nat.odd (count_occ Z.eq_dec clicks x)).
Proof.
  split.
  - induction clicks as [|id clicks IH] using rev_ind; [constructor|].
    rewrite expandedIds_snoc. apply toggleExpand_NoDup, IH.
  - induction clicks as [|id clicks IH] using rev_ind; [reflexivity|].
    rewrite expandedIds_snoc, count_occ_app. cbn [count_occ].
    rewrite includes_toggleExpand.
    destruct (Z.eq_dec id x) as [->|Hne].
    + rewrite Z.eqb_refl, IH, Nat.add_1_r, Nat.odd_succ, <- Nat.negb_odd. reflexivity.
    + rewrite Nat.add_0_r. destruct (Z.eqb_spec x id); [congruence | exact IH].
Qed.

(** The list keeps the order in which the panels were last opened: a
    panel opened again goes to the end. *)
Example reopened_goes_last :
  expandedIds [1; 2; 1; 1]%Z = [2; 1]%Z /\ expandedIds [1; 2]%Z = [1; 2]%Z.
Proof. split; reflexivity. Qed.

End PropertiesListFacts.
